(** * Verification of the HWP 5.x reader: OLE (CFB) container and record parser

    Shallow embedding of [scripts/hwp5/ole.py] (class [OleReader]) and
    [scripts/hwp5/parser.py].  Python [bytes] are [list byte]; Python [str]
    values are lists of Unicode code points ([pystr]); Python [int]s are [Z];
    the directory lookup dict is a [gmap]; exceptions are the [Err] branch of
    [result]. *)

From Stdlib Require Import ZArith Lia Bool Init.Byte Strings.Byte DecimalNat.
From stdpp Require Import base list gmap strings sorting.
Import ListNotations.
Open Scope Z_scope.

(* ================================================================== *)
(** ** Bytes, strings and errors *)

Definition bytes := list Byte.byte.

(** A Python [str]: a sequence of code points. *)
Definition pystr := list Z.

(** Conversion of an ASCII string literal into a [pystr]. *)
Definition str (s : string) : pystr :=
  map (fun a => Z.of_nat (Ascii.nat_of_ascii a)) (String.list_ascii_of_string s).

Definition bval (b : Byte.byte) : Z := Z.of_N (Byte.to_N b).

Definition zlen {A} (l : list A) : Z := Z.of_nat (length l).

(** Python slicing [data[a:b]] for [0 <= a]; [b] is clamped to the length. *)
Definition slice {A} (l : list A) (a b : Z) : list A :=
  let b' := Z.min b (zlen l) in
  firstn (Z.to_nat (b' - a)) (skipn (Z.to_nat a) l).

(** [struct.unpack('<H', ...)] and [struct.unpack('<I', ...)] on the bytes at
    [pos]; callers check the bounds first, as the source does. *)
Definition byte_at (l : bytes) (i : Z) : Z := bval (nth (Z.to_nat i) l x00).

Definition u16_at (l : bytes) (pos : Z) : Z :=
  byte_at l pos + 256 * byte_at l (pos + 1).

Definition u32_at (l : bytes) (pos : Z) : Z :=
  u16_at l pos + 65536 * u16_at l (pos + 2).

(** Exceptions raised by the code: [FileNotFoundError] ([NotFound]),
    [IOError] on a short read, [ValueError], [struct.error]. *)
Inductive pyerr := NotFound | IoError | ValueError | StructError.

Inductive result (A : Type) := Ok (a : A) | Err (e : pyerr).
Arguments Ok {A} a.
Arguments Err {A} e.

Definition rbind {A B} (m : result A) (k : A -> result B) : result B :=
  match m with Ok a => k a | Err e => Err e end.

Notation "'let?' x := m 'in' k" := (rbind m (fun x => k))
  (at level 200, x name, m at level 100, k at level 200).

(* ================================================================== *)
(** ** parser.py: text cleaning ([clean_hwp_text]) *)

Module Clean.

(** [CONTROL_PLACEHOLDERS] *)
Definition control_placeholder (c : Z) : option pystr :=
  if c =? 11 then Some []
  else if c =? 16 then Some []
  else if c =? 17 then Some []
  else if c =? 21 then Some [10]
  else if c =? 24 then Some [45]
  else if c =? 30 then Some [32]
  else if c =? 31 then Some [32]
  else None.

(** [KEEP = {9, 10, 13}] *)
Definition keep (c : Z) : bool := (c =? 9) || (c =? 10) || (c =? 13).

(** Step 1: per-character remapping. *)
Definition remap_char (in_table : bool) (c : Z) : pystr :=
  if 32 <=? c then [c]
  else if keep c then
    (if in_table && ((c =? 10) || (c =? 13)) then [32] else [c])
  else match control_placeholder c with
       | Some p => p
       | None => []
       end.

(** [text.replace(ch, "")] for a one-character [ch]. *)
Definition remove_char (ch : Z) (s : pystr) : pystr :=
  List.filter (fun d => negb (d =? ch)) s.

(** [text.replace(a, b)] for one-character [a] and [b]. *)
Definition replace_char (a b : Z) (s : pystr) : pystr :=
  map (fun d => if d =? a then b else d) s.

(** Python's [str.isspace] (CPython [Py_UNICODE_ISSPACE]); it is also the
    class [\s] of [re] on [str] patterns and the set [str.strip()] removes. *)
Definition is_space (c : Z) : bool :=
  ((9 <=? c) && (c <=? 13)) || ((28 <=? c) && (c <=? 32))
  || (c =? 133) || (c =? 160) || (c =? 5760)
  || ((8192 <=? c) && (c <=? 8202))
  || (c =? 8232) || (c =? 8233) || (c =? 8239) || (c =? 8287) || (c =? 12288).

(** Character class [[ \t]]. *)
Definition is_sp_tab (c : Z) : bool := (c =? 32) || (c =? 9).

Definition is_nl (c : Z) : bool := c =? 10.

(** [re.sub(P+ or P{k,}, ..., text)] for a one-character class [p]: every
    maximal run of [p]-characters, of length [n], is replaced by
    [flush f n].  The leftmost-longest match of a greedy [P+] or [P{k,}]
    is a whole maximal run, so the regex substitution acts run by run.
    [n] counts the characters of the current run read so far. *)
Definition flush (f : nat -> pystr) (n : nat) : pystr :=
  match n with O => [] | _ => f n end.

Fixpoint sub_run (p : Z -> bool) (f : nat -> pystr) (n : nat) (s : pystr)
    : pystr :=
  match s with
  | [] => flush f n
  | c :: s' =>
      if p c then sub_run p f (S n) s'
      else flush f n ++ c :: sub_run p f O s'
  end.

(** [re.sub(r"[ \t]+", " ", text)] *)
Definition sub_sp_tab (s : pystr) : pystr := sub_run is_sp_tab (fun _ => [32]) O s.

(** [re.sub(r"\n{3,}", "\n\n", text)]: runs shorter than 3 are kept. *)
Definition nl_runs (n : nat) : pystr :=
  if (3 <=? n)%nat then [10; 10] else repeat 10 n.

Definition sub_nl3 (s : pystr) : pystr := sub_run is_nl nl_runs O s.

(** [re.sub(r"\s+", " ", text)] *)
Definition sub_space (s : pystr) : pystr := sub_run is_space (fun _ => [32]) O s.

(** [str.strip()] *)
Fixpoint drop_while (p : Z -> bool) (s : pystr) : pystr :=
  match s with
  | [] => []
  | c :: s' => if p c then drop_while p s' else s
  end.

Definition lstrip (s : pystr) : pystr := drop_while is_space s.
Definition rstrip (s : pystr) : pystr := rev (lstrip (rev s)).
Definition strip (s : pystr) : pystr := rstrip (lstrip s).

Definition clean_hwp_text (text : pystr) (in_table : bool) : pystr :=
  (* 1) control codes: substitute / keep / drop *)
  let text := flat_map (remap_char in_table) text in
  (* 2) special Unicode *)
  let text := remove_char 8205 (remove_char 8204
                (remove_char 8203 (remove_char 65279 text))) in
  (* 3) whitespace *)
  let text :=
    if in_table then
      let text := sub_sp_tab text in
      let text := replace_char 13 32 (replace_char 10 32 text) in
      sub_space text
    else
      let text := sub_sp_tab text in
      sub_nl3 text in
  strip text.

(** Invariants of cleaned text, used in the proofs. *)

(** [okrun q mx k s]: no run of [q]-characters in [s] is longer than [mx],
    [k] being the number of [q]-characters just before [s]. *)
Fixpoint okrun (q : Z -> bool) (mx : nat) (k : nat) (s : pystr) : bool :=
  match s with
  | [] => true
  | c :: s' => if q c then (k <? mx)%nat && okrun q mx (S k) s' else okrun q mx O s'
  end.

Definition is_zw (c : Z) : bool :=
  (c =? 65279) || (c =? 8203) || (c =? 8204) || (c =? 8205).

Definition good_char_body (c : Z) : bool :=
  ((32 <=? c) || (c =? 10) || (c =? 13)) && negb (is_zw c).

Definition good_char_table (c : Z) : bool :=
  (32 <=? c) && (negb (is_space c) || (c =? 32)) && negb (is_zw c).

Definition body_good (s : pystr) : Prop :=
  (forall c, In c s -> good_char_body c = true)
  /\ okrun is_sp_tab 1 0 s = true /\ okrun is_nl 2 0 s = true.

Definition table_good (s : pystr) : Prop :=
  (forall c, In c s -> good_char_table c = true) /\ okrun is_space 1 0 s = true.

End Clean.

(* ================================================================== *)
(** ** ole.py: the [OleReader] store after construction *)

Module Ole.

Definition FREE_SECTOR  : Z := 4294967295.
Definition END_OF_CHAIN : Z := 4294967294.
Definition FAT_SECTOR   : Z := 4294967293.
Definition DIFAT_SECTOR : Z := 4294967292.

Definition STGTY_EMPTY   : Z := 0.
Definition STGTY_STORAGE : Z := 1.
Definition STGTY_STREAM  : Z := 2.
Definition STGTY_ROOT    : Z := 5.

(** A directory entry (the dict built in [_load_directory]). *)
Record dir_entry := {
  index : Z;
  name : pystr;
  type : Z;
  left : Z;
  right : Z;
  child : Z;
  start_sector : Z;
  stream_size : Z
}.

(** The reader's fields once [__init__] has returned: the open file ([fp],
    its contents), the header sizes, the FAT, the MiniFAT, the MiniStream
    and the full-path lookup filled by [_build_paths]. *)
Record ole := {
  fp : bytes;
  sector_size : Z;
  mini_sector_size : Z;
  mini_stream_cutoff : Z;
  fat : list Z;
  minifat : list Z;
  mini_stream_data : bytes;
  dir_lookup : gmap pystr dir_entry
}.

Section Reader.
Variable self : ole.

(** [_read_exact_at]: a short read raises [IOError]. *)
Definition _read_exact_at (offset size : Z) : result bytes :=
  let data := slice (fp self) offset (offset + size) in
  if zlen data =? size then Ok data else Err IoError.

(** [_read_sector] *)
Definition _read_sector (sid : Z) : result bytes :=
  if sid <? 0 then Err ValueError
  else _read_exact_at (512 + sid * sector_size self) (sector_size self).

(** [read_mini_sector], the closure of [_read_chain]. *)
Definition read_mini_sector (mini_sid : Z) : result bytes :=
  let off := mini_sid * mini_sector_size self in
  Ok (slice (mini_stream_data self) off (off + mini_sector_size self)).

End Reader.

(** [sid in (FREE_SECTOR, END_OF_CHAIN)] *)
Definition is_end_sid (sid : Z) : bool :=
  (sid =? FREE_SECTOR) || (sid =? END_OF_CHAIN).

(** The loop guard [max_hops = 1_000_000]. *)
Definition max_hops : nat := Z.to_nat 1000000.

(** The [while] loop of [_read_chain].  It returns the final [sid], [out]
    and [max_hops]; the last component is a ghost trace, the sector ids
    passed to [read_one], latest first, which the source does not keep. *)
Fixpoint chain_loop (read_one : Z -> result bytes) (fat : list Z)
    (max_hops : nat) (sid : Z) (out : bytes) (trace : list Z)
    : result (Z * bytes * nat * list Z) :=
  match max_hops with
  | O => Ok (sid, out, O, trace)
  | S hops =>
      if is_end_sid sid then Ok (sid, out, max_hops, trace)
      else
        let? sec := read_one sid in
        let out := out ++ sec in
        if zlen fat <=? sid then Ok (sid, out, max_hops, sid :: trace)
        else chain_loop read_one fat hops (nth (Z.to_nat sid) fat 0) out
               (sid :: trace)
  end.

(** [l] follows the FAT from [sid]: [l = [sid; fat[sid]; fat[fat[sid]]; ...]]. *)
Fixpoint fat_chain (fat : list Z) (sid : Z) (l : list Z) : Prop :=
  match l with
  | [] => True
  | x :: l' => x = sid /\ fat_chain fat (nth (Z.to_nat x) fat 0) l'
  end.

(** The sid the loop of [_read_chain] holds after reading the sectors [l]
    from [sid]: [fat[...fat[sid]...]], one FAT step per sector read. *)
Fixpoint chain_next (fat : list Z) (sid : Z) (l : list Z) : Z :=
  match l with
  | [] => sid
  | x :: l' => chain_next fat (nth (Z.to_nat x) fat 0) l'
  end.

(** [_read_chain(start_sector, size, use_mini)] *)
Definition _read_chain (self : ole) (start_sector : Z) (size : option Z)
    (use_mini : bool) : result bytes :=
  if is_end_sid start_sector then Ok []
  else if use_mini && (bool_decide (minifat self = [])
                       || bool_decide (mini_stream_data self = []))
  then Ok []
  else
    let fat := if use_mini then minifat self else fat self in
    let read_one := if use_mini then read_mini_sector self else _read_sector self in
    let? r := chain_loop read_one fat max_hops start_sector [] [] in
    let '(_, data, _, _) := r in
    match size with
    | Some n => Ok (firstn (Z.to_nat (Z.min n (zlen data))) data)
    | None => Ok data
    end.

(** Python's ordering of [str]: lexicographic on code points. *)
Fixpoint pystr_leb (a b : pystr) : bool :=
  match a, b with
  | [], _ => true
  | _ :: _, [] => false
  | x :: a', y :: b' => (x <? y) || ((x =? y) && pystr_leb a' b')
  end.

Definition pystr_le (a b : pystr) : Prop := pystr_leb a b = true.

#[global] Instance pystr_le_dec : RelDecision pystr_le :=
  fun a b => decide (pystr_leb a b = true).

(** [list_streams]: [sorted(self.dir_lookup.keys())] *)
Definition list_streams (self : ole) : list pystr :=
  merge_sort pystr_le (map fst (map_to_list (dir_lookup self))).

(** [exists]: [path in self.dir_lookup] *)
Definition exists_ (self : ole) (path : pystr) : bool :=
  match dir_lookup self !! path with Some _ => true | None => false end.

(** [read_stream].  A looked-up entry is a non-empty dict, hence truthy, so
    [if not entry] only fires on a missing key. *)
Definition read_stream (self : ole) (path : pystr) : result bytes :=
  match dir_lookup self !! path with
  | None => Err NotFound
  | Some entry =>
      let start := start_sector entry in
      let size := stream_size entry in
      if is_end_sid start || (size =? 0) then Ok []
      else
        let use_mini := size <? mini_stream_cutoff self in
        _read_chain self start (Some size) use_mini
  end.

(** Calls on the store, with a log of the streams read: [io A] threads the
    list of paths passed to [read_stream] so far. *)
Definition io (A : Type) := list pystr -> result A * list pystr.

Definition io_ret {A} (a : A) : io A := fun log => (Ok a, log).

Definition io_bind {A B} (m : io A) (k : A -> io B) : io B :=
  fun log => match m log with
             | (Ok a, log') => k a log'
             | (Err e, log') => (Err e, log')
             end.

Definition io_read_stream (self : ole) (path : pystr) : io bytes :=
  fun log => (read_stream self path, log ++ [path]).

End Ole.

(* ================================================================== *)
(** ** parser.py: records, text chunks, tables, sections *)

Module Parser.
Import Clean Ole.

Definition HWPTAG_BEGIN : Z := 16.
Definition HWPTAG_PARA_HEADER : Z := HWPTAG_BEGIN + 50.
Definition HWPTAG_PARA_TEXT : Z := HWPTAG_BEGIN + 51.
Definition HWPTAG_LIST_HEADER : Z := HWPTAG_BEGIN + 56.
Definition HWPTAG_TABLE : Z := HWPTAG_BEGIN + 61.

(** [CONTROL_CHAR_SIZES], in WCHARs. *)
Definition CONTROL_CHAR_SIZES : list (Z * Z) :=
  [(0, 1); (10, 1); (13, 1); (24, 1); (30, 1); (31, 1);
   (1, 8); (2, 8); (3, 8); (4, 8); (5, 8); (6, 8); (7, 8); (8, 8); (9, 8);
   (11, 8); (12, 8); (14, 8); (15, 8); (16, 8); (17, 8); (18, 8); (19, 8);
   (20, 8); (21, 8); (22, 8); (23, 8)].

Fixpoint dict_get (d : list (Z * Z)) (k : Z) : option Z :=
  match d with
  | [] => None
  | (k', v) :: d' => if k =? k' then Some v else dict_get d' k
  end.

(** [REGEX_CONTROL_CHAR.search(data, start)] for the pattern
    [[\x00-\x1f]\x00]: the first offset [i >= start] with
    [data[i] <= 0x1f] and [data[i+1] = 0]. *)
Fixpoint search_from (l : bytes) (i : Z) : option Z :=
  match l with
  | b1 :: ((b2 :: _) as t) =>
      if (bval b1 <=? 31) && (bval b2 =? 0) then Some i
      else search_from t (i + 1)
  | _ => None
  end.

Definition regex_search (data : bytes) (start : Z) : option Z :=
  search_from (skipn (Z.to_nat start) data) start.

(** The [while True] loop of [find_control_char]; each [continue] moves
    [start] past the previous match, so [length data + 1] rounds are enough. *)
Fixpoint find_control_char_loop (fuel : nat) (data : bytes) (start : Z) : Z * Z :=
  match fuel with
  | O => (zlen data, zlen data)
  | S fuel' =>
      match regex_search data start with
      | None => (zlen data, zlen data)
      | Some i =>
          if Z.odd i then find_control_char_loop fuel' data (i + 1)
          else
            let ch := byte_at data i in
            match dict_get CONTROL_CHAR_SIZES ch with
            | Some size => (i, i + size * 2)
            | None => (i, i + 2)
            end
      end
  end.

Definition find_control_char (data : bytes) (start : Z) : Z * Z :=
  find_control_char_loop (S (length data)) data start.

(** [bytes.decode('utf-16le', errors='ignore')]: code units are read in
    pairs of bytes, surrogate pairs are combined, lone surrogates and a
    trailing odd byte are dropped. *)
Fixpoint utf16_units (l : bytes) : list Z :=
  match l with
  | b0 :: b1 :: r => (bval b0 + 256 * bval b1) :: utf16_units r
  | _ => []
  end.

Definition is_high (u : Z) : bool := (55296 <=? u) && (u <=? 56319).
Definition is_low (u : Z) : bool := (56320 <=? u) && (u <=? 57343).

Fixpoint decode_units (us : list Z) : pystr :=
  match us with
  | [] => []
  | u :: r =>
      if is_high u then
        match r with
        | [] => []
        | u2 :: r' =>
            if is_low u2
            then (65536 + (u - 55296) * 1024 + (u2 - 56320)) :: decode_units r'
            else decode_units r
        end
      else if is_low u then decode_units r
      else u :: decode_units r
  end.

Definition decode_utf16le (l : bytes) : pystr := decode_units (utf16_units l).

(** The [while idx < size] loop of [parse_para_text_chunks]; [idx] grows
    by at least one byte per round. *)
Fixpoint chunks_loop (fuel : nat) (data : bytes) (idx : Z) (texts : list pystr)
    : list pystr :=
  match fuel with
  | O => texts
  | S fuel' =>
      if idx <? zlen data then
        let '(ctrlpos, ctrlpos_end) := find_control_char data idx in
        let texts :=
          if idx <? ctrlpos then
            let text := decode_utf16le (slice data idx ctrlpos) in
            match text with [] => texts | _ => texts ++ [text] end
          else texts in
        let idx := if idx <? ctrlpos_end then ctrlpos_end else idx + 2 in
        chunks_loop fuel' data idx texts
      else texts
  end.

Definition parse_para_text_chunks (data : bytes) : list pystr :=
  chunks_loop (S (length data)) data 0 [].

(** [read_record_header]: [None] stands for the [(None, None, None, pos)]
    return. *)
Definition read_record_header (data : bytes) (pos : Z) : option (Z * Z * Z * Z) :=
  if zlen data <? pos + 4 then None
  else
    let header := u32_at data pos in
    let tag_id := Z.land header 1023 in
    let level := Z.land (Z.shiftr header 10) 1023 in
    let size := Z.land (Z.shiftr header 20) 4095 in
    let pos := pos + 4 in
    if size =? 4095 then
      if zlen data <? pos + 4 then None
      else Some (tag_id, level, u32_at data pos, pos + 4)
    else Some (tag_id, level, size, pos).

(** [parse_table_header] *)
Definition parse_table_header (data : bytes) (pos : Z) : Z * Z * Z :=
  if zlen data <? pos + 8 then (0, 0, pos)
  else (u16_at data (pos + 4), u16_at data (pos + 6), pos + 8).

Record TableCell := {
  col : Z;
  row : Z;
  col_span : Z;
  row_span : Z;
  text : pystr
}.

Record Table := {
  row_count : Z;
  col_count : Z;
  cells : list TableCell
}.

(** [sep.join(parts)] *)
Fixpoint join (sep : pystr) (parts : list pystr) : pystr :=
  match parts with
  | [] => []
  | [p] => p
  | p :: ps => p ++ sep ++ join sep ps
  end.

(** The cleaned, non-empty chunks of one PARA_TEXT payload. *)
Definition cleaned_chunks (in_table : bool) (payload : bytes) : list pystr :=
  List.filter (fun t => bool_decide (t <> []))
    (map (fun t => clean_hwp_text t in_table) (parse_para_text_chunks payload)).

(** The inner [while cell_data_pos < cell_end_pos] loop of
    [parse_cell_list]. *)
Fixpoint cell_text_loop (fuel : nat) (data : bytes) (cell_data_pos cell_end_pos : Z)
    (text_parts : list pystr) : list pystr :=
  match fuel with
  | O => text_parts
  | S fuel' =>
      if cell_data_pos <? cell_end_pos then
        match read_record_header data cell_data_pos with
        | None => text_parts
        | Some (para_tag, _, para_size, para_pos) =>
            if zlen data <? para_pos + para_size then text_parts
            else
              let text_parts :=
                if para_tag =? HWPTAG_PARA_TEXT then
                  text_parts ++ cleaned_chunks true
                                  (slice data para_pos (para_pos + para_size))
                else text_parts in
              cell_text_loop fuel' data (para_pos + para_size) cell_end_pos text_parts
        end
      else text_parts
  end.

(** The outer [while pos < end] loop of [parse_cell_list]. *)
Fixpoint cell_list_loop (fuel : nat) (data : bytes) (pos end_ level : Z)
    (cells : list TableCell) : list TableCell :=
  match fuel with
  | O => cells
  | S fuel' =>
      if pos <? end_ then
        match read_record_header data pos with
        | None => cells
        | Some (tag_id, rec_level, size, new_pos) =>
            if zlen data <? new_pos + size then cells
            else
              let cells :=
                if (tag_id =? HWPTAG_LIST_HEADER) && (rec_level =? level + 1) then
                  let cell_pos := new_pos in
                  if cell_pos + 26 <=? zlen data then
                    let col := u16_at data cell_pos in
                    let row := u16_at data (cell_pos + 2) in
                    let col_span := u16_at data (cell_pos + 4) in
                    let row_span := u16_at data (cell_pos + 6) in
                    let cell_data_pos := cell_pos + size in
                    let cell_end_pos := new_pos + size in
                    let text_parts :=
                      cell_text_loop (S (length data)) data cell_data_pos cell_end_pos [] in
                    let text := join [32] text_parts in
                    cells ++ [{| col := col; row := row; col_span := col_span;
                                 row_span := row_span; text := text |}]
                  else cells
                else cells in
              cell_list_loop fuel' data (new_pos + size) end_ level cells
        end
      else cells
  end.

Definition parse_cell_list (data : bytes) (pos end_ level : Z) : list TableCell :=
  cell_list_loop (S (length data)) data pos end_ level [].

(** The value of [pos] in the outer loop of [parse_cell_list] after [n]
    rounds from [pos], if the loop makes [n] rounds: each round reads a
    record header at [pos] and moves to [new_pos + size]. *)
Fixpoint cell_scan (n : nat) (data : bytes) (pos end_ : Z) : option Z :=
  match n with
  | O => Some pos
  | S n' =>
      if pos <? end_ then
        match read_record_header data pos with
        | None => None
        | Some (_, _, size, new_pos) =>
            if zlen data <? new_pos + size then None
            else cell_scan n' data (new_pos + size) end_
        end
      else None
  end.

(** The record loop of [extract_content_from_section] (after decompression):
    state [pos], [paragraphs], [tables], [current_para_nchars]. *)
Fixpoint records_loop (fuel : nat) (section_data : bytes) (pos : Z)
    (paragraphs : list pystr) (tables : list Table) (current_para_nchars : option Z)
    : list pystr * list Table :=
  match fuel with
  | O => (paragraphs, tables)
  | S fuel' =>
      if pos <? zlen section_data then
        match read_record_header section_data pos with
        | None => (paragraphs, tables)
        | Some (tag_id, level, size, new_pos) =>
            if zlen section_data <? new_pos + size then (paragraphs, tables)
            else
              let '(paragraphs, tables, current_para_nchars) :=
                if tag_id =? HWPTAG_BEGIN + 50 then
                  if new_pos + 4 <=? zlen section_data then
                    let nchars := u32_at section_data new_pos in
                    let nchars := if Z.testbit nchars 31
                                  then Z.land nchars 2147483647 else nchars in
                    (paragraphs, tables, Some nchars)
                  else (paragraphs, tables, current_para_nchars)
                else if tag_id =? HWPTAG_PARA_TEXT then
                  let text_data := slice section_data new_pos (new_pos + size) in
                  (paragraphs ++ cleaned_chunks false text_data, tables, None)
                else if tag_id =? HWPTAG_TABLE then
                  let '(rows, cols, tpos) := parse_table_header section_data new_pos in
                  if (rows >? 0) && (cols >? 0) then
                    let cells := parse_cell_list section_data tpos (new_pos + size) level in
                    match cells with
                    | [] => (paragraphs, tables, current_para_nchars)
                    | _ => (paragraphs,
                            tables ++ [{| row_count := rows; col_count := cols;
                                          cells := cells |}],
                            current_para_nchars)
                    end
                  else (paragraphs, tables, current_para_nchars)
                else (paragraphs, tables, current_para_nchars) in
              records_loop fuel' section_data (new_pos + size) paragraphs tables
                current_para_nchars
        end
      else (paragraphs, tables)
  end.

Definition extract_records (section_data : bytes) : list pystr * list Table :=
  records_loop (S (length section_data)) section_data 0 [] [] None.

(** [zlib.decompress(data, wbits)] is a library call: it is a parameter of
    the section code, [None] standing for the raised [zlib.error]. *)
Section Decompress.
Variable zlib_decompress : Z -> bytes -> option bytes.

(** [for wbits in [-15, 15, 0]: try ... break except: continue]; the first
    component lists the [wbits] tried, in order. *)
Fixpoint try_decompress (wbits_list : list Z) (data : bytes) : list Z * option bytes :=
  match wbits_list with
  | [] => ([], None)
  | wbits :: rest =>
      match zlib_decompress wbits data with
      | Some out => ([wbits], Some out)
      | None => let '(tried, r) := try_decompress rest data in (wbits :: tried, r)
      end
  end.

Definition WBITS : list Z := [-15; 15; 0].

(** The bytes the record loop receives. *)
Definition section_input (data : bytes) : bytes :=
  match snd (try_decompress WBITS data) with
  | Some out => out
  | None => data
  end.

(** [extract_content_from_section] *)
Definition extract_content_from_section (ole : Ole.ole) (section_name : pystr)
    : io (list pystr * list Table) :=
  if negb (bool_decide (section_name ∈ list_streams ole)) then io_ret ([], [])
  else io_bind (io_read_stream ole section_name)
         (fun section_data => io_ret (extract_records (section_input section_data))).

End Decompress.

(** Decimal rendering of a byte-sized [int] in an f-string. *)
Definition dec_str (n : Z) : pystr :=
  if n <? 10 then [48 + n]
  else if n <? 100 then [48 + n / 10; 48 + n mod 10]
  else [48 + n / 100; 48 + (n / 10) mod 10; 48 + n mod 10].

Record metadata := { version : option pystr; compressed : option bool }.

(** [read_hwp_metadata]; [struct.unpack("<I", data[32:36])] raises
    [struct.error] on a stream shorter than 36 bytes. *)
Definition read_hwp_metadata (ole : Ole.ole) : io metadata :=
  if negb (bool_decide (str "FileHeader" ∈ list_streams ole)) then
    io_ret {| version := None; compressed := None |}
  else
    io_bind (io_read_stream ole (str "FileHeader")) (fun data =>
      let version_bytes := slice data 32 36 in
      if negb (zlen version_bytes =? 4) then (fun log => (Err StructError, log))
      else
        let v := u32_at data 32 in
        let major := Z.land (Z.shiftr v 24) 255 in
        let minor := Z.land (Z.shiftr v 16) 255 in
        let build := Z.land (Z.shiftr v 8) 255 in
        let revision := Z.land v 255 in
        let flags := if 40 <=? zlen data then u32_at data 36 else 0 in
        let compressed := negb (Z.land flags 1 =? 0) in
        io_ret {| version := Some (dec_str major ++ [46] ++ dec_str minor ++ [46]
                                   ++ dec_str build ++ [46] ++ dec_str revision);
                  compressed := Some compressed |}).

End Parser.

(* ================================================================== *)
(** ** The writer side of the formats, and predicates on what the reader decodes *)

(** Not part of the program: [struct.pack('<H')], [struct.pack('<I')] and
    [str.encode('utf-16le')] on code units, the inverses of [u16_at],
    [u32_at] and [utf16_units]; and the properties the reader's outputs
    are stated with. *)
Module Formats.
Import Byte Clean Parser.

Definition byte_of (z : Z) : Byte.byte :=
  match Byte.of_N (Z.to_N z) with Some b => b | None => x00 end.

Definition pack_u16 (v : Z) : bytes := [byte_of (v mod 256); byte_of (v / 256)].

Definition pack_u32 (v : Z) : bytes := pack_u16 (v mod 65536) ++ pack_u16 (v / 65536).

Definition encode_utf16le (us : list Z) : bytes := concat (map pack_u16 us).

(** Two bytes that [CONTROL_CHAR_PATTERN] matches: a code below 32, then 0. *)
Definition ctrl_pair (l : bytes) : bool :=
  match l with
  | b1 :: b2 :: _ => (bval b1 <=? 31) && (bval b2 =? 0)
  | _ => false
  end.

Definition ctrl_at (data : bytes) (j : Z) : bool :=
  (0 <=? j) && ctrl_pair (skipn (Z.to_nat j) data).

(** [CONTROL_CHAR_SIZES.get(code, 1)] *)
Definition ctrl_size (c : Z) : Z :=
  match dict_get CONTROL_CHAR_SIZES c with Some s => s | None => 1 end.

(** A table [to_text] can be asked to render: both counts in [1..65535]
    and at least one cell. *)
Definition table_ok (T : Table) : Prop :=
  1 <= row_count T <= 65535 /\ 1 <= col_count T <= 65535 /\ cells T <> [].

End Formats.


(* ================================================================== *)
(** ** Concrete inputs *)

Module Inputs.
Import Byte Ole Parser.

(** The PARA_TEXT payload of scenario S3: UTF-16LE [A], the control [09 00]
    and 14 filler bytes (8 WCHARs in all), then UTF-16LE [B]. *)
Definition s3_payload (filler : bytes) : bytes :=
  [x41; x00; x09; x00] ++ filler ++ [x42; x00].

(** A section holding that payload as one PARA_TEXT record (tag 0x43,
    level 0, size 20). *)
Definition s3_section (filler : bytes) : bytes :=
  [x43; x00; x40; x01] ++ s3_payload filler.

(** A TABLE record (tag 0x4D, level 0, size 44) declaring 1 row and 1
    column, whose payload holds a LIST_HEADER record (tag 0x48, level 1,
    size 32).  The LIST_HEADER payload is a 26-byte cell header
    [(col, row, col_span, row_span)] followed by [rest], which has 6 bytes
    to fill the declared sizes. *)
Definition table_section (col row col_span row_span : Z) (rest : bytes) : bytes :=
  let u16 (v : Z) := [match Byte.of_N (Z.to_N (v mod 256)) with Some b => b | None => x00 end;
                      match Byte.of_N (Z.to_N (v / 256)) with Some b => b | None => x00 end] in
  [x4d; x00; xc0; x02; x00; x00; x00; x00; x01; x00; x01; x00;
   x48; x04; x00; x02] ++ u16 col ++ u16 row ++ u16 col_span ++ u16 row_span
  ++ repeat x00 18 ++ rest.

(** Two LIST_HEADER records (tag 0x48, level 1, size 26) in a row, at
    offsets 0 and 30; the first cell header is all zero, the second has
    [col = 1]. *)
Definition list_cells : bytes :=
  [x48; x04; xa0; x01] ++ repeat x00 26
  ++ [x48; x04; xa0; x01; x01; x00] ++ repeat x00 24.

(** The cell text: a PARA_TEXT record (tag 0x43, level 2, size 2) holding
    UTF-16LE [A], at offsets 42..48, inside the LIST_HEADER record. *)
Definition cell_para : bytes := [x43; x08; x20; x00; x41; x00].

Definition entry_A : dir_entry :=
  {| index := 1; name := str "A"; type := STGTY_STREAM; left := -1; right := -1;
     child := -1; start_sector := 0; stream_size := 5000 |}.

(** A store with one 5000-byte stream ["A"] starting at sector 0, whose
    FAT ends the chain after that sector. *)
Definition short_store : ole := {|
  fp := repeat x00 512 ++ repeat x41 512;
  sector_size := 512;
  mini_sector_size := 64;
  mini_stream_cutoff := 4096;
  fat := [END_OF_CHAIN];
  minifat := [];
  mini_stream_data := [];
  dir_lookup := {[ str "A" := entry_A ]}
|}.

(** A store with a 40-byte ["FileHeader"] in the MiniStream and a section
    ["BodyText/Section0"] holding the S3 records. *)
Definition mini_store : ole := {|
  fp := repeat x00 1024;
  sector_size := 512;
  mini_sector_size := 64;
  mini_stream_cutoff := 4096;
  fat := [END_OF_CHAIN];
  minifat := [END_OF_CHAIN; END_OF_CHAIN];
  mini_stream_data := repeat x00 32 ++ [x05; x00; x02; x00; x00; x00; x00; x00]
                      ++ repeat x00 24 ++ s3_section (repeat x00 14) ++ repeat x00 40;
  dir_lookup := {[ str "FileHeader" := {| index := 1; name := str "FileHeader";
                     type := STGTY_STREAM; left := -1; right := 2; child := -1;
                     start_sector := 0; stream_size := 40 |};
                   str "BodyText/Section0" := {| index := 3; name := str "Section0";
                     type := STGTY_STREAM; left := -1; right := -1; child := -1;
                     start_sector := 1; stream_size := 24 |} ]}
|}.

End Inputs.

(* ================================================================== *)
(** ** Opening the container: [OleReader.__init__] and its loaders *)

Module Exn.
Import Ole.

(** Exceptions beyond [pyerr] that the construction of the reader and the
    table rendering can raise. *)
Inductive exc := PyErr (e : pyerr) | RecursionError | IndexError | ZeroDivisionError.

Inductive xresult (A : Type) := XOk (a : A) | XErr (e : exc).
Arguments XOk {A} a.
Arguments XErr {A} e.

Definition xbind {A B} (m : xresult A) (k : A -> xresult B) : xresult B :=
  match m with XOk a => k a | XErr e => XErr e end.

Notation "'let!' x := m 'in' k" := (xbind m (fun x => k))
  (at level 200, x name, m at level 100, k at level 200).

Definition lift {A} (r : result A) : xresult A :=
  match r with Ok a => XOk a | Err e => XErr (PyErr e) end.

(** [for x in l: acc = f(acc, x)], stopping at the first exception. *)
Fixpoint xfold {A B} (f : A -> B -> xresult A) (acc : A) (l : list B) : xresult A :=
  match l with
  | [] => XOk acc
  | x :: l' => let! acc := f acc x in xfold f acc l'
  end.

End Exn.

Module OleLoad.
Import Ole Parser Exn.

(** [struct.unpack('<%dI' % (len(data)//4), data)] after dropping the
    trailing [len(data) % 4] bytes. *)
Fixpoint _unpack_u32_vec (data : bytes) : list Z :=
  match data with
  | b0 :: b1 :: b2 :: b3 :: r => u32_at [b0; b1; b2; b3] 0 :: _unpack_u32_vec r
  | _ => []
  end.

(** ['<i']: a signed 32-bit value. *)
Definition s32 (v : Z) : Z := if 2147483648 <=? v then v - 4294967296 else v.

(** The header fields [_read_header] sets. *)
Record header := {
  hdr_sector_size : Z;
  hdr_mini_sector_size : Z;
  hdr_num_fat_sectors : Z;
  hdr_dir_first_sector : Z;
  hdr_mini_stream_cutoff : Z;
  hdr_mini_fat_first_sector : Z;
  hdr_num_mini_fat_sectors : Z;
  hdr_difat_first_sector : Z;
  hdr_num_difat_sectors : Z;
  hdr_difat : list Z
}.

Definition OLE_SIGNATURE : list Z := [208; 207; 17; 224; 161; 177; 26; 225].

(** The reader right after the assignments at the top of [__init__]. *)
Definition init_ole (contents : bytes) : ole := {|
  fp := contents; sector_size := 512; mini_sector_size := 64; mini_stream_cutoff := 4096;
  fat := []; minifat := []; mini_stream_data := []; dir_lookup := ∅ |}.

Definition not_free (sid : Z) : bool := negb (sid =? FREE_SECTOR).

(** [_read_header] *)
Definition _read_header (self : ole) : result header :=
  let? hdr := _read_exact_at self 0 512 in
  if negb (bool_decide (map bval (slice hdr 0 8) = OLE_SIGNATURE)) then Err ValueError
  else
    let sector_shift := u16_at hdr 30 in
    let mini_sector_shift := u16_at hdr 32 in
    Ok {| hdr_sector_size := Z.shiftl 1 sector_shift;
          hdr_mini_sector_size := Z.shiftl 1 mini_sector_shift;
          hdr_num_fat_sectors := u32_at hdr 44;
          hdr_dir_first_sector := u32_at hdr 48;
          hdr_mini_stream_cutoff := u32_at hdr 56;
          hdr_mini_fat_first_sector := u32_at hdr 60;
          hdr_num_mini_fat_sectors := u32_at hdr 64;
          hdr_difat_first_sector := u32_at hdr 68;
          hdr_num_difat_sectors := u32_at hdr 72;
          hdr_difat := List.filter not_free (_unpack_u32_vec (slice hdr 76 512)) |}.

(** The [while count > 0 and next_sid not in (FREE_SECTOR, END_OF_CHAIN)]
    loop of [_load_difat_and_fat]; [count] bounds the rounds.  [sec[-4:]]
    of a sector shorter than 4 bytes is too short for ['<I']. *)
Fixpoint difat_loop (self : ole) (count : nat) (next_sid : Z) (difat : list Z)
    : result (list Z) :=
  match count with
  | O => Ok difat
  | S count' =>
      if is_end_sid next_sid then Ok difat
      else
        let? sec := _read_sector self next_sid in
        let entries := _unpack_u32_vec (firstn (Z.to_nat (sector_size self - 4)) sec) in
        let difat := difat ++ List.filter not_free entries in
        if zlen sec <? 4 then Err StructError
        else difat_loop self count' (u32_at sec (zlen sec - 4)) difat
  end.

(** [for fat_sid in self.difat: fat_entries.extend(...)] *)
Fixpoint fat_loop (self : ole) (difat : list Z) : result (list Z) :=
  match difat with
  | [] => Ok []
  | fat_sid :: rest =>
      let? sec := _read_sector self fat_sid in
      let? more := fat_loop self rest in
      Ok (_unpack_u32_vec sec ++ more)
  end.

(** [_load_difat_and_fat]: the DIFAT and the FAT. *)
Definition _load_difat_and_fat (self : ole) (h : header) : result (list Z * list Z) :=
  let? difat := difat_loop self (Z.to_nat (hdr_num_difat_sectors h))
                  (hdr_difat_first_sector h) (hdr_difat h) in
  let? fat := fat_loop self difat in
  Ok (difat, fat).

(** One 128-byte directory record; the ['parent'] and ['full_path'] keys,
    written by [_build_paths] and read nowhere, are left out. *)
Definition parse_dir_entry (index : Z) (rec : bytes) : dir_entry :=
  let name_raw := slice rec 0 64 in
  let name_len := u16_at rec 64 in
  let name := decode_utf16le (firstn (Z.to_nat (Z.max 0 (Z.min 64 (name_len - 2)))) name_raw) in
  let size_lo := u32_at rec 120 in
  let size_hi := u32_at rec 124 in
  {| index := index; name := name; type := byte_at rec 66;
     left := s32 (u32_at rec 68); right := s32 (u32_at rec 72); child := s32 (u32_at rec 76);
     start_sector := u32_at rec 116;
     stream_size := if size_hi =? 0 then size_lo else Z.lor (Z.shiftl size_hi 32) size_lo |}.

(** [for i in range(0, len(dir_raw), 128)] over the truncated stream. *)
Fixpoint dir_records (n : nat) (raw : bytes) (index : Z) : list dir_entry :=
  match n with
  | O => []
  | S n' => parse_dir_entry index (firstn 128 raw) :: dir_records n' (skipn 128 raw) (index + 1)
  end.

(** [_load_directory] *)
Definition _load_directory (self : ole) (h : header) : result (list dir_entry) :=
  let? dir_raw := _read_chain self (hdr_dir_first_sector h) None false in
  Ok (dir_records (length dir_raw / 128) dir_raw 0).

Definition is_root (e : dir_entry) : bool := type e =? STGTY_ROOT.

(** [walk_btree]: [depth] is the number of Python frames still available;
    a call beyond it raises [RecursionError].  [parent_path] [None] and
    [''] behave alike and are both the empty string here. *)
Fixpoint walk_btree (depth : nat) (entries : list dir_entry) (idx : Z) (parent_path : pystr)
    (lookup : gmap pystr dir_entry) : xresult (gmap pystr dir_entry) :=
  match depth with
  | O => XErr RecursionError
  | S depth' =>
      if (idx <? 0) || (zlen entries <=? idx) then XOk lookup
      else
        let node := nth (Z.to_nat idx) entries (parse_dir_entry 0 []) in
        let! lookup :=
          if 0 <=? left node then walk_btree depth' entries (left node) parent_path lookup
          else XOk lookup in
        let full_path :=
          if type node =? STGTY_ROOT then []
          else match parent_path with
               | [] => name node
               | _ => parent_path ++ [47] ++ name node
               end in
        let! lookup :=
          if 0 <=? child node then walk_btree depth' entries (child node) full_path lookup
          else XOk lookup in
        let lookup :=
          if (type node =? STGTY_STREAM) && negb (bool_decide (full_path = []))
          then <[full_path := node]> lookup else lookup in
        if 0 <=? right node then walk_btree depth' entries (right node) parent_path lookup
        else XOk lookup
  end.

(** [_build_paths] *)
Definition _build_paths (depth : nat) (entries : list dir_entry)
    : xresult (gmap pystr dir_entry) :=
  match List.find is_root entries with
  | None => XOk ∅
  | Some e =>
      let root := nth (Z.to_nat (index e)) entries e in
      if 0 <=? child root then walk_btree depth entries (child root) [] ∅ else XOk ∅
  end.

(** [_load_minifat] *)
Definition _load_minifat (self : ole) (h : header) : result (list Z) :=
  if (hdr_num_mini_fat_sectors h =? 0) || is_end_sid (hdr_mini_fat_first_sector h) then Ok []
  else let? raw := _read_chain self (hdr_mini_fat_first_sector h) None false in
       Ok (_unpack_u32_vec raw).

(** [_load_ministream] *)
Definition _load_ministream (self : ole) (entries : list dir_entry) : result bytes :=
  match List.find is_root entries with
  | None => Ok []
  | Some root =>
      if is_end_sid (start_sector root) || (stream_size root =? 0) then Ok []
      else _read_chain self (start_sector root) (Some (stream_size root)) false
  end.

(** [OleReader(path)] on a file with the given contents; [depth] is the
    recursion budget of [_build_paths]. *)
Definition ole_open (depth : nat) (contents : bytes) : xresult ole :=
  let self0 := init_ole contents in
  let! h := lift (_read_header self0) in
  let self1 := {| fp := contents; sector_size := hdr_sector_size h;
                  mini_sector_size := hdr_mini_sector_size h;
                  mini_stream_cutoff := hdr_mini_stream_cutoff h;
                  fat := []; minifat := []; mini_stream_data := []; dir_lookup := ∅ |} in
  let! df := lift (_load_difat_and_fat self1 h) in
  let self2 := {| fp := contents; sector_size := sector_size self1;
                  mini_sector_size := mini_sector_size self1;
                  mini_stream_cutoff := mini_stream_cutoff self1;
                  fat := snd df; minifat := []; mini_stream_data := []; dir_lookup := ∅ |} in
  let! entries := lift (_load_directory self2 h) in
  let! mf := lift (_load_minifat self2 h) in
  let self3 := {| fp := contents; sector_size := sector_size self2;
                  mini_sector_size := mini_sector_size self2;
                  mini_stream_cutoff := mini_stream_cutoff self2;
                  fat := fat self2; minifat := mf; mini_stream_data := []; dir_lookup := ∅ |} in
  let! ms := lift (_load_ministream self3 entries) in
  let! lookup := _build_paths depth entries in
  XOk {| fp := contents; sector_size := sector_size self3;
         mini_sector_size := mini_sector_size self3;
         mini_stream_cutoff := mini_stream_cutoff self3;
         fat := fat self3; minifat := minifat self3; mini_stream_data := ms;
         dir_lookup := lookup |}.

End OleLoad.

Module OleShapes.
Import Ole.

(** A key of [dir_lookup] and the entry it maps to, as [_build_paths]
    registers them: a stream, under a nonempty path that is its name or
    ends with ["/" + name]. *)
Definition lookup_path_ok (k : pystr) (e : dir_entry) : Prop :=
  type e = STGTY_STREAM /\ k <> []
  /\ (k = name e \/ exists p, p <> [] /\ k = p ++ [47] ++ name e).

End OleShapes.

(* ================================================================== *)
(** ** Rendering a table: [Table.to_text] *)

Module Render.
Import Parser Exn.

(** Python's [l[i]] index: a negative [i] counts from the end; out of
    range raises [IndexError]. *)
Definition py_index (n i : Z) : option nat :=
  let j := if i <? 0 then i + n else i in
  if (0 <=? j) && (j <? n) then Some (Z.to_nat j) else None.

Definition getitem {A} (l : list A) (i : Z) : xresult A :=
  match py_index (zlen l) i with
  | Some j => match l !! j with Some x => XOk x | None => XErr IndexError end
  | None => XErr IndexError
  end.

(** [l[i] = v] *)
Definition setitem {A} (l : list A) (i : Z) (v : A) : xresult (list A) :=
  match py_index (zlen l) i with
  | Some j => XOk (<[j := v]> l)
  | None => XErr IndexError
  end.

(** [range(a, b)] *)
Definition range (a b : Z) : list Z := map (fun k => a + Z.of_nat k) (seq 0 (Z.to_nat (b - a))).

(** The grid of [to_text]: [None] is a slot not yet written. *)
Definition grid := list (list (option pystr)).

(** [grid[r][c]] and [grid[r][c] = v]; the rows are distinct lists, so
    writing one row leaves the others unchanged. *)
Definition get2 (g : grid) (r c : Z) : xresult (option pystr) :=
  let! row := getitem g r in getitem row c.

Definition set2 (g : grid) (r c : Z) (v : option pystr) : xresult grid :=
  let! row := getitem g r in
  let! row' := setitem row c v in
  setitem g r row'.

(** One round of [for cell in self.cells] filling the grid. *)
Definition place_cell (rows cols : Z) (g : grid) (cell : TableCell) : xresult grid :=
  if (row cell >=? rows) || (col cell >=? cols) then XOk g
  else
    xfold (fun g r =>
      xfold (fun g c =>
        if (r =? row cell) && (c =? col cell) then set2 g r c (Some (text cell))
        else
          let! v := get2 g r c in
          match v with None => set2 g r c (Some []) | Some _ => XOk g end)
        g (range (col cell) (Z.min (col cell + col_span cell) cols)))
      g (range (row cell) (Z.min (row cell + row_span cell) rows)).

(** [if grid[r][c] is None: grid[r][c] = ""] over the whole grid. *)
Definition fill_none (g : grid) : list (list pystr) :=
  map (map (fun o => match o with Some s => s | None => [] end)) g.

(** One round of [for cell in self.cells] computing [col_widths];
    [text_len // cell.col_span] raises [ZeroDivisionError] on a zero span. *)
Definition widths_cell (cols : Z) (ws : list Z) (cell : TableCell) : xresult (list Z) :=
  if col cell >=? cols then XOk ws
  else
    let text_len := zlen (text cell) in
    if col_span cell =? 1 then
      let! w := getitem ws (col cell) in setitem ws (col cell) (Z.max w text_len)
    else if col_span cell =? 0 then XErr ZeroDivisionError
    else
      let avg_width := text_len / col_span cell in
      xfold (fun ws c => let! w := getitem ws c in setitem ws c (Z.max w avg_width))
        ws (range (col cell) (Z.min (col cell + col_span cell) cols)).

(** [l + m.join("─" * (w + 2) for w in col_widths) + r] *)
Definition hline (l m r : Z) (ws : list Z) : pystr :=
  [l] ++ join [m] (map (fun w => repeat 9472 (Z.to_nat (w + 2))) ws) ++ [r].

(** [s.ljust(w)] *)
Definition ljust (s : pystr) (w : Z) : pystr := s ++ repeat 32 (Z.to_nat (w - zlen s)).

(** ["│ " + " │ ".join(row_texts) + " │"] *)
Definition row_line (texts : list pystr) (ws : list Z) : pystr :=
  [9474; 32] ++ join [32; 9474; 32] (zip_with ljust texts ws) ++ [32; 9474].

(** The [lines] list of [to_text]. *)
Definition table_lines (rows : Z) (g : list (list pystr)) (ws : list Z) : list pystr :=
  [hline 9484 9516 9488 ws]
  ++ concat (map (fun r => [row_line (nth (Z.to_nat r) g []) ws]
                           ++ (if r <? rows - 1 then [hline 9500 9532 9508 ws] else []))
                 (range 0 rows))
  ++ [hline 9492 9524 9496 ws].

(** [Table.to_text] *)
Definition to_text (t : Table) : xresult pystr :=
  match cells t with
  | [] => XOk []
  | _ =>
      let rows := row_count t in
      let cols := col_count t in
      let grid0 : grid := repeat (repeat None (Z.to_nat cols)) (Z.to_nat rows) in
      let! g := xfold (place_cell rows cols) grid0 (cells t) in
      let g := fill_none g in
      let! ws := xfold (widths_cell cols) (repeat 3 (Z.to_nat cols)) (cells t) in
      XOk (join [10] (table_lines rows g ws))
  end.

End Render.


Module RenderShapes.
Import Parser Render.

(** The grid while [to_text] fills it: [rows] rows of [cols] slots, each
    written slot holding [""] or the text of a cell of [cs] whose column is
    that slot's. *)
Definition grid_ok (rows cols : Z) (cs : list TableCell) (g : grid) : Prop :=
  length g = Z.to_nat rows
  /\ forall i rw, g !! i = Some rw ->
     length rw = Z.to_nat cols
     /\ forall j s, rw !! j = Some (Some s) ->
        s = [] \/ exists cell, In cell cs /\ col cell = Z.of_nat j /\ text cell = s.

(** [col_widths] while [to_text] computes it: [cols] widths of at least 3. *)
Definition widths_ok (cols : Z) (ws : list Z) : Prop :=
  length ws = Z.to_nat cols /\ forall j w, ws !! j = Some w -> 3 <= w.

(** Every width of [ws] is still there in [ws'], at least as large. *)
Definition mono (ws ws' : list Z) : Prop :=
  forall j w, ws !! j = Some w -> exists w', ws' !! j = Some w' /\ w <= w'.

End RenderShapes.

(* ================================================================== *)
(** ** The converter: [scripts/hwp5/converter.py] *)

Module Convert.
Import Ole Parser Clean Exn OleLoad Render.

(** The decimal digits of [str(n)] for a natural [n]. *)
Fixpoint uint_digits (u : Decimal.uint) : pystr :=
  match u with
  | Decimal.Nil => []
  | Decimal.D0 u => 48 :: uint_digits u
  | Decimal.D1 u => 49 :: uint_digits u
  | Decimal.D2 u => 50 :: uint_digits u
  | Decimal.D3 u => 51 :: uint_digits u
  | Decimal.D4 u => 52 :: uint_digits u
  | Decimal.D5 u => 53 :: uint_digits u
  | Decimal.D6 u => 54 :: uint_digits u
  | Decimal.D7 u => 55 :: uint_digits u
  | Decimal.D8 u => 56 :: uint_digits u
  | Decimal.D9 u => 57 :: uint_digits u
  end.

Definition py_str_nat (n : nat) : pystr := uint_digits (Nat.to_uint n).

(** [f"BodyText/Section{idx}"] *)
Definition section_name (idx : nat) : pystr := str "BodyText/Section" ++ py_str_nat idx.

(** [f"\n\n[표 {i}]"] *)
Definition table_header (i : nat) : pystr := [10; 10; 91; 54364; 32] ++ py_str_nat i ++ [93].

(** [for i, t in enumerate(all_tables, 1): result.append(header);
    result.append(t.to_text())], the first exception of [to_text] ending
    the loop. *)
Fixpoint table_blocks (i : nat) (ts : list Table) : xresult (list pystr) :=
  match ts with
  | [] => XOk []
  | t :: ts' =>
      let! s := to_text t in
      let! rest := table_blocks (S i) ts' in
      XOk ([table_header i; s] ++ rest)
  end.

(** [text.startswith(p)] *)
Definition startswith (s p : pystr) : bool := bool_decide (firstn (length p) s = p).

Section Converter.
(** [zlib.decompress], as in [extract_content_from_section]. *)
Variable zlib_decompress : Z -> bytes -> option bytes.
(** [str(e)] of a caught exception. *)
Variable exc_str : exc -> pystr.
(** The recursion limit of [_build_paths]. *)
Variable depth : nat.

(** [while True: name = f"BodyText/Section{idx}"; if name not in
    ole.list_streams(): break; ...; idx += 1].  The names tried are
    distinct and the loop stops at the first one not listed, so it makes at
    most [length (list_streams ole)] rounds: the fuel
    [S (length (list_streams ole))] is never exhausted. *)
Fixpoint sections_loop (fuel : nat) (ole : Ole.ole) (idx : nat)
    (all_paragraphs : list pystr) (all_tables : list Table)
    : io (list pystr * list Table) :=
  match fuel with
  | O => io_ret (all_paragraphs, all_tables)
  | S fuel' =>
      let name := section_name idx in
      if negb (bool_decide (name ∈ list_streams ole)) then io_ret (all_paragraphs, all_tables)
      else io_bind (extract_content_from_section zlib_decompress ole name) (fun pt =>
             sections_loop fuel' ole (S idx) (all_paragraphs ++ fst pt) (all_tables ++ snd pt))
  end.

(** The body of the [with OleReader(hwp_path) as ole:] block up to the
    rendering of the tables: the metadata, then the sections; the log
    lists the streams read.  The [print] calls write to stdout only. *)
Definition read_document (ole : Ole.ole) : io (list pystr * list Table) :=
  io_bind (read_hwp_metadata ole) (fun _ =>
    sections_loop (S (length (list_streams ole))) ole 0 [] []).

(** [result = all_paragraphs + table blocks; "\n\n".join(result)] *)
Definition render_document (all_paragraphs : list pystr) (all_tables : list Table)
    : xresult pystr :=
  let! blocks := table_blocks 1 all_tables in
  XOk (join [10; 10] (all_paragraphs ++ blocks)).

(** [extract_full_text_from_hwp]; [fs] maps a path to the bytes of the file
    there, [None] where [os.path.exists] is false.  Every exception of the
    [try] block ends in [f"[Error] Failed: {e}"]. *)
Definition extract_full_text_from_hwp (fs : pystr -> option bytes) (hwp_path : pystr) : pystr :=
  match fs hwp_path with
  | None => str "[Error] File not found: " ++ hwp_path
  | Some contents =>
      let r :=
        let! ole := ole_open depth contents in
        let! pt := lift (fst (read_document ole [])) in
        render_document (fst pt) (snd pt) in
      match r with
      | XOk s => s
      | XErr e => str "[Error] Failed: " ++ exc_str e
      end
  end.

(** [convert_hwp]; [save output_path text] is [True] when opening and
    writing the output file succeed.  The result is the returned boolean
    and the write attempted, if any. *)
Variable save : pystr -> pystr -> bool.

Definition convert_hwp (fs : pystr -> option bytes) (input_path output_path : pystr)
    : bool * option (pystr * pystr) :=
  match fs input_path with
  | None => (false, None)
  | Some _ =>
      let text := extract_full_text_from_hwp fs input_path in
      if startswith text (str "[Error]") || bool_decide (strip text = []) then (false, None)
      else (save output_path (strip text), Some (output_path, strip text))
  end.

End Converter.
End Convert.

Module ConvertShapes.
Import Parser.

(** The paragraphs and tables of section [i], whose stream holds [data i]. *)
Definition sec_records (zd : Z -> bytes -> option bytes) (data : nat -> bytes) (i : nat) : list pystr * list Table :=
  extract_records (section_input zd (data i)).

End ConvertShapes.

(* ================================================================== *)
(** ** Compound files built from their parts *)

Module Files.
Import Ole Parser Formats OleLoad.

(** A 128-byte directory record: the name as UTF-16LE with its
    terminating zero, the type, the three links (-1 written as
    0xFFFFFFFF), the start sector and the 32-bit size. *)
Definition dir_record (nm : pystr) (ty : Z) (l r c start size : Z) : bytes :=
  let raw := encode_utf16le nm in
  raw ++ repeat x00 (64 - length raw) ++ pack_u16 (2 * zlen nm + 2)
  ++ [byte_of ty; x01] ++ pack_u32 (l mod 4294967296) ++ pack_u32 (r mod 4294967296)
  ++ pack_u32 (c mod 4294967296) ++ repeat x00 36 ++ pack_u32 start ++ pack_u32 size
  ++ pack_u32 0.

(** The 512-byte header of a file with 512-byte sectors, one FAT sector
    (sector 0), the directory at sector 1, no MiniFAT, no DIFAT sectors
    and a mini stream cutoff of [cutoff]. *)
Definition cfb_header (cutoff : Z) : bytes :=
  map byte_of OLE_SIGNATURE ++ repeat x00 22 ++ pack_u16 9 ++ pack_u16 6 ++ repeat x00 10
  ++ pack_u32 1 ++ pack_u32 1 ++ pack_u32 0 ++ pack_u32 cutoff ++ pack_u32 END_OF_CHAIN
  ++ pack_u32 0 ++ pack_u32 END_OF_CHAIN ++ pack_u32 0
  ++ pack_u32 0 ++ concat (repeat (pack_u32 FREE_SECTOR) 108).

(** A document: the root storage, a storage [BodyText] holding the stream
    [Section0] (sector 2, [length section] bytes), and a 40-byte stream
    [FileHeader] (sector 3) to the right of [BodyText]. *)
Definition cfb_doc (section fileheader : bytes) : bytes :=
  cfb_header 0
  ++ concat (map pack_u32 ([FAT_SECTOR; END_OF_CHAIN; END_OF_CHAIN; END_OF_CHAIN]
                           ++ repeat FREE_SECTOR 124))
  ++ dir_record (str "Root Entry") STGTY_ROOT (-1) (-1) 1 END_OF_CHAIN 0
  ++ dir_record (str "BodyText") STGTY_STORAGE (-1) 3 2 0 0
  ++ dir_record (str "Section0") STGTY_STREAM (-1) (-1) (-1) 2 (zlen section)
  ++ dir_record (str "FileHeader") STGTY_STREAM (-1) (-1) (-1) 3 40
  ++ section ++ repeat x00 (512 - length section)
  ++ fileheader ++ repeat x00 (512 - length fileheader).

(** A FileHeader for version 5.0.2.5, uncompressed. *)
Definition fileheader_5025 : bytes :=
  repeat x00 32 ++ [x05; x02; x00; x05] ++ repeat x00 4.

(** A section with one PARA_TEXT record holding UTF-16LE [AB]. *)
Definition section_AB : bytes :=
  pack_u32 (67 + 4 * 1048576) ++ encode_utf16le [65; 66].

End Files.

Module Documents.
Import Ole Parser Formats Inputs Exn OleLoad Files Render Convert.

(** A file system holding one file, [a.hwp]. *)
Definition fs_one (contents : bytes) (p : pystr) : option bytes :=
  if bool_decide (p = str "a.hwp") then Some contents else None.

(** The reader [OleReader] builds on [contents], with a recursion limit of 64. *)
Definition opened (contents : bytes) : ole :=
  match ole_open 64 contents with XOk st => st | XErr _ => init_ole [] end.

(** A document whose section holds the paragraph "AB" and a 1x1 table. *)
Definition doc_table : bytes :=
  cfb_doc (section_AB ++ table_section 0 0 1 1 cell_para) fileheader_5025.

(** A document whose section holds a table with a cell of column span 0. *)
Definition doc_zero_span : bytes := cfb_doc (table_section 0 0 0 1 cell_para) fileheader_5025.

(** A section with one PARA_TEXT record holding "[Error]". *)
Definition section_error : bytes := pack_u32 (67 + 14 * 1048576) ++ encode_utf16le (str "[Error]").

Definition doc_error : bytes := cfb_doc section_error fileheader_5025.

(** The bytes [read_stream] returns for section [i] of the document [d]. *)
Definition sec_data (d : bytes) (i : nat) : bytes :=
  match read_stream (opened d) (section_name i) with Ok b => b | Err _ => [] end.

Definition no_header : header :=
  {| hdr_sector_size := 0; hdr_mini_sector_size := 0; hdr_num_fat_sectors := 0;
     hdr_dir_first_sector := 0; hdr_mini_stream_cutoff := 0; hdr_mini_fat_first_sector := 0;
     hdr_num_mini_fat_sectors := 0; hdr_difat_first_sector := 0; hdr_num_difat_sectors := 0;
     hdr_difat := [] |}.

Definition header_of (d : bytes) : header :=
  match _read_header (init_ole d) with Ok h => h | Err _ => no_header end.

Definition difat_fat_of (d : bytes) : list Z * list Z :=
  match _load_difat_and_fat (init_ole d) (header_of d) with Ok df => df | Err _ => ([], []) end.

Definition entries_of (d : bytes) : list dir_entry :=
  match _load_directory (init_ole d) (header_of d) with Ok es => es | Err _ => [] end.

Definition ministream_of (d : bytes) : bytes :=
  match _load_ministream (init_ole d) (entries_of d) with Ok ms => ms | Err _ => [] end.

(** A directory whose root's child [Loop] names itself as its left sibling. *)
Definition loop_root : dir_entry :=
  {| index := 0; name := str "Root Entry"; type := STGTY_ROOT; left := -1; right := -1;
     child := 1; start_sector := END_OF_CHAIN; stream_size := 0 |}.
Definition loop_child : dir_entry :=
  {| index := 1; name := str "Loop"; type := STGTY_STREAM; left := 1; right := -1;
     child := -1; start_sector := 0; stream_size := 10 |}.

Definition cell (c r cs rs : Z) (s : pystr) : TableCell :=
  {| col := c; row := r; col_span := cs; row_span := rs; text := s |}.

(** A 2x2 table with a cell spanning the first row. *)
Definition table_2x2 : Table :=
  {| row_count := 2; col_count := 2;
     cells := [cell 0 0 2 1 (str "head"); cell 0 1 1 1 (str "a"); cell 1 1 1 1 (str "bcd")] |}.
Definition table_zero_span : Table :=
  {| row_count := 1; col_count := 2; cells := [cell 0 0 1 1 (str "x"); cell 1 0 0 1 (str "y")] |}.

End Documents.

(* ================================================================== *)
(** * Proofs *)

(** Case analysis on the boolean comparisons of [Z]. *)
Ltac zbool :=
  repeat match goal with
  | |- context [(?a =? ?b)%Z] => destruct (Z.eqb_spec a b); simpl
  | |- context [(?a <=? ?b)%Z] => destruct (Z.leb_spec a b); simpl
  | |- context [(?a <? ?b)%Z] => destruct (Z.ltb_spec a b); simpl
  | H : context [(?a =? ?b)%Z] |- _ => destruct (Z.eqb_spec a b); simpl in H
  | H : context [(?a <=? ?b)%Z] |- _ => destruct (Z.leb_spec a b); simpl in H
  | H : context [(?a <? ?b)%Z] |- _ => destruct (Z.ltb_spec a b); simpl in H
  end; try discriminate; try lia; auto.

Module CleanFacts.
Import Clean.

(** ** Characters *)

Lemma sp_tab_space c : is_sp_tab c = true -> is_space c = true.
Proof. unfold is_sp_tab, is_space. intros H. zbool. Qed.

Lemma keep_space c : keep c = true -> is_space c = true.
Proof. unfold keep, is_space. intros H. zbool. Qed.

Lemma sp_tab_not_nl c : is_sp_tab c = true -> is_nl c = false.
Proof. unfold is_sp_tab, is_nl. intros H. zbool. Qed.

Lemma body_sp_tab c : good_char_body c = true -> is_sp_tab c = true -> c = 32.
Proof. unfold good_char_body, is_sp_tab. intros H1 H2. zbool. Qed.

Lemma table_sp_tab c : good_char_table c = true -> is_sp_tab c = true -> c = 32.
Proof. unfold good_char_table, is_sp_tab. intros H1 H2. zbool. Qed.

Lemma table_space c : good_char_table c = true -> is_space c = true -> c = 32.
Proof. unfold good_char_table. intros H1 H2. rewrite H2 in H1. zbool. Qed.

Lemma remap_chars m c d :
  In d (remap_char m c) -> ((32 <=? d) || keep d) = true.
Proof.
  unfold remap_char, control_placeholder, keep.
  intros H. zbool; destruct m; simpl in H;
  repeat (destruct H as [<- | H]); simpl in *; try contradiction; zbool.
Qed.

(** ** Runs: [sub_run] and [okrun] *)

Lemma repeat_snoc (x : Z) n (l : pystr) :
  repeat x n ++ x :: l = x :: repeat x n ++ l.
Proof. induction n as [|n IH]; simpl; [reflexivity | now rewrite IH]. Qed.

Lemma okrun_mono (p q : Z -> bool) mx :
  (forall c, q c = true -> p c = true) ->
  forall s k k', (k' <= k)%nat -> okrun p mx k s = true -> okrun q mx k' s = true.
Proof.
  intros Hqp s. induction s as [|c s IH]; intros k k' Hk H; simpl in *; auto.
  destruct (q c) eqn:Hq.
  - rewrite (Hqp c Hq) in H. apply andb_true_iff in H as [H1 H2].
    apply andb_true_iff; split.
    + apply Nat.ltb_lt. apply Nat.ltb_lt in H1. lia.
    + apply (IH (S k)); [lia | exact H2].
  - destruct (p c).
    + apply andb_true_iff in H as [_ H2]. apply (IH (S k)); [lia | exact H2].
    + apply (IH O); [lia | exact H].
Qed.

Lemma okrun_tail q mx c s : okrun q mx 0 (c :: s) = true -> okrun q mx 0 s = true.
Proof.
  simpl. destruct (q c).
  - intros H. apply andb_true_iff in H as [_ H].
    apply (okrun_mono q q mx (fun _ h => h) s 1); [lia | exact H].
  - auto.
Qed.

Lemma okrun_app_l q mx a b k : okrun q mx k (a ++ b) = true -> okrun q mx k a = true.
Proof.
  revert k. induction a as [|c a IH]; intros k H; simpl in *; auto.
  destruct (q c).
  - apply andb_true_iff in H as [H1 H2]. rewrite H1. simpl. eauto.
  - eauto.
Qed.

Lemma okrun_app_sep q mx a c b k :
  q c = false -> okrun q mx k (a ++ c :: b) = okrun q mx k a && okrun q mx 0 b.
Proof.
  intros Hc. revert k. induction a as [|d a IH]; intros k; simpl.
  - now rewrite Hc.
  - destruct (q d); [rewrite IH; apply andb_assoc | apply IH].
Qed.

Lemma okrun_all q mx a k :
  (forall c, In c a -> q c = true) -> (k + length a <= mx)%nat -> okrun q mx k a = true.
Proof.
  revert k. induction a as [|c a IH]; intros k Hall Hlen; simpl in *; auto.
  rewrite (Hall c (or_introl eq_refl)). apply andb_true_iff; split.
  - apply Nat.ltb_lt. lia.
  - apply IH; [intros; apply Hall; auto | lia].
Qed.

Lemma okrun_none q mx a k : (forall c, In c a -> q c = false) -> okrun q mx k a = true.
Proof.
  revert k. induction a as [|c a IH]; intros k Hall; simpl; [reflexivity|].
  rewrite (Hall c (or_introl eq_refl)). apply IH. intros; apply Hall; simpl; auto.
Qed.

Lemma okrun_none_prefix q mx a b k :
  (forall c, In c a -> q c = false) -> a <> [] -> okrun q mx k (a ++ b) = okrun q mx 0 b.
Proof.
  revert k. induction a as [|c a IH]; intros k Hall Hne; [congruence|].
  simpl. rewrite (Hall c (or_introl eq_refl)).
  destruct a as [|d a]; [reflexivity|].
  apply IH; [intros; apply Hall; simpl; auto | discriminate].
Qed.

Section SubRun.
Variables (p : Z -> bool) (f : nat -> pystr).

Lemma sub_run_chars s n c :
  In c (sub_run p f n s) -> (In c s /\ p c = false) \/ exists m, In c (f m).
Proof.
  revert n. induction s as [|d s IH]; intros n H; simpl in H.
  - destruct n; [contradiction | eauto].
  - destruct (p d) eqn:Hd.
    + destruct (IH _ H) as [[H1 H2]|H1]; [left; split; [right|] | right]; auto.
    + apply in_app_or in H as [H|[<-|H]].
      * destruct n; [contradiction | eauto].
      * left; split; [left|]; auto.
      * destruct (IH _ H) as [[H1 H2]|H1]; [left; split; [right|] | right]; auto.
Qed.

Lemma sub_run_id mx ch :
  (forall m, (1 <= m <= mx)%nat -> f m = repeat ch m) ->
  forall s n, (forall c, In c s -> p c = true -> c = ch) -> (n <= mx)%nat ->
  okrun p mx n s = true -> sub_run p f n s = repeat ch n ++ s.
Proof.
  intros Hf s. induction s as [|c s IH]; intros n Hch Hn Hok; simpl in *.
  - rewrite app_nil_r. destruct n; [reflexivity | apply Hf; lia].
  - destruct (p c) eqn:Hc.
    + apply andb_true_iff in Hok as [H1 H2]. apply Nat.ltb_lt in H1.
      rewrite (IH (S n)); [| intros; apply Hch; auto | lia | exact H2].
      rewrite (Hch c (or_introl eq_refl) Hc). simpl. now rewrite repeat_snoc.
    + rewrite (IH O); [| intros; apply Hch; auto | lia | exact Hok]. simpl.
      destruct n; [reflexivity | unfold flush; rewrite Hf; [reflexivity | lia]].
Qed.

Lemma sub_run_okrun mx :
  (forall m, (1 <= m)%nat -> (forall c, In c (f m) -> p c = true) /\ (length (f m) <= mx)%nat) ->
  forall s n, okrun p mx 0 (sub_run p f n s) = true.
Proof.
  intros Hf s. induction s as [|c s IH]; intros n; simpl.
  - destruct n; [reflexivity|]. destruct (Hf (S n)); [lia|].
    apply okrun_all; simpl; auto.
  - destruct (p c) eqn:Hc; [apply IH|].
    rewrite okrun_app_sep by exact Hc. rewrite IH, andb_true_r.
    destruct n; [reflexivity|]. destruct (Hf (S n)); [lia|].
    apply okrun_all; simpl; auto.
Qed.

Lemma sub_run_head s n :
  (forall m, (1 <= m)%nat -> f m <> [] /\ forall c, In c (f m) -> p c = true) ->
  (0 < n)%nat -> exists c r, sub_run p f n s = c :: r /\ p c = true.
Proof.
  intros Hf. revert n. induction s as [|d s IH]; intros n Hn; simpl.
  - destruct n; [lia|]. destruct (Hf (S n)) as [Hne Hall]; [lia|]. unfold flush.
    destruct (f (S n)) as [|c r] eqn:E; [congruence|].
    exists c, r. split; [reflexivity | apply Hall; left; reflexivity].
  - destruct (p d); [apply IH; lia|].
    destruct n; [lia|]. destruct (Hf (S n)) as [Hne Hall]; [lia|]. unfold flush.
    destruct (f (S n)) as [|c r] eqn:E; [congruence|].
    eexists c, _. split; [reflexivity | apply Hall; left; reflexivity].
Qed.

Lemma sub_run_okrun_other (q : Z -> bool) mx :
  (forall c, p c = true -> q c = false) ->
  (forall m, (1 <= m)%nat -> f m <> [] /\ forall c, In c (f m) -> p c = true) ->
  forall s n k, ((0 < n)%nat -> k = O) -> okrun q mx k s = true ->
  okrun q mx k (sub_run p f n s) = true.
Proof.
  intros Hpq Hf s. induction s as [|c s IH]; intros n k Hnk Hok; simpl.
  - destruct n; [reflexivity|]. destruct (Hf (S n)) as [_ Hall]; [lia|].
    apply okrun_none. intros d Hd. apply Hpq, Hall, Hd.
  - simpl in Hok. destruct (p c) eqn:Hc.
    + rewrite (Hpq c Hc) in Hok.
      destruct (sub_run_head s (S n) Hf) as (d & r & E & Hd); [lia|].
      pose proof (IH (S n) O (fun _ => eq_refl) Hok) as H.
      rewrite E in H |- *. simpl in H |- *. now rewrite (Hpq d Hd) in H |- *.
    + assert (Hc2 : okrun q mx k (c :: sub_run p f 0 s) = true).
      { simpl. destruct (q c).
        - apply andb_true_iff in Hok as [H1 H2]. rewrite H1. simpl.
          apply IH; [lia | exact H2].
        - apply IH; [lia | exact Hok]. }
      destruct n; [exact Hc2|].
      destruct (Hf (S n)) as [Hne Hall]; [lia|].
      rewrite Hnk by lia. rewrite Hnk in Hc2 by lia. simpl flush.
      rewrite okrun_none_prefix;
        [exact Hc2 | intros d Hd; apply Hpq, Hall, Hd | exact Hne].
Qed.

End SubRun.

(** ** [strip] *)

Lemma drop_while_suffix (q : Z -> bool) s : exists t, s = t ++ drop_while q s.
Proof.
  induction s as [|c s [t Ht]]; simpl; [exists []; reflexivity|].
  destruct (q c); [exists (c :: t); simpl; congruence | exists []; reflexivity].
Qed.

Lemma drop_while_idem (q : Z -> bool) s : drop_while q (drop_while q s) = drop_while q s.
Proof.
  induction s as [|c s IH]; simpl; auto.
  destruct (q c) eqn:Hc; simpl; [exact IH | now rewrite Hc].
Qed.

Lemma drop_while_snoc (q : Z -> bool) l c :
  q c = false -> drop_while q (l ++ [c]) = drop_while q l ++ [c].
Proof.
  intros Hc. induction l as [|d l IH]; simpl; [now rewrite Hc|].
  destruct (q d); [exact IH | reflexivity].
Qed.

Lemma lstrip_head s :
  lstrip s = [] \/ exists c r, lstrip s = c :: r /\ is_space c = false.
Proof.
  unfold lstrip. induction s as [|c s IH]; simpl; auto.
  destruct (is_space c) eqn:Hc; [exact IH | right; eauto].
Qed.

Lemma strip_idem s : strip (strip s) = strip s.
Proof.
  unfold strip.
  assert (Hl : lstrip (rstrip (lstrip s)) = rstrip (lstrip s)).
  { destruct (lstrip_head s) as [E | (c & r & E & Hc)]; rewrite E; [reflexivity|].
    unfold rstrip, lstrip at 2 3. simpl. rewrite drop_while_snoc by exact Hc.
    rewrite rev_app_distr. simpl. unfold lstrip at 1. simpl. now rewrite Hc. }
  rewrite Hl. unfold rstrip at 1 2 3. unfold lstrip at 1 2.
  now rewrite rev_involutive, drop_while_idem.
Qed.

Lemma rstrip_prefix s : exists t, s = rstrip s ++ t.
Proof.
  unfold rstrip, lstrip. destruct (drop_while_suffix is_space (rev s)) as [t Ht].
  exists (rev t). rewrite <- rev_app_distr, <- Ht. symmetry. apply rev_involutive.
Qed.

Lemma strip_in s c : In c (strip s) -> In c s.
Proof.
  unfold strip. intros H.
  destruct (rstrip_prefix (lstrip s)) as [t Ht].
  destruct (drop_while_suffix is_space s) as [u Hu].
  rewrite Hu. apply in_or_app. right. fold (lstrip s).
  rewrite Ht. apply in_or_app. left. exact H.
Qed.

Lemma okrun_drop_while q mx (r : Z -> bool) s :
  okrun q mx 0 s = true -> okrun q mx 0 (drop_while r s) = true.
Proof.
  induction s as [|c s IH]; simpl; auto. intros H.
  destruct (r c); [apply IH, (okrun_tail q mx c), H | exact H].
Qed.

Lemma okrun_strip q mx s : okrun q mx 0 s = true -> okrun q mx 0 (strip s) = true.
Proof.
  intros H. unfold strip.
  destruct (rstrip_prefix (lstrip s)) as [t Ht].
  apply (okrun_app_l q mx _ t). rewrite <- Ht.
  apply okrun_drop_while, H.
Qed.

Lemma body_good_strip s : body_good s -> body_good (strip s).
Proof.
  intros (H1 & H2 & H3). split; [|split]; auto using okrun_strip.
  intros c Hc. apply H1, strip_in, Hc.
Qed.

Lemma table_good_strip s : table_good s -> table_good (strip s).
Proof.
  intros (H1 & H2). split; auto using okrun_strip.
  intros c Hc. apply H1, strip_in, Hc.
Qed.

(** ** The steps of [clean_hwp_text] *)

Lemma remove_char_in ch s c : In c (remove_char ch s) -> In c s /\ c <> ch.
Proof.
  unfold remove_char. intros H. apply filter_In in H as [H1 H2].
  split; [exact H1|]. apply negb_true_iff, Z.eqb_neq in H2. exact H2.
Qed.

Lemma remove_char_id ch s : (forall c, In c s -> c <> ch) -> remove_char ch s = s.
Proof.
  unfold remove_char. induction s as [|c s IH]; intros H; simpl; auto.
  destruct (Z.eqb_spec c ch) as [E|E]; [exfalso; apply (H c); simpl; auto|].
  simpl. f_equal. apply IH. intros; apply H; simpl; auto.
Qed.

Lemma remove_zw_id s :
  (forall c, In c s -> is_zw c = false) ->
  remove_char 8205 (remove_char 8204 (remove_char 8203 (remove_char 65279 s))) = s.
Proof.
  intros H.
  assert (H' : forall ch, is_zw ch = true -> forall c, In c s -> c <> ch).
  { intros ch Hch c Hc E. subst. rewrite H in Hch by exact Hc. discriminate. }
  rewrite (remove_char_id 65279) by (apply H'; reflexivity).
  rewrite (remove_char_id 8203) by (apply H'; reflexivity).
  rewrite (remove_char_id 8204) by (apply H'; reflexivity).
  apply remove_char_id, H'; reflexivity.
Qed.

Lemma remove_zw_chars s c :
  In c (remove_char 8205 (remove_char 8204 (remove_char 8203 (remove_char 65279 s)))) ->
  In c s /\ is_zw c = false.
Proof.
  intros H.
  apply remove_char_in in H as [H E1]. apply remove_char_in in H as [H E2].
  apply remove_char_in in H as [H E3]. apply remove_char_in in H as [H E4].
  split; [exact H|]. unfold is_zw. zbool.
Qed.

Lemma replace_char_id a b s : (forall c, In c s -> c <> a) -> replace_char a b s = s.
Proof.
  unfold replace_char. induction s as [|c s IH]; intros H; simpl; auto.
  destruct (Z.eqb_spec c a) as [E|E]; [exfalso; apply (H c); simpl; auto|].
  f_equal. apply IH. intros; apply H; simpl; auto.
Qed.

Lemma nl_runs_chars m c : In c (nl_runs m) -> is_nl c = true.
Proof.
  unfold nl_runs. destruct (3 <=? m)%nat; simpl.
  - intros [<-|[<-|[]]]; reflexivity.
  - intros H. apply repeat_spec in H. subst. reflexivity.
Qed.

Lemma nl_runs_shape m :
  (1 <= m)%nat -> nl_runs m <> [] /\ (length (nl_runs m) <= 2)%nat.
Proof.
  intros Hm. unfold nl_runs. destruct (Nat.leb_spec 3 m); simpl.
  - split; [discriminate | lia].
  - rewrite repeat_length. destruct m; [lia|]. split; [discriminate | lia].
Qed.

Lemma remap_id (m : bool) s :
  (forall c, In c s -> ((32 <=? c) || (negb m && ((c =? 10) || (c =? 13)))) = true) ->
  flat_map (remap_char m) s = s.
Proof.
  induction s as [|c s IH]; intros H; simpl; auto.
  rewrite IH by (intros; apply H; simpl; auto).
  specialize (H c (or_introl eq_refl)).
  unfold remap_char, keep. destruct m; simpl in H |- *; zbool.
Qed.

(** Cleaned body text satisfies [body_good]. *)
Lemma clean_body_good s : body_good (clean_hwp_text s false).
Proof.
  unfold clean_hwp_text. apply body_good_strip.
  set (t1 := flat_map (remap_char false) s).
  set (t2 := remove_char 8205 (remove_char 8204 (remove_char 8203 (remove_char 65279 t1)))).
  assert (H2 : forall c, In c t2 -> ((32 <=? c) || keep c) = true /\ is_zw c = false).
  { intros c Hc. apply remove_zw_chars in Hc as [Hc Hz]. split; [|exact Hz].
    apply in_flat_map in Hc as (d & _ & Hd). exact (remap_chars _ _ _ Hd). }
  assert (H3 : forall c, In c (sub_sp_tab t2) -> good_char_body c = true).
  { intros c Hc. apply sub_run_chars in Hc as [[Hc Hsp] | (m & [<-|[]])]; [|reflexivity].
    destruct (H2 c Hc) as [Hk Hz]. unfold good_char_body. rewrite Hz.
    unfold keep, is_sp_tab in *. zbool. }
  split; [|split].
  - intros c Hc. apply sub_run_chars in Hc as [[Hc _] | (m & Hm)]; [exact (H3 c Hc)|].
    apply nl_runs_chars in Hm. unfold is_nl in Hm. zbool. subst. reflexivity.
  - apply (sub_run_okrun_other is_nl nl_runs is_sp_tab 1).
    + intros c Hc. unfold is_nl, is_sp_tab in *. zbool.
    + intros m Hm. split; [apply nl_runs_shape, Hm | apply nl_runs_chars].
    + lia.
    + apply (sub_run_okrun is_sp_tab (fun _ => [32]) 1).
      intros m _. split; [intros c [<-|[]]; reflexivity | simpl; lia].
  - apply (sub_run_okrun is_nl nl_runs 2).
    intros m Hm. split; [apply nl_runs_chars | apply nl_runs_shape, Hm].
Qed.

(** Cleaned table text satisfies [table_good]. *)
Lemma clean_table_good s : table_good (clean_hwp_text s true).
Proof.
  unfold clean_hwp_text. apply table_good_strip.
  set (t1 := flat_map (remap_char true) s).
  set (t2 := remove_char 8205 (remove_char 8204 (remove_char 8203 (remove_char 65279 t1)))).
  assert (H2 : forall c, In c t2 -> ((32 <=? c) || keep c) = true /\ is_zw c = false).
  { intros c Hc. apply remove_zw_chars in Hc as [Hc Hz]. split; [|exact Hz].
    apply in_flat_map in Hc as (d & _ & Hd). exact (remap_chars _ _ _ Hd). }
  assert (H3 : forall c, In c (sub_sp_tab t2) -> ((32 <=? c) || keep c) = true /\ is_zw c = false).
  { intros c Hc. apply sub_run_chars in Hc as [[Hc _] | (m & [<-|[]])];
    [exact (H2 c Hc) | split; reflexivity]. }
  assert (H4 : forall c, In c (replace_char 13 32 (replace_char 10 32 (sub_sp_tab t2))) ->
                 ((32 <=? c) || keep c) = true /\ is_zw c = false).
  { unfold replace_char. intros c Hc. apply in_map_iff in Hc as (d & <- & Hd).
    apply in_map_iff in Hd as (e & <- & He).
    destruct (H3 e He) as [Hk Hz].
    destruct (Z.eqb_spec e 10); [split; reflexivity|].
    destruct (Z.eqb_spec e 13); [split; reflexivity|]. auto. }
  split.
  - intros c Hc. apply sub_run_chars in Hc as [[Hc Hsp] | (m & [<-|[]])]; [|reflexivity].
    destruct (H4 c Hc) as [Hk Hz]. unfold good_char_table. rewrite Hz, Hsp.
    destruct (keep c) eqn:Hkc; [rewrite keep_space in Hsp by exact Hkc; discriminate|].
    rewrite orb_false_r in Hk. rewrite Hk. reflexivity.
  - apply (sub_run_okrun is_space (fun _ => [32]) 1).
    intros m _. split; [intros c [<-|[]]; reflexivity | simpl; lia].
Qed.

Lemma clean_body_fix y : body_good y -> clean_hwp_text y false = strip y.
Proof.
  intros (H1 & H2 & H3). unfold clean_hwp_text.
  rewrite remap_id.
  2:{ intros c Hc. specialize (H1 c Hc). unfold good_char_body in H1.
      apply andb_true_iff in H1 as [H1 _]. simpl. now rewrite orb_assoc. }
  rewrite remove_zw_id.
  2:{ intros c Hc. specialize (H1 c Hc). unfold good_char_body in H1.
      apply andb_true_iff in H1 as [_ H1]. now apply negb_true_iff. }
  unfold sub_sp_tab, sub_nl3.
  rewrite (sub_run_id is_sp_tab (fun _ => [32]) 1 32); auto.
  - rewrite (sub_run_id is_nl nl_runs 2 10); auto.
    + intros m Hm. unfold nl_runs. destruct (Nat.leb_spec 3 m); [lia | reflexivity].
    + intros c _ Hc. unfold is_nl in Hc. zbool.
  - intros m Hm. replace m with 1%nat by lia. reflexivity.
  - intros c Hc Hsp. exact (body_sp_tab c (H1 c Hc) Hsp).
Qed.

Lemma clean_table_fix y : table_good y -> clean_hwp_text y true = strip y.
Proof.
  intros (H1 & H2). unfold clean_hwp_text.
  assert (H32 : forall c, In c y -> 32 <= c).
  { intros c Hc. specialize (H1 c Hc). unfold good_char_table in H1. zbool. }
  rewrite remap_id.
  2:{ intros c Hc. specialize (H32 c Hc). simpl. zbool. }
  rewrite remove_zw_id.
  2:{ intros c Hc. specialize (H1 c Hc). unfold good_char_table in H1.
      apply andb_true_iff in H1 as [_ H1]. now apply negb_true_iff. }
  unfold sub_sp_tab, sub_space.
  assert (Hf1 : forall m, (1 <= m <= 1)%nat -> [32] = repeat 32 m).
  { intros m Hm. replace m with 1%nat by lia. reflexivity. }
  rewrite (sub_run_id is_sp_tab (fun _ => [32]) 1 32); auto.
  - simpl. rewrite (replace_char_id 10 32 y)
      by (intros c Hc; specialize (H32 c Hc); lia).
    rewrite (replace_char_id 13 32 y)
      by (intros c Hc; specialize (H32 c Hc); lia).
    rewrite (sub_run_id is_space (fun _ => [32]) 1 32); auto.
    intros c Hc Hs. exact (table_space c (H1 c Hc) Hs).
  - intros c Hc Hsp. exact (table_sp_tab c (H1 c Hc) Hsp).
  - apply (okrun_mono is_space is_sp_tab 1 sp_tab_space y 0 0); auto.
Qed.

Lemma clean_strip s m : exists x, clean_hwp_text s m = strip x.
Proof. eexists. reflexivity. Qed.

End CleanFacts.

Module OleFacts.
Import Ole.

Lemma chain_loop_spec read_one fat h sid out tr sid' out' h' tr' :
  chain_loop read_one fat h sid out tr = Ok (sid', out', h', tr') ->
  exists new, tr' = new ++ tr /\ (length new <= h)%nat /\ (h' <= h)%nat
    /\ fat_chain fat sid (rev new)
    /\ (is_end_sid sid' = true \/ h' = O \/ zlen fat <= sid').
Proof.
  revert sid out tr. induction h as [|h IH]; intros sid out tr H; simpl in H.
  - injection H as <- <- <- <-. exists []. simpl. repeat split; auto; lia.
  - destruct (is_end_sid sid) eqn:Hend.
    + injection H as <- <- <- <-. exists []. simpl. repeat split; auto; lia.
    + destruct (read_one sid) as [sec|e]; simpl in H; [|discriminate].
      destruct (Z.leb_spec (zlen fat) sid).
      * injection H as <- <- <- <-. exists [sid]. simpl.
        repeat split; auto; lia.
      * destruct (IH _ _ _ H) as (new & -> & Hlen & Hh & Hch & Hexit).
        exists (new ++ [sid]). rewrite <- app_assoc. simpl.
        rewrite rev_app_distr, length_app. simpl.
        repeat split; auto; lia.
Qed.

Lemma chain_loop_err read_one fat h sid out tr e :
  chain_loop read_one fat h sid out tr = Err e -> exists s, read_one s = Err e.
Proof.
  revert sid out tr. induction h as [|h IH]; intros sid out tr H; simpl in H;
    [discriminate|].
  destruct (is_end_sid sid); [discriminate|].
  destruct (read_one sid) as [sec|e'] eqn:E; simpl in H; [|injection H as ->; eauto].
  destruct (zlen fat <=? sid); [discriminate | eauto].
Qed.

Lemma read_chain_not_notfound self start size use_mini :
  _read_chain self start size use_mini <> Err NotFound.
Proof.
  unfold _read_chain. intros H.
  destruct (is_end_sid start); [discriminate|].
  destruct (use_mini && _); [discriminate|].
  destruct (chain_loop _ _ _ _ _ _) as [[[[? ?] ?] ?]|e] eqn:E; simpl in H.
  - destruct size; discriminate.
  - injection H as ->. apply chain_loop_err in E as [s Hs].
    destruct use_mini; simpl in Hs.
    + discriminate.
    + unfold _read_sector, _read_exact_at in Hs.
      destruct (s <? 0); [discriminate|]. destruct (_ =? _); discriminate.
Qed.

Lemma read_chain_length self start n use_mini b :
  _read_chain self start (Some n) use_mini = Ok b -> (length b <= Z.to_nat n)%nat.
Proof.
  unfold _read_chain. intros H.
  destruct (is_end_sid start); [injection H as <-; simpl; lia|].
  destruct (use_mini && _); [injection H as <-; simpl; lia|].
  destruct (chain_loop _ _ _ _ _ _) as [[[[? data] ?] ?]|e]; simpl in H; [|discriminate].
  injection H as <-. rewrite length_firstn. lia.
Qed.

Lemma in_list_streams self p :
  In p (list_streams self) <-> is_Some (dir_lookup self !! p).
Proof.
  unfold list_streams. split.
  - intros H. apply (Permutation_in _ (merge_sort_Permutation _ _)) in H.
    apply in_map_iff in H as ([k v] & <- & Hin). simpl.
    exists v. apply elem_of_map_to_list. apply list_elem_of_In. exact Hin.
  - intros [v Hv]. apply (Permutation_in _ (Permutation_sym (merge_sort_Permutation _ _))).
    apply in_map_iff. exists (p, v). split; [reflexivity|].
    apply list_elem_of_In. apply elem_of_map_to_list. exact Hv.
Qed.

End OleFacts.

Module ParserFacts.
Import Clean Ole Parser.

Lemma bval_range b : 0 <= bval b <= 255.
Proof.
  unfold bval. pose proof (Byte.to_N_bounded b). lia.
Qed.

Lemma u16_at_range l pos : 0 <= u16_at l pos <= 65535.
Proof.
  unfold u16_at, byte_at.
  pose proof (bval_range (nth (Z.to_nat pos) l x00)).
  pose proof (bval_range (nth (Z.to_nat (pos + 1)) l x00)). lia.
Qed.

(** A cell of [parse_cell_list] is made of four u16 fields. *)
Definition cell_u16 (c : TableCell) : Prop :=
  0 <= col c <= 65535 /\ 0 <= row c <= 65535
  /\ 0 <= col_span c <= 65535 /\ 0 <= row_span c <= 65535.

Lemma cell_list_loop_inv (P : TableCell -> Prop) fuel data pos end_ level cells :
  (forall c, In c cells -> P c) ->
  (forall new_pos size, P {| col := u16_at data new_pos; row := u16_at data (new_pos + 2);
        col_span := u16_at data (new_pos + 4); row_span := u16_at data (new_pos + 6);
        text := join [32] (cell_text_loop (S (length data)) data (new_pos + size)
                             (new_pos + size) []) |}) ->
  forall c, In c (cell_list_loop fuel data pos end_ level cells) -> P c.
Proof.
  intros Hcells Hnew. revert pos cells Hcells.
  induction fuel as [|fuel IH]; intros pos cells Hcells c Hc;
    cbn [cell_list_loop] in Hc; auto.
  destruct (pos <? end_); auto.
  destruct (read_record_header data pos) as [[[[tag rl] size] new_pos]|]; auto.
  destruct (zlen data <? new_pos + size); auto.
  eapply IH; [|exact Hc].
  destruct (_ && _); auto. destruct (_ <=? _); auto.
  intros c' Hc'. apply in_app_or in Hc' as [Hc'|[<-|[]]]; auto.
Qed.

Lemma cell_text_loop_empty fuel data p :
  cell_text_loop (S fuel) data p p [] = [].
Proof. simpl. now rewrite Z.ltb_irrefl. Qed.

Lemma parse_cell_list_text data pos end_ level c :
  In c (parse_cell_list data pos end_ level) -> text c = [].
Proof.
  unfold parse_cell_list. intros Hc.
  apply (cell_list_loop_inv (fun c => text c = []) _ _ _ _ _ _ (fun _ (H : In _ []) => match H with end)) in Hc; auto.
  intros new_pos size. cbn [text]. now rewrite cell_text_loop_empty.
Qed.

Lemma parse_cell_list_u16 data pos end_ level c :
  In c (parse_cell_list data pos end_ level) -> cell_u16 c.
Proof.
  unfold parse_cell_list. intros Hc.
  apply (cell_list_loop_inv cell_u16 _ _ _ _ _ _ (fun _ (H : In _ []) => match H with end)) in Hc; auto.
  intros new_pos size. unfold cell_u16; simpl. repeat split; apply u16_at_range.
Qed.

(** Every table of the record loop has its cells from [parse_cell_list]. *)
Lemma records_loop_tables (P : TableCell -> Prop) fuel data pos paras tables nchars :
  (forall T c, In T tables -> In c (cells T) -> P c) ->
  (forall tpos e lv c, In c (parse_cell_list data tpos e lv) -> P c) ->
  forall T c, In T (snd (records_loop fuel data pos paras tables nchars)) ->
  In c (cells T) -> P c.
Proof.
  intros Htab Hpcl. revert pos paras tables nchars Htab.
  induction fuel as [|fuel IH]; intros pos paras tables nchars Htab T c HT Hc;
    simpl in HT; eauto.
  destruct (pos <? zlen data); simpl in HT; eauto.
  destruct (read_record_header data pos) as [[[[tag lv] size] new_pos]|]; simpl in HT; eauto.
  destruct (zlen data <? new_pos + size); simpl in HT; eauto.
  destruct (tag =? HWPTAG_BEGIN + 50).
  { destruct (new_pos + 4 <=? zlen data); eapply IH; eauto. }
  destruct (tag =? HWPTAG_PARA_TEXT); [eapply IH; eauto|].
  destruct (tag =? HWPTAG_TABLE); [|eapply IH; eauto].
  destruct (parse_table_header data new_pos) as [[rows cols] tpos].
  destruct ((rows >? 0) && (cols >? 0)); [|eapply IH; eauto].
  destruct (parse_cell_list data tpos (new_pos + size) lv) as [|c0 cs] eqn:E;
    [eapply IH; eauto|].
  refine (IH _ _ _ _ _ T c HT Hc). intros T' c' HT' Hc'. apply in_app_or in HT' as [HT'|[<-|[]]]; eauto.
  apply (Hpcl tpos (new_pos + size) lv). rewrite E. exact Hc'.
Qed.

Lemma cell_list_loop_prefix_in fuel data pos end_ level cells c :
  In c cells -> In c (cell_list_loop fuel data pos end_ level cells).
Proof.
  revert pos cells. induction fuel as [|fuel IH]; intros pos cells Hc; [exact Hc|].
  cbn [cell_list_loop]. destruct (pos <? end_); [|exact Hc].
  destruct (read_record_header data pos) as [[[[tag lv] size] np]|]; [|exact Hc].
  destruct (zlen data <? np + size); [exact Hc|]. apply IH.
  destruct (_ && _); [|exact Hc]. destruct (np + 26 <=? zlen data); [|exact Hc].
  apply in_or_app. left. exact Hc.
Qed.

Lemma records_loop_prefix_in fuel data pos paras tables nchars T :
  In T tables -> In T (snd (records_loop fuel data pos paras tables nchars)).
Proof.
  revert pos paras tables nchars. induction fuel as [|fuel IH];
    intros pos paras tables nchars HT; [exact HT|].
  cbn [records_loop]. destruct (pos <? zlen data); [|exact HT].
  destruct (read_record_header data pos) as [[[[tag lv] size] np]|]; [|exact HT].
  destruct (zlen data <? np + size); [exact HT|].
  destruct (tag =? HWPTAG_BEGIN + 50); [destruct (np + 4 <=? zlen data); apply IH; exact HT|].
  destruct (tag =? HWPTAG_PARA_TEXT); [apply IH; exact HT|].
  destruct (tag =? HWPTAG_TABLE); [|apply IH; exact HT].
  destruct (parse_table_header data np) as [[rows cols] tpos].
  destruct (_ && _); [|apply IH; exact HT].
  destruct (parse_cell_list data tpos (np + size) lv); apply IH; [exact HT|].
  apply in_or_app. left. exact HT.
Qed.

Lemma section_input_fail zlib data :
  (forall w, In w WBITS -> zlib w data = None) -> section_input zlib data = data.
Proof.
  intros H. unfold section_input, WBITS. simpl.
  rewrite !H by (simpl; auto). reflexivity.
Qed.

End ParserFacts.

(* ================================================================== *)
(** ** Encodings, control characters, cleaned text, tables *)

Module FormatFacts.
Import Clean Ole Parser Formats CleanFacts OleFacts ParserFacts.

Lemma bval_byte_of z : 0 <= z < 256 -> bval (byte_of z) = z.
Proof.
  intros H. unfold byte_of, bval.
  destruct (Byte.of_N (Z.to_N z)) as [b|] eqn:E.
  - apply Byte.to_of_N in E. rewrite E. lia.
  - apply Byte.of_N_None_iff in E. lia.
Qed.

Lemma byte_at_app_r (pre rest : bytes) k : 0 <= k ->
  byte_at (pre ++ rest) (zlen pre + k) = byte_at rest k.
Proof.
  intros Hk. unfold byte_at, zlen. rewrite app_nth2 by lia. f_equal. f_equal. lia.
Qed.

Lemma u16_at_pack pre rest v : 0 <= v < 65536 ->
  u16_at (pre ++ pack_u16 v ++ rest) (zlen pre) = v.
Proof.
  intros Hv. unfold u16_at.
  rewrite <- (Z.add_0_r (zlen pre)) at 1.
  rewrite !byte_at_app_r by lia. unfold byte_at, pack_u16. simpl.
  rewrite !bval_byte_of by (split; [apply Z.mod_pos_bound || apply Z.div_pos| ]; try lia;
    try apply Z.mod_pos_bound; try lia; apply Z.div_lt_upper_bound; lia).
  pose proof (Z.div_mod v 256). lia.
Qed.

Lemma byte_at_range l i : 0 <= byte_at l i <= 255.
Proof. unfold byte_at, bval. pose proof (Byte.to_N_bounded (nth (Z.to_nat i) l x00)). lia. Qed.

Lemma u32_at_range l pos : 0 <= u32_at l pos < 4294967296.
Proof.
  unfold u32_at, u16_at. pose proof (byte_at_range l pos). pose proof (byte_at_range l (pos+1)).
  pose proof (byte_at_range l (pos+2)). pose proof (byte_at_range l (pos+2+1)). lia.
Qed.

Lemma u32_at_pack pre rest v : 0 <= v < 4294967296 ->
  u32_at (pre ++ pack_u32 v ++ rest) (zlen pre) = v.
Proof.
  intros Hv. unfold u32_at, pack_u32. rewrite <- (app_assoc (pack_u16 _)).

  rewrite u16_at_pack by (split; [apply Z.mod_pos_bound|apply Z.mod_pos_bound]; lia).
  replace (zlen pre + 2) with (zlen (pre ++ pack_u16 (v mod 65536))) by
    (unfold zlen; rewrite length_app; simpl; lia).
  rewrite (app_assoc pre).
  rewrite u16_at_pack by (split; [apply Z.div_pos|apply Z.div_lt_upper_bound]; lia).
  pose proof (Z.div_mod v 65536). lia.
Qed.

Lemma zlen_pack_u32 v : zlen (pack_u32 v) = 4.
Proof. reflexivity. Qed.

Lemma header_fields tag level size :
  0 <= tag < 1024 -> 0 <= level < 1024 -> 0 <= size < 4096 ->
  let h := tag + level * 1024 + size * 1048576 in
  Z.land h 1023 = tag /\ Z.land (Z.shiftr h 10) 1023 = level
  /\ Z.land (Z.shiftr h 20) 4095 = size.
Proof.
  intros Ht Hl Hs h.
  change 1023 with (Z.ones 10). change 4095 with (Z.ones 12).
  rewrite !Z.land_ones, !Z.shiftr_div_pow2 by lia. subst h.
  change (2 ^ 10) with 1024. change (2 ^ 20) with 1048576. change (2^12) with 4096.
  repeat split.
  - symmetry. apply (Z.mod_unique _ _ (level + 1024 * size)); lia.
  - rewrite <- (Z.div_unique (tag + level * 1024 + size * 1048576) 1024 (level + 1024 * size) tag)
      by lia.
    symmetry. apply (Z.mod_unique _ _ size); lia.
  - rewrite <- (Z.div_unique (tag + level * 1024 + size * 1048576) 1048576 size
               (tag + level * 1024)) by lia.
    symmetry. apply (Z.mod_unique _ _ 0); lia.
Qed.

Lemma search_from_spec l i :
  match search_from l i with
  | Some j => exists m, j = i + Z.of_nat m /\ ctrl_pair (skipn m l) = true
                /\ forall m', (m' < m)%nat -> ctrl_pair (skipn m' l) = false
  | None => forall m, ctrl_pair (skipn m l) = false
  end.
Proof.
  revert i. induction l as [|b1 l IH]; intros i; simpl.
  - intros m. destruct m; reflexivity.
  - destruct l as [|b2 l'].
    + intros [|[|m]]; reflexivity.
    + destruct ((bval b1 <=? 31) && (bval b2 =? 0)) eqn:Hb.
      * exists O. split; [lia|]. split; [exact Hb|]. intros; lia.
      * specialize (IH (i + 1)). destruct (search_from (b2 :: l') (i + 1)) as [j|].
        -- destruct IH as (m & -> & Hm & Hmin). exists (S m). split; [lia|].
           split; [exact Hm|]. intros [|m'] Hm'; [exact Hb|]. apply Hmin. lia.
        -- intros [|m]; [exact Hb|]. apply IH.
Qed.

Lemma regex_search_spec data start : 0 <= start ->
  match regex_search data start with
  | Some i => start <= i /\ ctrl_at data i = true
              /\ forall k, start <= k < i -> ctrl_at data k = false
  | None => forall k, start <= k -> ctrl_at data k = false
  end.
Proof.
  intros Hs. unfold regex_search.
  pose proof (search_from_spec (skipn (Z.to_nat start) data) start) as H.
  destruct (search_from _ start) as [j|].
  - destruct H as (m & -> & Hm & Hmin). unfold ctrl_at.
    rewrite skipn_skipn in Hm.
    split; [lia|]. split.
    + rewrite (proj2 (Z.leb_le _ _)) by lia. simpl.
      replace (Z.to_nat (start + Z.of_nat m)) with (m + Z.to_nat start)%nat by lia. exact Hm.
    + intros k Hk. rewrite (proj2 (Z.leb_le _ _)) by lia. simpl.
      pose proof (Hmin (Z.to_nat (k - start)) ltac:(lia)) as Hk'.
      rewrite skipn_skipn in Hk'.
      replace (Z.to_nat k) with (Z.to_nat (k - start) + Z.to_nat start)%nat by lia. exact Hk'.
  - intros k Hk. unfold ctrl_at. rewrite (proj2 (Z.leb_le _ _)) by lia. simpl.
    pose proof (H (Z.to_nat (k - start))) as Hk'. rewrite skipn_skipn in Hk'.
    replace (Z.to_nat k) with (Z.to_nat (k - start) + Z.to_nat start)%nat by lia. exact Hk'.
Qed.

Lemma ctrl_at_bound data k : ctrl_at data k = true -> 0 <= k /\ k + 2 <= zlen data.
Proof.
  unfold ctrl_at. intros H. apply andb_true_iff in H as [H1 H2]. apply Z.leb_le in H1.
  split; [exact H1|].
  destruct (skipn (Z.to_nat k) data) as [|b1 [|b2 r]] eqn:E; try discriminate.
  assert (Hl := f_equal (@length _) E). rewrite length_skipn in Hl. simpl in Hl.
  unfold zlen. lia.
Qed.

(** The control code at an offset with a control pair. *)
Lemma ctrl_at_byte data k : ctrl_at data k = true ->
  byte_at data k <= 31 /\ byte_at data (k + 1) = 0.
Proof.
  unfold ctrl_at, byte_at. intros H. apply andb_true_iff in H as [H1 H2]. apply Z.leb_le in H1.
  assert (E1 : nth (Z.to_nat k) data x00 = nth 0 (skipn (Z.to_nat k) data) x00)
    by (rewrite nth_skipn; f_equal; lia).
  assert (E2 : nth (Z.to_nat (k + 1)) data x00 = nth 1 (skipn (Z.to_nat k) data) x00)
    by (rewrite nth_skipn; f_equal; lia).
  rewrite E1, E2.
  destruct (skipn (Z.to_nat k) data) as [|b1 [|b2 r]]; try discriminate. simpl.
  apply andb_true_iff in H2 as [H2 H3]. split; [apply Z.leb_le; exact H2 | apply Z.eqb_eq; exact H3].
Qed.

Lemma find_control_char_loop_spec fuel data start :
  0 <= start -> zlen data < start + Z.of_nat fuel ->
  let '(i, e) := find_control_char_loop fuel data start in
  (i = zlen data /\ e = zlen data
   /\ forall k, start <= k -> Z.even k = true -> ctrl_at data k = false)
  \/ (start <= i /\ Z.even i = true /\ ctrl_at data i = true
      /\ (forall k, start <= k < i -> Z.even k = true -> ctrl_at data k = false)
      /\ e = i + 2 * ctrl_size (byte_at data i)).
Proof.
  revert start. induction fuel as [|fuel IH]; intros start Hs Hf; cbn [find_control_char_loop].
  - left. split; [reflexivity|]. split; [reflexivity|].
    intros k Hk _. destruct (ctrl_at data k) eqn:E; [|reflexivity].
    apply ctrl_at_bound in E. lia.
  - pose proof (regex_search_spec data start Hs) as Hr.
    destruct (regex_search data start) as [i|].
    + destruct Hr as (Hi & Hc & Hmin).
      destruct (Z.odd i) eqn:Ho.
      * specialize (IH (i + 1) ltac:(lia) ltac:(lia)).
        destruct (find_control_char_loop fuel data (i + 1)) as [i' e'].
        destruct IH as [(-> & -> & Hno) | (Hi' & Hev & Hc' & Hmin' & ->)].
        -- left. split; [reflexivity|]. split; [reflexivity|].
           intros k Hk Hev. destruct (Z.lt_total k i) as [Hlt|[->|Hgt]].
           ++ apply Hmin. lia.
           ++ rewrite <- Z.negb_odd, Ho in Hev. discriminate.
           ++ apply Hno; [lia|exact Hev].
        -- right. split; [lia|]. split; [exact Hev|]. split; [exact Hc'|]. split; [|reflexivity].
           intros k Hk Hev'. destruct (Z.lt_total k i) as [Hlt|[->|Hgt]].
           ++ apply Hmin. lia.
           ++ rewrite <- Z.negb_odd, Ho in Hev'. discriminate.
           ++ apply Hmin'; [lia|exact Hev'].
      * unfold ctrl_size. cbv zeta.
        destruct (dict_get CONTROL_CHAR_SIZES (byte_at data i)) eqn:Ed; rewrite ?Ed;
        (right; split; [exact Hi|]; split; [rewrite <- Z.negb_odd, Ho; reflexivity|];
         split; [exact Hc|]; split; [intros k Hk _; apply Hmin, Hk|lia]).
    + left. split; [reflexivity|]. split; [reflexivity|]. intros k Hk _. apply Hr, Hk.
Qed.

Lemma find_control_char_correct data start : 0 <= start ->
  let '(i, e) := find_control_char data start in
  (i = zlen data /\ e = zlen data
   /\ forall k, start <= k -> Z.even k = true -> ctrl_at data k = false)
  \/ (start <= i /\ Z.even i = true /\ ctrl_at data i = true
      /\ (forall k, start <= k < i -> Z.even k = true -> ctrl_at data k = false)
      /\ e = i + 2 * ctrl_size (byte_at data i)).
Proof.
  intros Hs. unfold find_control_char. apply find_control_char_loop_spec; [exact Hs|].
  unfold zlen. lia.
Qed.

Lemma encode_cons u us : encode_utf16le (u :: us) = pack_u16 u ++ encode_utf16le us.
Proof. reflexivity. Qed.

Lemma length_encode us : length (encode_utf16le us) = (2 * length us)%nat.
Proof.
  induction us as [|u us IH]; [reflexivity|].
  rewrite encode_cons, length_app, IH. simpl. lia.
Qed.

Lemma skipn_encode m us :
  skipn (2 * m) (encode_utf16le us) = encode_utf16le (skipn m us).
Proof.
  revert m. induction us as [|u us IH]; intros m.
  - rewrite !skipn_nil. reflexivity.
  - destruct m as [|m]; [reflexivity|].
    replace (2 * S m)%nat with (S (S (2 * m))) by lia. simpl. apply IH.
Qed.

Lemma byte_of_mod_range u : 0 <= u mod 256 < 256.
Proof. apply Z.mod_pos_bound. lia. Qed.

Lemma byte_of_div_range u : 0 <= u < 65536 -> 0 <= u / 256 < 256.
Proof. intros H. split; [apply Z.div_pos|apply Z.div_lt_upper_bound]; lia. Qed.

Lemma utf16_units_encode us : (forall u, In u us -> 0 <= u < 65536) ->
  utf16_units (encode_utf16le us) = us.
Proof.
  induction us as [|u us IH]; intros H; [reflexivity|].
  rewrite encode_cons. unfold pack_u16. simpl.
  assert (Hu := H u (or_introl eq_refl)).
  rewrite (bval_byte_of (u mod 256)) by apply byte_of_mod_range.
  rewrite (bval_byte_of (u / 256)) by (apply byte_of_div_range; exact Hu).
  rewrite IH by (intros; apply H; simpl; auto).
  f_equal. pose proof (Z.div_mod u 256). lia.
Qed.

Lemma decode_units_plain us :
  (forall u, In u us -> ~ (55296 <= u <= 57343)) -> decode_units us = us.
Proof.
  induction us as [|u us IH]; intros H; [reflexivity|]. simpl.
  assert (Hu := H u (or_introl eq_refl)).
  unfold is_high, is_low.
  destruct (Z.leb_spec 55296 u), (Z.leb_spec u 56319), (Z.leb_spec 56320 u), (Z.leb_spec u 57343);
    simpl; try lia.
  all: f_equal; apply IH; intros; apply H; simpl; auto.
Qed.

Lemma encode_no_ctrl us : (forall u, In u us -> 32 <= u < 65536) ->
  forall k, Z.even k = true -> ctrl_at (encode_utf16le us) k = false.
Proof.
  intros H k Hk. unfold ctrl_at.
  destruct (Z.leb_spec 0 k); [|reflexivity]. simpl.
  apply Zeven_bool_iff, Zeven_ex in Hk as [m ->].
  replace (Z.to_nat (2 * m)) with (2 * Z.to_nat m)%nat by lia.
  rewrite skipn_encode.
  assert (Hs : forall u, In u (skipn (Z.to_nat m) us) -> 32 <= u < 65536)
    by (intros u Hu; apply H; rewrite <- (firstn_skipn (Z.to_nat m) us);
        apply in_or_app; right; exact Hu).
  destruct (skipn (Z.to_nat m) us) as [|u r]; [reflexivity|].
  assert (Hu := Hs u (or_introl eq_refl)).
  rewrite encode_cons. unfold pack_u16. simpl.
  rewrite (bval_byte_of (u mod 256)) by apply byte_of_mod_range.
  rewrite (bval_byte_of (u / 256)) by (apply byte_of_div_range; lia).
  destruct (Z.leb_spec (u mod 256) 31); [|reflexivity].
  destruct (Z.eqb_spec (u / 256) 0); [|reflexivity].
  pose proof (Z.div_mod u 256). lia.
Qed.

Lemma okrun_run_bound q mx r b k :
  (forall c, In c r -> q c = true) -> okrun q mx k (r ++ b) = true -> r <> [] ->
  (k + length r <= mx)%nat.
Proof.
  revert k. induction r as [|c r IH]; intros k Hall H Hne; simpl in *; [congruence|].
  rewrite (Hall c (or_introl eq_refl)) in H. apply andb_true_iff in H as [H1 H2].
  apply Nat.ltb_lt in H1. destruct r as [|d r]; [simpl; lia|].
  pose proof (IH (S k) (fun d Hd => Hall d (or_intror Hd)) H2 ltac:(discriminate)). lia.
Qed.

Lemma okrun_no_run q mx s a r b :
  okrun q mx 0 s = true -> s = a ++ r ++ b -> length r = S mx ->
  (forall c, In c r -> q c = true) -> False.
Proof.
  intros H -> Hlen Hall.
  assert (Hk : forall a k, okrun q mx k (a ++ r ++ b) = true -> False).
  { induction a0 as [|c a0 IH]; intros k Hk; simpl in Hk.
    - pose proof (okrun_run_bound q mx r b k Hall Hk) as Hb.
      destruct r; [discriminate|]. specialize (Hb ltac:(discriminate)). simpl in Hb, Hlen. lia.
    - destruct (q c); [apply andb_true_iff in Hk as [_ Hk]|]; eapply IH; exact Hk. }
  exact (Hk a 0%nat H).
Qed.

Lemma drop_while_head (q : Z -> bool) s c r : drop_while q s = c :: r -> q c = false.
Proof.
  induction s as [|d s IH]; simpl; [discriminate|].
  destruct (q d) eqn:Hd; [exact IH|]. intros H. injection H as -> _. exact Hd.
Qed.

Lemma strip_first s c r : strip s = c :: r -> is_space c = false.
Proof.
  unfold strip. intros H. destruct (rstrip_prefix (lstrip s)) as [t Ht].
  rewrite H in Ht. simpl in Ht. apply (drop_while_head is_space s c (r ++ t)). exact Ht.
Qed.

Lemma strip_last s r c : strip s = r ++ [c] -> is_space c = false.
Proof.
  unfold strip, rstrip. intros H.
  apply (f_equal (@rev Z)) in H. rewrite rev_involutive, rev_app_distr in H. simpl in H.
  exact (drop_while_head is_space _ c (rev r) H).
Qed.

Lemma parse_table_header_range data pos rows cols tpos :
  parse_table_header data pos = (rows, cols, tpos) ->
  0 <= rows <= 65535 /\ 0 <= cols <= 65535.
Proof.
  unfold parse_table_header. destruct (zlen data <? pos + 8).
  - intros H. injection H as <- <- _. lia.
  - intros H. injection H as <- <- _.
    pose proof (u16_at_range data (pos + 4)). pose proof (u16_at_range data (pos + 6)). lia.
Qed.

Lemma records_loop_tables_ok fuel data pos paras tables nchars :
  (forall T, In T tables -> table_ok T) ->
  forall T, In T (snd (records_loop fuel data pos paras tables nchars)) -> table_ok T.
Proof.
  revert pos paras tables nchars.
  induction fuel as [|fuel IH]; intros pos paras tables nchars Htab T HT;
    simpl in HT; eauto.
  destruct (pos <? zlen data); simpl in HT; eauto.
  destruct (read_record_header data pos) as [[[[tag lv] size] new_pos]|]; simpl in HT; eauto.
  destruct (zlen data <? new_pos + size); simpl in HT; eauto.
  destruct (tag =? HWPTAG_BEGIN + 50).
  { destruct (new_pos + 4 <=? zlen data); eapply IH; eauto. }
  destruct (tag =? HWPTAG_PARA_TEXT); [eapply IH; eauto|].
  destruct (tag =? HWPTAG_TABLE); [|eapply IH; eauto].
  destruct (parse_table_header data new_pos) as [[rows cols] tpos] eqn:Eh.
  destruct ((rows >? 0) && (cols >? 0)) eqn:Ec; [|eapply IH; eauto].
  destruct (parse_cell_list data tpos (new_pos + size) lv) as [|c0 cs] eqn:E;
    [eapply IH; eauto|].
  refine (IH _ _ _ _ _ T HT). intros T' HT'. apply in_app_or in HT' as [HT'|[<-|[]]]; eauto.
  apply parse_table_header_range in Eh. apply andb_true_iff in Ec as [E1 E2].
  apply Z.gtb_lt in E1, E2. unfold table_ok; simpl. split; [lia|]. split; [lia|]. discriminate.
Qed.

Lemma u32_bytes data p :
  let v := u32_at data p in
  Z.land v 255 = byte_at data p /\ Z.land (Z.shiftr v 8) 255 = byte_at data (p + 1)
  /\ Z.land (Z.shiftr v 16) 255 = byte_at data (p + 2)
  /\ Z.land (Z.shiftr v 24) 255 = byte_at data (p + 3)
  /\ Z.land v 1 = byte_at data p mod 2.
Proof.
  intros v. unfold v, u32_at, u16_at.
  replace (p + 2 + 1) with (p + 3) by lia.
  pose proof (byte_at_range data p) as H0. pose proof (byte_at_range data (p + 1)) as H1.
  pose proof (byte_at_range data (p + 2)) as H2. pose proof (byte_at_range data (p + 3)) as H3.
  set (b0 := byte_at data p) in *. set (b1 := byte_at data (p + 1)) in *.
  set (b2 := byte_at data (p + 2)) in *. set (b3 := byte_at data (p + 3)) in *.
  change 255 with (Z.ones 8). change 1 with (Z.ones 1).
  rewrite !Z.land_ones, !Z.shiftr_div_pow2 by lia.
  change (2 ^ 8) with 256. change (2 ^ 16) with 65536. change (2 ^ 24) with 16777216.
  change (2 ^ 1) with 2.
  split; [|split; [|split; [|split]]].
  - symmetry. apply (Z.mod_unique _ _ (b1 + 256 * (b2 + 256 * b3))); lia.
  - rewrite <- (Z.div_unique _ 256 (b1 + 256 * (b2 + 256 * b3)) b0) by lia.
    symmetry. apply (Z.mod_unique _ _ (b2 + 256 * b3)); lia.
  - rewrite <- (Z.div_unique _ 65536 (b2 + 256 * b3) (b0 + 256 * b1)) by lia.
    symmetry. apply (Z.mod_unique _ _ b3); lia.
  - rewrite <- (Z.div_unique _ 16777216 b3 (b0 + 256 * b1 + 65536 * b2)) by lia.
    symmetry. apply (Z.mod_unique _ _ 0); lia.
  - replace (b0 + 256 * b1 + 65536 * (b2 + 256 * b3))
      with (b0 + (128 * b1 + 32768 * (b2 + 256 * b3)) * 2) by lia.
    apply Z.mod_add. lia.
Qed.

Lemma zlen_slice_32_36 (data : bytes) : zlen (slice data 32 36) = 4 <-> 36 <= zlen data.
Proof.
  unfold slice, zlen. rewrite length_firstn, length_skipn. fold (zlen data). unfold zlen. lia.
Qed.

End FormatFacts.

Module ScanFacts.
Import Ole Parser OleFacts ParserFacts FormatFacts.

Lemma chain_loop_run read_one fat h sid out tr sid' out' h' tr' :
  chain_loop read_one fat h sid out tr = Ok (sid', out', h', tr') ->
  exists new secs, tr' = new ++ tr /\ fat_chain fat sid (rev new)
    /\ Forall (fun x => is_end_sid x = false) (rev new)
    /\ Forall (fun x => x < zlen fat) (removelast (rev new))
    /\ Forall2 (fun s sec => read_one s = Ok sec) (rev new) secs
    /\ out' = out ++ concat secs
    /\ (length new = h \/ is_end_sid (chain_next fat sid (rev new)) = true
        \/ exists l0 x, rev new = l0 ++ [x] /\ zlen fat <= x).
Proof.
  revert sid out tr. induction h as [|h IH]; intros sid out tr H; simpl in H.
  - injection H as <- <- <- <-. exists [], []. simpl. rewrite app_nil_r.
    repeat split; auto.
  - destruct (is_end_sid sid) eqn:Hend.
    + injection H as <- <- <- <-. exists [], []. simpl. rewrite app_nil_r.
      repeat split; auto.
    + destruct (read_one sid) as [sec|e] eqn:Hr; simpl in H; [|discriminate].
      destruct (Z.leb_spec (zlen fat) sid).
      * injection H as <- <- <- <-. exists [sid], [sec]. simpl. rewrite app_nil_r.
        repeat split; auto. right. right. exists [], sid. auto.
      * destruct (IH _ _ _ H) as (new & secs & -> & Hch & Hne & Hlt & Hrd & Hout & Hstop).
        exists (new ++ [sid]), (sec :: secs). rewrite <- app_assoc.
        rewrite rev_app_distr. cbn [rev app].
        split; [reflexivity|]. split; [split; auto|]. split; [constructor; auto|].
        split; [destruct (rev new); simpl; auto|].
        split; [constructor; auto|].
        split; [rewrite Hout, <- app_assoc; reflexivity|].
        rewrite length_app. cbn [length chain_next].
        destruct Hstop as [Hl|[He|(l0 & x & Hl0 & Hx)]]; [left; lia|right; left; exact He|].
        right. right. exists (sid :: l0), x. rewrite Hl0. auto.
Qed.

Lemma firstn_min_zlen {A} (n : Z) (d : list A) :
  firstn (Z.to_nat (Z.min n (zlen d))) d = firstn (Z.to_nat n) d.
Proof.
  unfold zlen. destruct (Z.min_spec n (Z.of_nat (length d))) as [[_ ->]|[Hn ->]]; [reflexivity|].
  rewrite Nat2Z.id, firstn_all, firstn_all2 by lia. reflexivity.
Qed.

Lemma rrh_advance data pos t l s np :
  read_record_header data pos = Some (t, l, s, np) -> pos + 4 <= np /\ 0 <= s.
Proof.
  unfold read_record_header. intros H.
  destruct (zlen data <? pos + 4); [discriminate|].
  assert (Hl : 0 <= Z.land (Z.shiftr (u32_at data pos) 20) 4095)
    by (apply Z.land_nonneg; right; lia).
  destruct (_ =? 4095).
  - destruct (zlen data <? pos + 4 + 4); [discriminate|].
    injection H as <- <- <- <-. pose proof (u32_at_range data (pos + 4)). lia.
  - injection H as <- <- <- <-. lia.
Qed.

Lemma cell_scan_advance n data pos end_ p :
  cell_scan n data pos end_ = Some p ->
  pos + 4 * Z.of_nat n <= p /\ (n <> O -> p <= zlen data).
Proof.
  revert pos. induction n as [|n IH]; intros pos H; cbn [cell_scan] in H.
  - injection H as <-. lia.
  - destruct (pos <? end_); [|discriminate].
    destruct (read_record_header data pos) as [[[[t l] s] np]|] eqn:Hr; [|discriminate].
    destruct (Z.ltb_spec (zlen data) (np + s)); [discriminate|].
    destruct (rrh_advance _ _ _ _ _ _ Hr).
    destruct (IH _ H) as [Ha Hb]. split; [lia|].
    intros _. destruct n; [cbn [cell_scan] in H; injection H as <-; lia|]. apply Hb. lia.
Qed.

Lemma cell_list_loop_scan fuel n data pos end_ level cells p c :
  cell_scan n data pos end_ = Some p -> (n < fuel)%nat ->
  (forall cells', In c (cell_list_loop (fuel - n) data p end_ level cells')) ->
  In c (cell_list_loop fuel data pos end_ level cells).
Proof.
  revert fuel pos cells. induction n as [|n IH]; intros fuel pos cells Hs Hf Hc;
    cbn [cell_scan] in Hs.
  - injection Hs as <-. rewrite Nat.sub_0_r in Hc. apply Hc.
  - destruct fuel as [|fuel]; [lia|]. cbn [cell_list_loop].
    destruct (pos <? end_); [|discriminate].
    destruct (read_record_header data pos) as [[[[t l] s] np]|]; [|discriminate].
    destruct (zlen data <? np + s); [discriminate|].
    apply (IH fuel (np + s)); [exact Hs|lia|]. exact Hc.
Qed.

End ScanFacts.

(* ================================================================== *)
Module OleLoadFacts.
Import Clean Ole Parser Formats OleFacts FormatFacts Exn OleLoad.

Lemma length_unpack_aux n d : (length d < n)%nat ->
  length (_unpack_u32_vec d) = (length d / 4)%nat.
Proof.
  revert d. induction n as [|n IH]; intros d Hd; [lia|].
  destruct d as [|b0 [|b1 [|b2 [|b3 r]]]]; try reflexivity.
  cbn [_unpack_u32_vec length]. rewrite IH by (simpl in Hd; lia).
  replace (S (S (S (S (length r))))) with (length r + 1 * 4)%nat by lia.
  rewrite Nat.div_add by lia. lia.
Qed.

Lemma length_unpack d : length (_unpack_u32_vec d) = (length d / 4)%nat.
Proof. apply (length_unpack_aux (S (length d))). lia. Qed.


Lemma not_in_filter_free l : ~ In FREE_SECTOR (List.filter not_free l).
Proof.
  intros H. apply filter_In in H as [_ H]. unfold not_free in H.
  rewrite Z.eqb_refl in H. discriminate.
Qed.

Lemma read_header_difat self h :
  _read_header self = Ok h -> ~ In FREE_SECTOR (hdr_difat h).
Proof.
  unfold _read_header. destruct (_read_exact_at self 0 512) as [hdr|e]; simpl; [|discriminate].
  destruct (negb _); [discriminate|]. intros H. injection H as <-. simpl.
  apply not_in_filter_free.
Qed.

Lemma difat_loop_free self count sid difat out :
  ~ In FREE_SECTOR difat -> difat_loop self count sid difat = Ok out -> ~ In FREE_SECTOR out.
Proof.
  revert sid difat. induction count as [|count IH]; intros sid difat Hd H; simpl in H.
  - injection H as <-. exact Hd.
  - destruct (is_end_sid sid); [injection H as <-; exact Hd|].
    destruct (_read_sector self sid) as [sec|e]; simpl in H; [|discriminate].
    destruct (zlen sec <? 4); [discriminate|].
    eapply IH; [|exact H]. intros Hin. apply in_app_or in Hin as [Hin|Hin];
      [exact (Hd Hin)|exact (not_in_filter_free _ Hin)].
Qed.

Lemma read_sector_length self sid sec :
  _read_sector self sid = Ok sec -> length sec = Z.to_nat (sector_size self).
Proof.
  unfold _read_sector, _read_exact_at. destruct (sid <? 0); [discriminate|].
  destruct (Z.eqb_spec (zlen (slice (fp self) (512 + sid * sector_size self)
                                 (512 + sid * sector_size self + sector_size self)))
                       (sector_size self)) as [E|E]; [|discriminate].
  intros H. injection H as <-. unfold zlen in E. lia.
Qed.

Lemma fat_loop_length self difat fat :
  fat_loop self difat = Ok fat ->
  length fat = (length difat * (Z.to_nat (sector_size self) / 4))%nat.
Proof.
  revert fat. induction difat as [|sid difat IH]; intros fat H; simpl in H.
  - injection H as <-. reflexivity.
  - destruct (_read_sector self sid) as [sec|e] eqn:Es; simpl in H; [|discriminate].
    destruct (fat_loop self difat) as [more|e]; simpl in H; [|discriminate].
    injection H as <-. rewrite length_app, length_unpack, (read_sector_length _ _ _ Es),
      (IH more eq_refl). simpl. lia.
Qed.


Lemma testbit_small lo n : 0 <= lo < 2 ^ 32 -> 32 <= n -> Z.testbit lo n = false.
Proof.
  intros Hlo Hn. rewrite <- (Z.mod_small lo (2 ^ 32)) by lia.
  apply Z.mod_pow2_bits_high. lia.
Qed.

Lemma lor_shiftl_32 hi lo : 0 <= lo < 2 ^ 32 ->
  Z.lor (Z.shiftl hi 32) lo = hi * 2 ^ 32 + lo.
Proof.
  intros Hlo. rewrite Z.shiftl_mul_pow2 by lia.
  assert (H0 : Z.land (hi * 2 ^ 32) lo = 0).
  { apply Z.bits_inj'. intros n Hn. rewrite Z.land_spec, Z.bits_0.
    destruct (Z.lt_ge_cases n 32).
    - rewrite Z.mul_pow2_bits_low by lia. reflexivity.
    - rewrite (testbit_small lo n Hlo) by lia. apply andb_false_r. }
  rewrite <- Z.lxor_lor by exact H0. rewrite <- Z.add_nocarry_lxor by exact H0. reflexivity.
Qed.

Lemma s32_range v : 0 <= v < 4294967296 -> -2147483648 <= s32 v < 2147483648.
Proof. unfold s32. intros H. destruct (Z.leb_spec 2147483648 v); lia. Qed.

Lemma parse_dir_entry_fields index rec :
  let e := parse_dir_entry index rec in
  Ole.index e = index /\ 0 <= type e <= 255
  /\ -2147483648 <= left e < 2147483648 /\ -2147483648 <= right e < 2147483648
  /\ -2147483648 <= child e < 2147483648 /\ 0 <= start_sector e < 4294967296
  /\ stream_size e = u32_at rec 120 + 4294967296 * u32_at rec 124.
Proof.
  simpl. split; [reflexivity|]. split; [apply byte_at_range|].
  split; [apply s32_range, u32_at_range|]. split; [apply s32_range, u32_at_range|].
  split; [apply s32_range, u32_at_range|]. split; [apply u32_at_range|].
  destruct (Z.eqb_spec (u32_at rec 124) 0) as [E|E].
  - rewrite E. lia.
  - rewrite lor_shiftl_32 by (pose proof (u32_at_range rec 120); lia). lia.
Qed.

Lemma read_header_init_err contents :
  map bval (firstn 8 contents) <> OLE_SIGNATURE \/ (length contents < 512)%nat ->
  _read_header (init_ole contents)
    = Err (if (length contents <? 512)%nat then IoError else ValueError).
Proof.
  intros H. unfold _read_header, _read_exact_at. cbn [fp init_ole].
  assert (Hl : zlen (slice contents 0 (0 + 512)) = Z.min 512 (zlen contents)).
  { unfold slice, zlen. rewrite length_firstn, length_skipn. lia. }
  destruct (Nat.ltb_spec (length contents) 512) as [Hs|Hs].
  - rewrite (proj2 (Z.eqb_neq _ _)) by (rewrite Hl; unfold zlen; lia). reflexivity.
  - rewrite (proj2 (Z.eqb_eq _ _)) by (rewrite Hl; unfold zlen; lia). cbn [rbind].
    destruct H as [H|H]; [|lia].
    rewrite bool_decide_eq_false_2; [reflexivity|].
    intros E. apply H. rewrite <- E. f_equal.
    unfold slice. replace (Z.to_nat (8 - 0)) with 8%nat by lia.
    replace (Z.to_nat 0) with 0%nat by lia. rewrite !skipn_O, firstn_firstn.
    f_equal. unfold zlen. rewrite length_firstn. lia.
Qed.


Import OleShapes.

Lemma walk_btree_paths depth es idx pp lk lk' :
  map_Forall lookup_path_ok lk -> walk_btree depth es idx pp lk = XOk lk' ->
  map_Forall lookup_path_ok lk'.
Proof.
  revert idx pp lk lk'. induction depth as [|depth IH]; intros idx pp lk lk' Hlk H;
    cbn [walk_btree] in H; [discriminate|].
  destruct ((idx <? 0) || (zlen es <=? idx)); [injection H as <-; exact Hlk|].
  set (node := nth (Z.to_nat idx) es (parse_dir_entry 0 [])) in H.
  destruct (if 0 <=? left node then walk_btree depth es (left node) pp lk else XOk lk)
    as [lk1|e] eqn:E1; cbn [xbind] in H; [|discriminate].
  assert (H1 : map_Forall lookup_path_ok lk1).
  { destruct (0 <=? left node); [exact (IH _ _ _ _ Hlk E1)|injection E1 as <-; exact Hlk]. }
  set (full_path := if type node =? STGTY_ROOT then [] else
                    match pp with [] => name node | _ => pp ++ [47] ++ name node end) in H.
  destruct (if 0 <=? child node then walk_btree depth es (child node) full_path lk1
            else XOk lk1) as [lk2|e] eqn:E2; cbn [xbind] in H; [|discriminate].
  assert (H2 : map_Forall lookup_path_ok lk2).
  { destruct (0 <=? child node); [exact (IH _ _ _ _ H1 E2)|injection E2 as <-; exact H1]. }
  set (lk3 := if (type node =? STGTY_STREAM) && negb (bool_decide (full_path = []))
              then <[full_path := node]> lk2 else lk2) in H.
  assert (H3 : map_Forall lookup_path_ok lk3).
  { unfold lk3. destruct (Z.eqb_spec (type node) STGTY_STREAM) as [Ht|Ht]; [|exact H2].
    destruct (bool_decide (full_path = [])) eqn:Hb; [exact H2|].
    apply bool_decide_eq_false in Hb. cbn [andb negb].
    apply map_Forall_insert_2; [|exact H2].
    split; [exact Ht|]. split; [exact Hb|].
    unfold full_path in *. rewrite Ht. cbn.
    destruct pp as [|c pp']; [left; reflexivity|].
    right. exists (c :: pp'). split; [discriminate|reflexivity]. }
  destruct (0 <=? right node); [exact (IH _ _ _ _ H3 H)|injection H as <-; exact H3].
Qed.

Lemma build_paths_paths depth es lk :
  _build_paths depth es = XOk lk -> map_Forall lookup_path_ok lk.
Proof.
  unfold _build_paths. destruct (List.find is_root es) as [e|].
  - destruct (0 <=? child _).
    + apply walk_btree_paths. apply map_Forall_empty.
    + intros H. injection H as <-. apply map_Forall_empty.
  - intros H. injection H as <-. apply map_Forall_empty.
Qed.


Lemma dir_records_nth n raw idx i e :
  nth_error (dir_records n raw idx) i = Some e ->
  exists rec, e = parse_dir_entry (idx + Z.of_nat i) rec.
Proof.
  revert raw idx i. induction n as [|n IH]; intros raw idx i H; [destruct i; discriminate|].
  destruct i as [|i]; cbn in H.
  - injection H as <-. exists (firstn 128 raw). f_equal. lia.
  - destruct (IH _ _ _ H) as [rec ->]. exists rec. f_equal. lia.
Qed.



Lemma walk_btree_err depth es idx pp lk e :
  walk_btree depth es idx pp lk = XErr e -> e = RecursionError.
Proof.
  revert idx pp lk e. induction depth as [|depth IH]; intros idx pp lk e H; cbn [walk_btree] in H.
  - injection H as <-. reflexivity.
  - destruct (_ || _); [discriminate|].
    destruct (if 0 <=? left _ then _ else _) as [lk1|e1] eqn:E1; cbn [xbind] in H.
    2:{ injection H as <-. destruct (0 <=? left _); [exact (IH _ _ _ _ E1)|discriminate]. }
    destruct (if 0 <=? child _ then _ else _) as [lk2|e2] eqn:E2; cbn [xbind] in H.
    2:{ injection H as <-. destruct (0 <=? child _); [exact (IH _ _ _ _ E2)|discriminate]. }
    destruct (0 <=? right _); [exact (IH _ _ _ _ H)|discriminate].
Qed.

Lemma walk_btree_self_loop depth es c n pp lk lk' :
  0 <= c -> nth_error es (Z.to_nat c) = Some n ->
  left n = c \/ child n = c \/ right n = c ->
  walk_btree depth es c pp lk <> XOk lk'.
Proof.
  intros Hc Hn Hloop. revert pp lk lk'.
  induction depth as [|depth IH]; intros pp lk lk' H; cbn [walk_btree] in H; [discriminate|].
  assert (Hlt : (Z.to_nat c < length es)%nat) by (apply nth_error_Some; congruence).
  rewrite (proj2 (Z.ltb_ge c 0)), (proj2 (Z.leb_gt (zlen es) c)) in H by (unfold zlen; lia).
  cbn [orb] in H.
  rewrite (nth_error_nth _ _ _ Hn) in H.
  destruct (if 0 <=? left n then _ else _) as [lk1|e1] eqn:E1; cbn [xbind] in H;
    [|discriminate].
  destruct Hloop as [Hl|[Hch|Hr]].
  { rewrite Hl, (proj2 (Z.leb_le 0 c) Hc) in E1. exact (IH _ _ _ E1). }
  all: destruct (if 0 <=? child n then _ else _) as [lk2|e2] eqn:E2; cbn [xbind] in H;
    [|discriminate].
  { rewrite Hch, (proj2 (Z.leb_le 0 c) Hc) in E2. exact (IH _ _ _ E2). }
  rewrite Hr, (proj2 (Z.leb_le 0 c) Hc) in H. exact (IH _ _ _ H).
Qed.



End OleLoadFacts.

(* ================================================================== *)
Module RenderFacts.
Import Parser Exn Render Formats.

Lemma xfold_inv {A B} (P : A -> Prop) (f : A -> B -> xresult A) acc l :
  P acc -> (forall a x, In x l -> P a -> exists a', f a x = XOk a' /\ P a') ->
  exists a', xfold f acc l = XOk a' /\ P a'.
Proof.
  revert acc. induction l as [|x l IH]; intros acc Hacc Hf; [exists acc; auto|].
  destruct (Hf acc x (or_introl eq_refl) Hacc) as (a1 & E & H1). cbn [xfold]. rewrite E.
  cbn [xbind]. apply IH; [exact H1|]. intros a y Hy. apply Hf. right. exact Hy.
Qed.

Lemma xfold_err {A B} (P : A -> Prop) (f : A -> B -> xresult A) acc l e :
  P acc ->
  (forall a x, In x l -> P a -> f a x = XErr e \/ exists a', f a x = XOk a' /\ P a') ->
  (exists x0, In x0 l /\ forall a, P a -> f a x0 = XErr e) ->
  xfold f acc l = XErr e.
Proof.
  revert acc. induction l as [|x l IH]; intros acc Hacc Hf (x0 & Hx0 & He); [destruct Hx0|].
  cbn [xfold]. destruct Hx0 as [<-|Hx0].
  - rewrite (He acc Hacc). reflexivity.
  - destruct (Hf acc x (or_introl eq_refl) Hacc) as [E|(a1 & E & H1)]; rewrite E;
      [reflexivity|]. cbn [xbind]. apply IH; [exact H1| |exists x0; auto].
    intros a y Hy. apply Hf. right. exact Hy.
Qed.

Lemma in_range a b r : In r (range a b) <-> a <= r < b.
Proof.
  unfold range. rewrite in_map_iff. split.
  - intros (k & <- & Hk). apply in_seq in Hk. lia.
  - intros H. exists (Z.to_nat (r - a)). split; [lia|]. apply in_seq. lia.
Qed.

Lemma length_range a b : length (range a b) = Z.to_nat (b - a).
Proof. unfold range. rewrite length_map, length_seq. reflexivity. Qed.

Lemma getitem_ok {A} (l : list A) i : 0 <= i < zlen l ->
  exists x, l !! Z.to_nat i = Some x /\ getitem l i = XOk x.
Proof.
  intros Hi. unfold getitem, py_index.
  rewrite (proj2 (Z.ltb_ge i 0)) by lia.
  rewrite (proj2 (Z.leb_le 0 i)), (proj2 (Z.ltb_lt i (zlen l))) by lia. cbn [andb].
  destruct (l !! Z.to_nat i) as [x|] eqn:E.
  - exists x. auto.
  - apply lookup_ge_None in E. unfold zlen in Hi. lia.
Qed.

Lemma setitem_ok {A} (l : list A) i v : 0 <= i < zlen l ->
  setitem l i v = XOk (<[Z.to_nat i := v]> l).
Proof.
  intros Hi. unfold setitem, py_index.
  rewrite (proj2 (Z.ltb_ge i 0)) by lia.
  rewrite (proj2 (Z.leb_le 0 i)), (proj2 (Z.ltb_lt i (zlen l))) by lia. reflexivity.
Qed.

Import RenderShapes.

Lemma get2_ok rows cols cs g r c :
  grid_ok rows cols cs g -> 0 <= r < rows -> 0 <= c < cols ->
  exists o, get2 g r c = XOk o.
Proof.
  intros (Hlen & Hrows) Hr Hc. unfold get2.
  destruct (getitem_ok g r) as (rw & Hrw & ->); [unfold zlen; lia|]. cbn [xbind].
  destruct (Hrows _ _ Hrw) as [Hl _].
  destruct (getitem_ok rw c) as (o & _ & ->); [unfold zlen; lia|]. eauto.
Qed.

Lemma set2_ok rows cols cs g r c v :
  grid_ok rows cols cs g -> 0 <= r < rows -> 0 <= c < cols ->
  (forall s, v = Some s -> s = [] \/ exists cell, In cell cs /\ col cell = c /\ text cell = s) ->
  exists g', set2 g r c v = XOk g' /\ grid_ok rows cols cs g'.
Proof.
  intros (Hlen & Hrows) Hr Hc Hv. unfold set2.
  destruct (getitem_ok g r) as (rw & Hrw & ->); [unfold zlen; lia|]. cbn [xbind].
  destruct (Hrows _ _ Hrw) as [Hl Hslots].
  rewrite setitem_ok by (unfold zlen; lia). cbn [xbind].
  rewrite setitem_ok by (unfold zlen; lia).
  eexists. split; [reflexivity|]. split; [rewrite length_insert; exact Hlen|].
  intros i rw' Hi. apply list_lookup_insert_Some in Hi as [(<- & <- & _)|(_ & Hi)].
  - split; [rewrite length_insert; exact Hl|].
    intros j s Hj. apply list_lookup_insert_Some in Hj as [(<- & -> & _)|(_ & Hj)].
    + destruct (Hv s eq_refl) as [->|(cell & Hin & Hcol & Ht)]; [left; reflexivity|].
      right. exists cell. split; [exact Hin|]. split; [lia|exact Ht].
    + exact (Hslots j s Hj).
  - exact (Hrows _ _ Hi).
Qed.

Lemma place_cell_ok rows cols cs g cell :
  In cell cs -> 0 <= row cell -> 0 <= col cell -> grid_ok rows cols cs g ->
  exists g', place_cell rows cols g cell = XOk g' /\ grid_ok rows cols cs g'.
Proof.
  intros Hin Hrow Hcol Hg. unfold place_cell.
  destruct (Z.geb_spec (row cell) rows), (Z.geb_spec (col cell) cols); cbn [orb];
    try (exists g; split; [reflexivity|exact Hg]).
  apply xfold_inv; [exact Hg|]. intros g1 r Hr Hg1. apply in_range in Hr.
  apply xfold_inv; [exact Hg1|]. intros g2 c Hc Hg2. apply in_range in Hc.
  destruct ((r =? row cell) && (c =? col cell)) eqn:E.
  - apply andb_true_iff in E as [_ E]. apply Z.eqb_eq in E.
    apply (set2_ok rows cols cs); [exact Hg2|lia|lia|].
    intros s Hs. injection Hs as <-. right. exists cell. auto.
  - destruct (get2_ok rows cols cs g2 r c Hg2 ltac:(lia) ltac:(lia)) as [o ->]. cbn [xbind].
    destruct o as [s|]; [exists g2; split; [reflexivity|exact Hg2]|].
    apply (set2_ok rows cols cs); [exact Hg2|lia|lia|].
    intros s Hs. injection Hs as <-. left. reflexivity.
Qed.

Lemma lookup_repeat {A} (x y : A) n i : repeat x n !! i = Some y -> y = x.
Proof.
  revert i. induction n as [|n IH]; intros i H; [discriminate|].
  destruct i as [|i]; [injection H as <-; reflexivity|exact (IH i H)].
Qed.

Lemma grid_phase_ok rows cols cs :
  (forall cell, In cell cs -> 0 <= row cell /\ 0 <= col cell) ->
  exists g, xfold (place_cell rows cols)
              (repeat (repeat None (Z.to_nat cols)) (Z.to_nat rows)) cs = XOk g
            /\ grid_ok rows cols cs g.
Proof.
  intros Hcs. apply xfold_inv.
  - split; [apply repeat_length|]. intros i rw Hi.
    apply lookup_repeat in Hi as ->. split; [apply repeat_length|].
    intros j s Hj. apply lookup_repeat in Hj. discriminate.
  - intros g cell Hin Hg. destruct (Hcs cell Hin). apply place_cell_ok; auto.
Qed.

Lemma widths_set_ok cols ws c v :
  widths_ok cols ws -> 0 <= c < cols ->
  (forall w, ws !! Z.to_nat c = Some w -> w <= v) ->
  exists ws', setitem ws c v = XOk ws' /\ widths_ok cols ws'
    /\ ws' !! Z.to_nat c = Some v
    /\ forall j w, ws !! j = Some w -> exists w', ws' !! j = Some w' /\ w <= w'.
Proof.
  intros (Hl & H3) Hc Hv. rewrite setitem_ok by (unfold zlen; lia).
  eexists. split; [reflexivity|]. split; [split|split].
  - rewrite length_insert. exact Hl.
  - intros j w Hj. apply list_lookup_insert_Some in Hj as [(<- & <- & Hlt)|(_ & Hj)];
      [|exact (H3 _ _ Hj)].
    destruct (ws !! Z.to_nat c) as [w0|] eqn:E; [|apply lookup_ge_None in E; lia].
    specialize (H3 _ _ E). specialize (Hv w0 eq_refl). lia.
  - apply list_lookup_insert_eq. lia.
  - intros j w Hj. destruct (decide (j = Z.to_nat c)) as [->|Hne].
    + exists v. split; [apply list_lookup_insert_eq; apply lookup_lt_Some in Hj; exact Hj|].
      exact (Hv w Hj).
    + exists w. split; [rewrite list_lookup_insert_ne by congruence; exact Hj|lia].
Qed.


Lemma mono_refl ws : mono ws ws.
Proof. intros j w H. exists w. auto with lia. Qed.

Lemma mono_trans a b c : mono a b -> mono b c -> mono a c.
Proof.
  intros H1 H2 j w Hj. destruct (H1 j w Hj) as (w1 & Hb & Hw1).
  destruct (H2 j w1 Hb) as (w2 & Hc & Hw2). exists w2. split; [exact Hc|lia].
Qed.

Lemma widths_cell_step cols ws cell :
  widths_ok cols ws -> 0 <= col cell -> (col cell < cols -> col_span cell <> 0) ->
  exists ws', widths_cell cols ws cell = XOk ws' /\ widths_ok cols ws' /\ mono ws ws'
    /\ (col_span cell = 1 -> col cell < cols ->
        exists w, ws' !! Z.to_nat (col cell) = Some w /\ zlen (text cell) <= w).
Proof.
  intros Hws Hc Hspan. unfold widths_cell.
  destruct (Z.geb_spec (col cell) cols).
  { exists ws. split; [reflexivity|]. split; [exact Hws|]. split; [apply mono_refl|]. lia. }
  destruct Hws as [Hl H3].
  destruct (Z.eqb_spec (col_span cell) 1) as [E1|E1].
  - destruct (getitem_ok ws (col cell)) as (w & Hw & ->); [unfold zlen; lia|]. cbn [xbind].
    destruct (widths_set_ok cols ws (col cell) (Z.max w (zlen (text cell))))
      as (ws' & -> & Hok & Hat & Hmono); [split; auto|lia|intros w' Hw'; rewrite Hw in Hw'; injection Hw' as <-; lia|].
    exists ws'. split; [reflexivity|]. split; [exact Hok|]. split; [exact Hmono|].
    intros _ _. exists (Z.max w (zlen (text cell))). split; [exact Hat|lia].
  - destruct (Z.eqb_spec (col_span cell) 0) as [E0|E0]; [exfalso; apply Hspan; lia|].
    cbv zeta.
    destruct (xfold_inv (fun ws' => widths_ok cols ws' /\ mono ws ws')
      (fun ws c => let! w := getitem ws c in
                   setitem ws c (Z.max w (zlen (text cell) / col_span cell)))
      ws (range (col cell) (Z.min (col cell + col_span cell) cols)))
      as (ws' & E & Hok & Hmono).
    + split; [split; auto|apply mono_refl].
    + intros a c Hin ((Hla & H3a) & Hma). apply in_range in Hin.
      destruct (getitem_ok a c) as (w & Hw & ->); [unfold zlen; lia|]. cbn [xbind].
      destruct (widths_set_ok cols a c (Z.max w (zlen (text cell) / col_span cell)))
        as (a' & -> & Hok & _ & Hm); [split; auto|lia|intros w' Hw'; rewrite Hw in Hw'; injection Hw' as <-; lia|].
      exists a'. split; [reflexivity|]. split; [exact Hok|]. exact (mono_trans _ _ _ Hma Hm).
    + exists ws'. split; [exact E|]. split; [exact Hok|]. split; [exact Hmono|]. lia.
Qed.

Lemma widths_phase_ok cols cs ws :
  widths_ok cols ws ->
  (forall cell, In cell cs -> 0 <= col cell /\ (col cell < cols -> col_span cell <> 0)) ->
  exists ws', xfold (widths_cell cols) ws cs = XOk ws' /\ widths_ok cols ws' /\ mono ws ws'
    /\ forall cell, In cell cs -> col_span cell = 1 -> col cell < cols ->
       exists w, ws' !! Z.to_nat (col cell) = Some w /\ zlen (text cell) <= w.
Proof.
  revert ws. induction cs as [|cell cs IH]; intros ws Hws Hcs.
  - exists ws. split; [reflexivity|]. split; [exact Hws|]. split; [apply mono_refl|].
    intros _ [].
  - destruct (Hcs cell (or_introl eq_refl)) as [Hc Hs].
    destruct (widths_cell_step cols ws cell Hws Hc Hs) as (ws1 & E1 & Hok1 & Hm1 & Hb1).
    destruct (IH ws1 Hok1 (fun c Hin => Hcs c (or_intror Hin))) as (ws2 & E2 & Hok2 & Hm2 & Hb2).
    exists ws2. cbn [xfold]. rewrite E1. cbn [xbind]. split; [exact E2|].
    split; [exact Hok2|]. split; [exact (mono_trans _ _ _ Hm1 Hm2)|].
    intros c [<-|Hin] Hsp Hlt; [|exact (Hb2 c Hin Hsp Hlt)].
    destruct (Hb1 Hsp Hlt) as (w & Hw & Hle). destruct (Hm2 _ _ Hw) as (w' & Hw' & Hle').
    exists w'. split; [exact Hw'|lia].
Qed.

Lemma widths_cell_result cols ws cell :
  widths_ok cols ws -> 0 <= col cell ->
  widths_cell cols ws cell = XErr ZeroDivisionError
  \/ exists ws', widths_cell cols ws cell = XOk ws' /\ widths_ok cols ws'.
Proof.
  intros Hws Hc. destruct (decide (col cell < cols /\ col_span cell = 0)) as [[Hlt H0]|Hn].
  - left. unfold widths_cell. destruct (Z.geb_spec (col cell) cols); [lia|]. rewrite H0. reflexivity.
  - right. destruct (widths_cell_step cols ws cell Hws Hc) as (ws' & E & Hok & _); [lia|].
    exists ws'. auto.
Qed.

Lemma widths_init cols : widths_ok cols (repeat 3 (Z.to_nat cols)).
Proof.
  split; [apply repeat_length|]. intros j w Hj. apply lookup_repeat in Hj. lia.
Qed.


Lemma length_join sep ps : ps <> [] ->
  length (join sep ps) = (sum_list_with length ps + length sep * (length ps - 1))%nat.
Proof.
  induction ps as [|p ps IH]; intros Hne; [congruence|].
  destruct ps as [|q ps]; [simpl; lia|].
  change (join sep (p :: q :: ps)) with (p ++ sep ++ join sep (q :: ps)).
  rewrite !length_app, IH by discriminate. simpl. lia.
Qed.

Lemma length_hline l m r ws : ws <> [] -> Forall (fun w => 0 <= w) ws ->
  length (hline l m r ws) = (sum_list_with Z.to_nat ws + 3 * length ws + 1)%nat.
Proof.
  intros Hne Hw. unfold hline. rewrite !length_app, length_join by (destruct ws; simpl; congruence).
  rewrite length_map. simpl.
  assert (Hs : sum_list_with length (map (fun w => repeat 9472 (Z.to_nat (w + 2))) ws)
               = (sum_list_with Z.to_nat ws + 2 * length ws)%nat).
  { clear Hne. induction Hw as [|w ws Hw0 Hw IH]; [reflexivity|]. simpl.
    rewrite repeat_length, IH. lia. }
  rewrite Hs. destruct ws; [congruence|]. simpl. lia.
Qed.

Lemma length_ljust s w : 0 <= w -> (length s <= Z.to_nat w)%nat ->
  length (ljust s w) = Z.to_nat w.
Proof.
  intros Hw Hs. unfold ljust, zlen. rewrite length_app, repeat_length. lia.
Qed.

Lemma sum_ljust texts ws :
  length texts = length ws -> Forall (fun w => 0 <= w) ws ->
  (forall j s w, texts !! j = Some s -> ws !! j = Some w -> (length s <= Z.to_nat w)%nat) ->
  sum_list_with length (zip_with ljust texts ws) = sum_list_with Z.to_nat ws
  /\ length (zip_with ljust texts ws) = length ws.
Proof.
  revert ws. induction texts as [|s texts IH]; intros ws Hl Hw Hb;
    destruct ws as [|w ws]; try discriminate; [split; reflexivity|].
  inversion Hw as [|? ? Hw0 Hws]; subst.
  destruct (IH ws ltac:(simpl in Hl; lia) Hws (fun j => Hb (S j))) as [H1 H2].
  simpl. rewrite H1, H2, length_ljust by (auto; exact (Hb 0%nat s w eq_refl eq_refl)).
  split; reflexivity.
Qed.

Lemma length_row_line texts ws : ws <> [] ->
  length texts = length ws -> Forall (fun w => 0 <= w) ws ->
  (forall j s w, texts !! j = Some s -> ws !! j = Some w -> (length s <= Z.to_nat w)%nat) ->
  length (row_line texts ws) = (sum_list_with Z.to_nat ws + 3 * length ws + 1)%nat.
Proof.
  intros Hne Hl Hw Hb. destruct (sum_ljust texts ws Hl Hw Hb) as [H1 H2].
  unfold row_line. rewrite !length_app, length_join.
  - rewrite H1, H2. destruct ws; [congruence|]. simpl. lia.
  - intros E. apply (f_equal length) in E. rewrite H2 in E. destruct ws; [congruence|].
    discriminate.
Qed.

Lemma range_S a n : range a (a + Z.of_nat (S n)) = range a (a + Z.of_nat n) ++ [a + Z.of_nat n].
Proof.
  unfold range. replace (Z.to_nat (a + Z.of_nat (S n) - a)) with (S n) by lia.
  replace (Z.to_nat (a + Z.of_nat n - a)) with n by lia.
  rewrite seq_S, map_app. reflexivity.
Qed.

Lemma length_row_lines (f : Z -> pystr) (h : pystr) rows m :
  (m <= Z.to_nat rows)%nat ->
  length (concat (map (fun r => [f r] ++ (if r <? rows - 1 then [h] else []))
                      (range 0 (0 + Z.of_nat m))))
  = (m + Nat.min m (Z.to_nat rows - 1))%nat.
Proof.
  induction m as [|m IH]; intros Hm; [reflexivity|].
  rewrite range_S, map_app, concat_app, length_app, IH by lia. cbn [map concat length app].
  destruct (Z.ltb_spec (0 + Z.of_nat m) (rows - 1)); cbn [length app]; lia.
Qed.

Lemma lookup_map_some {A B} (h : A -> B) l i y :
  map h l !! i = Some y -> exists x, l !! i = Some x /\ y = h x.
Proof.
  revert i. induction l as [|x l IH]; intros i H; [discriminate|].
  destruct i as [|i]; [injection H as <-; eauto|exact (IH i H)].
Qed.

Lemma nth_map_some {A B} (h : A -> B) l i x d :
  l !! i = Some x -> nth i (map h l) d = h x.
Proof.
  revert i. induction l as [|y l IH]; intros i H; [discriminate|].
  destruct i as [|i]; [injection H as <-; reflexivity|exact (IH i H)].
Qed.

Lemma widths_nonneg cols ws : widths_ok cols ws -> Forall (fun w => 0 <= w) ws.
Proof.
  intros [_ H3]. apply Forall_lookup. intros j w Hj. specialize (H3 j w Hj). lia.
Qed.



End RenderFacts.

(* ================================================================== *)
Module ConvertFacts.
Import Clean Ole Parser Formats OleFacts FormatFacts Exn OleLoad Render Convert ConvertShapes.

Lemma uint_digits_inj u v : uint_digits u = uint_digits v -> u = v.
Proof.
  revert v. induction u; destruct v; cbn [uint_digits]; intros H;
    try discriminate; try reflexivity; injection H as H; f_equal; auto.
Qed.

Lemma py_str_nat_inj m n : py_str_nat m = py_str_nat n -> m = n.
Proof.
  unfold py_str_nat. intros H. apply uint_digits_inj in H.
  apply DecimalNat.Unsigned.to_uint_inj, H.
Qed.

Lemma section_name_inj m n : section_name m = section_name n -> m = n.
Proof. unfold section_name. intros H. apply app_inv_head in H. apply py_str_nat_inj, H. Qed.

Lemma NoDup_list_streams st : NoDup (list_streams st).
Proof.
  unfold list_streams. rewrite (merge_sort_Permutation _ _).
  apply NoDup_fst_map_to_list.
Qed.

Lemma read_stream_listed st p d : read_stream st p = Ok d -> p ∈ list_streams st.
Proof.
  intros H. apply list_elem_of_In, in_list_streams. unfold read_stream in H.
  destruct (dir_lookup st !! p); [eexists; reflexivity|discriminate].
Qed.

Lemma sections_bound st k :
  (forall i, (i < k)%nat -> section_name i ∈ list_streams st) ->
  (k <= length (list_streams st))%nat.
Proof.
  intros H. rewrite <- (length_seq k 0), <- (length_map section_name (seq 0 k)).
  apply NoDup_incl_length.
  - apply NoDup_ListNoDup, NoDup_fmap_2; [intros ? ? ?; apply section_name_inj; auto|].
    apply NoDup_ListNoDup, seq_NoDup.
  - intros x Hx. apply in_map_iff in Hx as (i & <- & Hi). apply in_seq in Hi.
    apply list_elem_of_In, H. lia.
Qed.

Section Conv.
Variable zd : Z -> bytes -> option bytes.


Lemma sections_loop_ok fuel st idx k ps ts log data :
  (forall i, (i < k)%nat -> read_stream st (section_name (idx + i)) = Ok (data (idx + i)%nat)) ->
  section_name (idx + k) ∉ list_streams st ->
  (k < fuel)%nat ->
  sections_loop zd fuel st idx ps ts log
  = (Ok (ps ++ concat (map (fun i => fst (sec_records zd data i)) (seq idx k)),
         ts ++ concat (map (fun i => snd (sec_records zd data i)) (seq idx k))),
     log ++ map section_name (seq idx k)).
Proof.
  revert fuel idx ps ts log. induction k as [|k IH]; intros fuel idx ps ts log Hr Hn Hf.
  - destruct fuel as [|fuel]; [lia|]. rewrite Nat.add_0_r in Hn. cbn [sections_loop].
    rewrite bool_decide_eq_false_2 by exact Hn. cbn. rewrite !app_nil_r. reflexivity.
  - destruct fuel as [|fuel]; [lia|]. cbn [sections_loop].
    pose proof (Hr 0%nat ltac:(lia)) as H0. rewrite Nat.add_0_r in H0.
    rewrite bool_decide_eq_true_2 by exact (read_stream_listed _ _ _ H0). cbn [negb].
    unfold extract_content_from_section.
    rewrite bool_decide_eq_true_2 by exact (read_stream_listed _ _ _ H0). cbn [negb].
    unfold io_bind at 1, io_bind at 1, io_read_stream. rewrite H0. cbn [io_ret fst snd].
    rewrite IH; [|intros i Hi; replace (S idx + i)%nat with (idx + S i)%nat by lia; apply Hr; lia
                |replace (S idx + k)%nat with (idx + S k)%nat by lia; exact Hn|lia].
    cbn [seq map concat]. rewrite <- !app_assoc. reflexivity.
Qed.

(** What [read_document] reads and returns when the metadata and the
    first [k] sections are read without error. *)
Lemma read_document_ok st m mlog k data :
  read_hwp_metadata st [] = (Ok m, mlog) ->
  (forall i, (i < k)%nat -> read_stream st (section_name i) = Ok (data i)) ->
  section_name k ∉ list_streams st ->
  read_document zd st []
  = (Ok (concat (map (fun i => fst (sec_records zd data i)) (seq 0 k)),
         concat (map (fun i => snd (sec_records zd data i)) (seq 0 k))),
     mlog ++ map section_name (seq 0 k)).
Proof.
  intros Hm Hr Hn. unfold read_document, io_bind. rewrite Hm.
  rewrite (sections_loop_ok _ _ _ k _ _ _ data); [reflexivity|exact Hr|exact Hn|].
  apply Nat.lt_succ_r, sections_bound. intros i Hi. eapply read_stream_listed, Hr, Hi.
Qed.

Lemma read_hwp_metadata_log st log :
  snd (read_hwp_metadata st log)
  = log ++ (if bool_decide (str "FileHeader" ∈ list_streams st) then [str "FileHeader"] else []).
Proof.
  unfold read_hwp_metadata. destruct (bool_decide _); cbn [negb].
  - unfold io_bind, io_read_stream. destruct (read_stream _ _); cbn [snd].
    + destruct (negb _); reflexivity.
    + reflexivity.
  - rewrite app_nil_r. reflexivity.
Qed.

End Conv.

Lemma table_blocks_ok i ts ss :
  map to_text ts = map XOk ss ->
  table_blocks i ts = XOk (concat (zip_with (fun j s => [table_header j; s]) (seq i (length ss)) ss)).
Proof.
  revert i ss. induction ts as [|t ts IH]; intros i [|s ss] H; try discriminate; [reflexivity|].
  cbn [map] in H. injection H as Ht Hts. cbn [table_blocks]. rewrite Ht. cbn [xbind].
  rewrite (IH (S i) ss Hts). reflexivity.
Qed.

Lemma table_blocks_err i ts j t e :
  ts !! j = Some t -> to_text t = XErr e ->
  (forall j' t', (j' < j)%nat -> ts !! j' = Some t' -> exists s, to_text t' = XOk s) ->
  table_blocks i ts = XErr e.
Proof.
  revert i j. induction ts as [|t0 ts IH]; intros i j Hj Ht Hbefore; [discriminate|].
  cbn [table_blocks]. destruct j as [|j].
  - injection Hj as ->. rewrite Ht. reflexivity.
  - destruct (Hbefore 0%nat t0 ltac:(lia) eq_refl) as [s Hs]. rewrite Hs. cbn [xbind].
    rewrite (IH (S i) j Hj Ht); [reflexivity|].
    intros j' t' Hj' Ht'. apply (Hbefore (S j')); [lia|exact Ht'].
Qed.

Lemma join_startswith p rest q :
  startswith p q = true -> startswith (join [10; 10] (p :: rest)) q = true.
Proof.
  unfold startswith. rewrite !bool_decide_eq_true. intros H.
  destruct rest as [|r rest]; [exact H|]. cbn [join].
  rewrite firstn_app. assert (Hl : (length q <= length p)%nat).
  { rewrite <- H at 1. rewrite length_firstn. lia. }
  replace (length q - length p)%nat with 0%nat by lia. rewrite firstn_O, app_nil_r. exact H.
Qed.

Lemma extract_full_text_ok zd es depth fs path contents st m k data ss :
  fs path = Some contents ->
  ole_open depth contents = XOk st ->
  fst (read_hwp_metadata st []) = Ok m ->
  (forall i, (i < k)%nat -> read_stream st (section_name i) = Ok (data i)) ->
  section_name k ∉ list_streams st ->
  map to_text (concat (map (fun i => snd (extract_records (section_input zd (data i)))) (seq 0 k)))
    = map XOk ss ->
  extract_full_text_from_hwp zd es depth fs path
  = join [10; 10] (concat (map (fun i => fst (extract_records (section_input zd (data i)))) (seq 0 k))
                   ++ concat (zip_with (fun j s => [table_header j; s]) (seq 1 (length ss)) ss)).
Proof.
  intros Hfs Ho Hm Hr Hn Ht. unfold extract_full_text_from_hwp. rewrite Hfs, Ho. cbn [xbind].
  destruct (read_hwp_metadata st []) as [r mlog] eqn:Em. cbn [fst] in Hm. subst r.
  rewrite (read_document_ok zd st m mlog k data Em Hr Hn). cbn [fst lift xbind snd].
  unfold render_document, sec_records. rewrite (table_blocks_ok 1 _ ss Ht). reflexivity.
Qed.

End ConvertFacts.


(* ================================================================== *)
(** ** The claims *)

Module Claims.
Import Byte Clean Ole Parser Inputs CleanFacts OleFacts ParserFacts.

(** C1 (code_bug).  A cell's text is meant to gather the PARA_TEXT records
    after the cell header, up to the end of the LIST_HEADER record; the code
    scans from [cell_pos + size] to [new_pos + size], the same offset, so
    every cell comes out with empty text.  On a TABLE whose LIST_HEADER
    holds a PARA_TEXT record with [A] after its 26-byte cell header, the
    cell's text is empty. *)
Theorem cell_text_never_collected :
  (forall data pos end_ level c,
     In c (parse_cell_list data pos end_ level) -> text c = []) /\
  read_record_header (table_section 0 0 1 1 cell_para) 42
    = Some (HWPTAG_PARA_TEXT, 2, 2, 46) /\
  parse_para_text_chunks (slice (table_section 0 0 1 1 cell_para) 46 48) = [[65]] /\
  extract_records (table_section 0 0 1 1 cell_para)
    = ([], [{| row_count := 1; col_count := 1;
               cells := [{| col := 0; row := 0; col_span := 1; row_span := 1;
                            text := [] |}] |}]).
Proof.
  split; [exact parse_cell_list_text|].
  split; [vm_compute; reflexivity|].
  split; vm_compute; reflexivity.
Qed.

Lemma cell_text_never_collected_witness :
  In {| col := 0; row := 0; col_span := 1; row_span := 1; text := [] |}
     (parse_cell_list (table_section 0 0 1 1 cell_para) 12 48 0)
  /\ text {| col := 0; row := 0; col_span := 1; row_span := 1; text := [] |} = [].
Proof.
  split; [vm_compute; left; reflexivity|].
  apply (proj1 cell_text_never_collected (table_section 0 0 1 1 cell_para) 12 48 0).
  vm_compute. left. reflexivity.
Defined.

(** C2 (counterexample).  A listed 5000-byte stream whose FAT chain holds
    a single 512-byte sector reads as 512 bytes, not 5000. *)
Lemma read_stream_size_counterexample :
  ~ (forall p e b, In p (list_streams short_store) ->
       dir_lookup short_store !! p = Some e ->
       read_stream short_store p = Ok b -> zlen b = stream_size e).
Proof.
  intros H.
  assert (E : read_stream short_store (str "A") = Ok (repeat x41 512))
    by (vm_compute; reflexivity).
  specialize (H (str "A") entry_A _ ltac:(vm_compute; left; reflexivity)
                ltac:(vm_compute; reflexivity) E).
  vm_compute in H. discriminate.
Qed.

(** C2 (amended).  For a path of the lookup, [read_stream] returns empty
    bytes when the start sid is FREE_SECTOR/END_OF_CHAIN, the size is 0, or
    the mini route is taken with an empty MiniFAT or MiniStream.  Otherwise
    the result is the concatenation of the sectors read along the chain
    [start, fat[start], ...] (no sid of it FREE/END, every sid but the last
    inside the table), stopped by [max_hops], by a FREE/END next sid or by a
    sid past the table, and truncated to [stream_size]: it is never longer
    than [stream_size] and shorter exactly when the chain is.  Any other
    path fails with [NotFound]. *)
Theorem read_stream_at_most_size (self : ole) (path : pystr) :
  match dir_lookup self !! path with
  | None => read_stream self path = Err NotFound
  | Some e =>
      let use_mini := stream_size e <? mini_stream_cutoff self in
      let fat' := if use_mini then minifat self else fat self in
      let read_one := if use_mini then read_mini_sector self else _read_sector self in
      let empty := is_end_sid (start_sector e) || (stream_size e =? 0)
                   || (use_mini && (bool_decide (minifat self = [])
                                    || bool_decide (mini_stream_data self = []))) in
      (empty = true -> read_stream self path = Ok []) /\
      forall b, read_stream self path = Ok b ->
        (length b <= Z.to_nat (stream_size e))%nat /\
        (empty = false ->
         exists sids secs,
           fat_chain fat' (start_sector e) sids
           /\ Forall (fun x => is_end_sid x = false) sids
           /\ Forall (fun x => x < zlen fat') (removelast sids)
           /\ Forall2 (fun s sec => read_one s = Ok sec) sids secs
           /\ (length sids = max_hops
               \/ is_end_sid (chain_next fat' (start_sector e) sids) = true
               \/ exists l0 x, sids = l0 ++ [x] /\ zlen fat' <= x)
           /\ b = firstn (Z.to_nat (stream_size e)) (concat secs)
           /\ length b = Nat.min (Z.to_nat (stream_size e)) (length (concat secs)))
  end.
Proof.
  destruct (dir_lookup self !! path) as [e|] eqn:Hl; [|unfold read_stream; rewrite Hl; reflexivity].
  cbv zeta. split.
  - intros Hempty. unfold read_stream, _read_chain. rewrite Hl.
    destruct (is_end_sid (start_sector e)); [reflexivity|].
    destruct (stream_size e =? 0); [reflexivity|].
    simpl in Hempty. rewrite Hempty. reflexivity.
  - intros b H. split.
    + revert H. unfold read_stream. rewrite Hl.
      destruct (_ || _); [intros H; injection H as <-; simpl; lia|].
      apply read_chain_length.
    + intros Hne. revert H. unfold read_stream, _read_chain. rewrite Hl.
      destruct (is_end_sid (start_sector e)); [discriminate|].
      destruct (stream_size e =? 0); [discriminate|].
      simpl in Hne. rewrite Hne. simpl orb. cbv iota.
      destruct (chain_loop _ _ _ _ _ _) as [[[[sid' data] h'] tr']|err] eqn:Hc;
        simpl; [|discriminate].
      intros H. injection H as <-.
      destruct (ScanFacts.chain_loop_run _ _ _ _ _ _ _ _ _ _ Hc)
        as (new & secs & _ & Hch & Hend & Hlt & Hrd & Hout & Hstop).
      exists (rev new), secs. rewrite length_rev. simpl in Hout. subst data.
      rewrite ScanFacts.firstn_min_zlen, length_firstn.
      repeat split; auto.
Qed.

Lemma read_stream_at_most_size_witness :
  read_stream short_store (str "A") = Ok (repeat x41 512)
  /\ (length (repeat x41 512) <= Z.to_nat (stream_size entry_A))%nat
  /\ exists sids secs, sids = [0] /\ Forall2 (fun s sec => _read_sector short_store s = Ok sec) sids secs
      /\ repeat x41 512 = firstn (Z.to_nat (stream_size entry_A)) (concat secs).
Proof.
  assert (E : read_stream short_store (str "A") = Ok (repeat x41 512))
    by (vm_compute; reflexivity).
  pose proof (read_stream_at_most_size short_store (str "A")) as H.
  change (dir_lookup short_store !! str "A") with (Some entry_A) in H.
  cbv zeta in H. destruct H as [_ H].
  destruct (H _ E) as [Hlen Hch].
  assert (Hne : (is_end_sid (start_sector entry_A) || (stream_size entry_A =? 0)
     || ((stream_size entry_A <? mini_stream_cutoff short_store)
         && (bool_decide (minifat short_store = [])
             || bool_decide (mini_stream_data short_store = [])))) = false)
    by (vm_compute; reflexivity).
  destruct (Hch Hne) as (sids & secs & Hfc & Hend & _ & Hrd & _ & Hb & _).
  split; [exact E|]. split; [exact Hlen|].
  exists sids, secs. split; [|split; [exact Hrd|exact Hb]].
  destruct sids as [|s sids]; [inversion Hrd; subst; vm_compute in Hb; discriminate|].
  destruct Hfc as [-> Hfc].
  destruct sids as [|s' sids]; [reflexivity|].
  destruct Hfc as [-> _]. inversion Hend as [|? ? _ Hend']; subst.
  inversion Hend' as [|? ? Hx _]; subst. vm_compute in Hx. discriminate.
Defined.
(** C3 (counterexample).  A cell with [col_span = 0] and [col = 5] in a
    1 x 1 table is emitted as it is. *)
Lemma cell_span_counterexample :
  ~ (forall T c, In T (snd (extract_records (table_section 5 0 0 1 (repeat x00 6)))) ->
       In c (cells T) -> 1 <= col_span c /\ 1 <= row_span c).
Proof.
  intros H.
  assert (E : extract_records (table_section 5 0 0 1 (repeat x00 6))
              = ([], [{| row_count := 1; col_count := 1;
                         cells := [{| col := 5; row := 0; col_span := 0; row_span := 1;
                                      text := [] |}] |}]))
    by (vm_compute; reflexivity).
  rewrite E in H. simpl in H.
  destruct (H _ _ (or_introl eq_refl) (or_introl eq_refl)) as [H1 _].
  simpl in H1. lia.
Qed.

(** C3 (amended).  Every emitted cell carries four u16 values as read;
    every LIST_HEADER child at [level + 1] with 26 bytes available that
    the scan of [parse_cell_list] reaches (the record at [pos], or at the
    position [cell_scan n] after [n] earlier records) yields its cell, and a TABLE record with non-zero counts and some cells
    is emitted with all of them: nothing is checked against [row_count] or
    [col_count] at parse time. *)
Theorem cells_unchecked_on_parse :
  (forall data T c, In T (snd (extract_records data)) -> In c (cells T) -> cell_u16 c) /\
  (forall data pos end_ level n p size new_pos,
     0 <= pos -> cell_scan n data pos end_ = Some p -> p < end_ ->
     read_record_header data p = Some (HWPTAG_LIST_HEADER, level + 1, size, new_pos) ->
     new_pos + size <= zlen data -> new_pos + 26 <= zlen data ->
     In {| col := u16_at data new_pos; row := u16_at data (new_pos + 2);
           col_span := u16_at data (new_pos + 4); row_span := u16_at data (new_pos + 6);
           text := join [32] (cell_text_loop (S (length data)) data (new_pos + size)
                                (new_pos + size) []) |}
        (parse_cell_list data pos end_ level)) /\
  (forall fuel data pos paras tables nchars lv size new_pos rows cols tpos,
     pos < zlen data ->
     read_record_header data pos = Some (HWPTAG_TABLE, lv, size, new_pos) ->
     new_pos + size <= zlen data ->
     parse_table_header data new_pos = (rows, cols, tpos) -> 0 < rows -> 0 < cols ->
     parse_cell_list data tpos (new_pos + size) lv <> [] ->
     In {| row_count := rows; col_count := cols;
           cells := parse_cell_list data tpos (new_pos + size) lv |}
        (snd (records_loop (S fuel) data pos paras tables nchars))).
Proof.
  split; [|split].
  - intros data. unfold extract_records.
    apply records_loop_tables; [intros T c []|]. apply parse_cell_list_u16.
  - intros data pos end_ level n p size new_pos H0 Hs Hp Hrec Hsz H26.
    assert (Hn : (n < S (length data))%nat).
    { destruct (ScanFacts.cell_scan_advance _ _ _ _ _ Hs) as [Ha Hb].
      destruct n as [|n]; [lia|]. specialize (Hb ltac:(discriminate)).
      unfold zlen in Hb. lia. }
    unfold parse_cell_list.
    apply (ScanFacts.cell_list_loop_scan _ n data pos end_ level [] p); [exact Hs|exact Hn|].
    intros cells. destruct (S (length data) - n)%nat as [|fuel] eqn:Ef; [lia|].
    cbn [cell_list_loop].
    rewrite (proj2 (Z.ltb_lt _ _) Hp), Hrec.
    rewrite (proj2 (Z.ltb_ge _ _)) by lia.
    unfold HWPTAG_LIST_HEADER. rewrite !Z.eqb_refl. simpl andb.
    rewrite (proj2 (Z.leb_le _ _) H26).
    apply cell_list_loop_prefix_in. apply in_or_app. right. left. reflexivity.
  - intros fuel data pos paras tables nchars lv size new_pos rows cols tpos
      Hpos Hrec Hsz Hth Hr Hc Hne.
    cbn [records_loop]. rewrite (proj2 (Z.ltb_lt _ _) Hpos), Hrec.
    rewrite (proj2 (Z.ltb_ge _ _)) by lia.
    unfold HWPTAG_TABLE, HWPTAG_PARA_TEXT, HWPTAG_BEGIN. simpl Z.eqb. cbv iota beta zeta.
    rewrite Hth. rewrite (proj2 (Z.gtb_lt _ _) Hr), (proj2 (Z.gtb_lt _ _) Hc). simpl andb.
    destruct (parse_cell_list data tpos (new_pos + size) lv) as [|c0 cs] eqn:E;
      [congruence|].
    apply records_loop_prefix_in. apply in_or_app. right. left. reflexivity.
Qed.

Lemma cells_unchecked_on_parse_witness :
  cell_scan 1 list_cells 0 60 = Some 30 /\
  In {| col := u16_at list_cells 34; row := u16_at list_cells (34 + 2);
        col_span := u16_at list_cells (34 + 4); row_span := u16_at list_cells (34 + 6);
        text := join [32] (cell_text_loop (S (length list_cells)) list_cells (34 + 26)
                             (34 + 26) []) |}
     (parse_cell_list list_cells 0 60 0).
Proof.
  split; [vm_compute; reflexivity|].
  destruct cells_unchecked_on_parse as [_ [H _]].
  apply (H list_cells 0 60 0 1%nat 30 26 34);
    [lia|vm_compute; reflexivity|lia|vm_compute; reflexivity
    |vm_compute; congruence|vm_compute; congruence].
Defined.

(** C4 (counterexample).  A stream whose directory entry starts at sid 0
    is read from sector 0: it does not come out empty. *)
Lemma read_stream_sid0_counterexample :
  ~ (forall p e, dir_lookup short_store !! p = Some e ->
       (start_sector e = 0 \/ stream_size e = 0) -> read_stream short_store p = Ok []).
Proof.
  intros H.
  assert (E : read_stream short_store (str "A") = Ok (repeat x41 512))
    by (vm_compute; reflexivity).
  rewrite (H (str "A") entry_A ltac:(vm_compute; reflexivity) (or_introl eq_refl)) in E.
  discriminate.
Qed.

(** C4 (amended).  For a looked-up entry, [read_stream] returns empty bytes
    when the starting sid is FREE_SECTOR or END_OF_CHAIN or the size is
    zero; otherwise it reads the chain through the MiniFAT/MiniStream
    exactly when [stream_size < mini_stream_cutoff], through the regular
    FAT otherwise.  A starting sid of zero is an ordinary sector. *)
Theorem read_stream_routing (self : ole) (path : pystr) (e : dir_entry) :
  dir_lookup self !! path = Some e ->
  read_stream self path =
    if is_end_sid (start_sector e) || (stream_size e =? 0) then Ok []
    else _read_chain self (start_sector e) (Some (stream_size e))
           (stream_size e <? mini_stream_cutoff self).
Proof.
  intros H. unfold read_stream. rewrite H. reflexivity.
Qed.

Lemma read_stream_routing_witness :
  dir_lookup short_store !! str "A" = Some entry_A /\
  read_stream short_store (str "A") = _read_chain short_store 0 (Some 5000) false.
Proof.
  split; [vm_compute; reflexivity|].
  exact (read_stream_routing short_store (str "A") entry_A
           ltac:(vm_compute; reflexivity)).
Defined.

(** C5.  The PARA_TEXT payload [41 00 09 00 <14 bytes> 42 00] is chunked
    into [A] and [B] whatever the 14 filler bytes; a section holding it as
    its one record yields the paragraphs [A] and [B] when no decompression
    mode accepts the section bytes (zlib refuses them: [43 00] is no zlib
    header, and as raw deflate the first code is a back-reference into an
    empty window). *)
Theorem s3_control_skip (filler : bytes) :
  length filler = 14%nat ->
  parse_para_text_chunks (s3_payload filler) = [[65]; [66]] /\
  forall zlib, (forall w, In w WBITS -> zlib w (s3_section filler) = None) ->
    extract_records (section_input zlib (s3_section filler)) = ([[65]; [66]], []).
Proof.
  intros Hlen.
  do 14 (destruct filler as [|? filler]; [discriminate|]).
  destruct filler; [|discriminate].
  split; [vm_compute; reflexivity|].
  intros zlib Hz. rewrite (section_input_fail zlib _ Hz).
  vm_compute. reflexivity.
Qed.

Lemma s3_control_skip_witness :
  parse_para_text_chunks (s3_payload (repeat xff 14)) = [[65]; [66]] /\
  extract_records (section_input (fun _ _ => None) (s3_section (repeat xff 14)))
    = ([[65]; [66]], []).
Proof.
  destruct (s3_control_skip (repeat xff 14) eq_refl) as [H1 H2].
  split; [exact H1|]. apply H2. intros w _. reflexivity.
Defined.

(** C6.  The chain loop of [_read_chain], from any start sector, with any
    FAT and any sector reader, stops after at most [max_hops] (= 1,000,000)
    sector reads, at a reserved sid, at an index out of the FAT or with the
    hops exhausted; the sectors read follow the FAT from the start, cycles
    included.  When it stops with an error, the error is one raised by the
    sector reader. *)
Theorem read_chain_bounded (read_one : Z -> result bytes) (fat : list Z) (start : Z) :
  Z.of_nat max_hops = 1000000 /\
  match chain_loop read_one fat max_hops start [] [] with
  | Ok (sid, _, hops, trace) =>
      (length trace <= max_hops)%nat /\ (hops <= max_hops)%nat
      /\ fat_chain fat start (rev trace)
      /\ (is_end_sid sid = true \/ hops = O \/ zlen fat <= sid)
  | Err e => exists s, read_one s = Err e
  end.
Proof.
  split; [reflexivity|].
  destruct (chain_loop read_one fat max_hops start [] []) as [[[[sid out] hops] tr]|e] eqn:E.
  - destruct (chain_loop_spec _ _ _ _ _ _ _ _ _ _ E)
      as (new & Htr & Hlen & Hh & Hch & Hexit).
    rewrite app_nil_r in Htr. subst tr. auto.
  - exact (chain_loop_err _ _ _ _ _ _ _ E).
Qed.

(** C7.  [clean_hwp_text] is idempotent in body mode and in table mode. *)
Theorem clean_idempotent (s : pystr) (in_table : bool) :
  clean_hwp_text (clean_hwp_text s in_table) in_table = clean_hwp_text s in_table.
Proof.
  destruct in_table.
  - rewrite (clean_table_fix _ (clean_table_good s)).
    destruct (clean_strip s true) as [x Hx]. rewrite Hx. apply strip_idem.
  - rewrite (clean_body_fix _ (clean_body_good s)).
    destruct (clean_strip s false) as [x Hx]. rewrite Hx. apply strip_idem.
Qed.

(** C8.  For a listed section, [extract_content_from_section] reads it and
    parses the bytes chosen by [section_input]: decompression is tried with
    wbits -15, then 15, then 0, stopping at the first success, whose output
    is parsed; when all three fail the raw bytes are parsed.  (The code
    tries this for every section, whatever the compression flag.) *)
Theorem section_decompress_order (zlib : Z -> bytes -> option bytes) (st : ole)
    (name : pystr) (raw : bytes) (log : list pystr) :
  In name (list_streams st) -> read_stream st name = Ok raw ->
  extract_content_from_section zlib st name log
    = (Ok (extract_records (section_input zlib raw)), log ++ [name]) /\
  (forall d, zlib (-15) raw = Some d ->
     try_decompress zlib WBITS raw = ([-15], Some d) /\ section_input zlib raw = d) /\
  (forall d, zlib (-15) raw = None -> zlib 15 raw = Some d ->
     try_decompress zlib WBITS raw = ([-15; 15], Some d) /\ section_input zlib raw = d) /\
  (forall d, zlib (-15) raw = None -> zlib 15 raw = None -> zlib 0 raw = Some d ->
     try_decompress zlib WBITS raw = ([-15; 15; 0], Some d) /\ section_input zlib raw = d) /\
  (zlib (-15) raw = None -> zlib 15 raw = None -> zlib 0 raw = None ->
     try_decompress zlib WBITS raw = ([-15; 15; 0], None) /\ section_input zlib raw = raw).
Proof.
  intros Hin Hread.
  split.
  - unfold extract_content_from_section.
    rewrite (bool_decide_eq_true_2 _ (proj2 (list_elem_of_In _ _) Hin)). simpl.
    unfold io_bind, io_read_stream. rewrite Hread. reflexivity.
  - unfold section_input, WBITS. simpl.
    repeat split; intros; repeat match goal with H : zlib _ raw = _ |- _ => rewrite H; clear H end;
      reflexivity.
Qed.

Lemma section_decompress_order_witness :
  In (str "BodyText/Section0") (list_streams mini_store) /\
  extract_content_from_section (fun _ _ => None) mini_store (str "BodyText/Section0") []
    = (Ok (extract_records (s3_section (repeat x00 14))), [str "BodyText/Section0"]).
Proof.
  assert (Hin : In (str "BodyText/Section0") (list_streams mini_store))
    by (vm_compute; left; reflexivity).
  split; [exact Hin|].
  exact (proj1 (section_decompress_order (fun _ _ => None) mini_store
                  (str "BodyText/Section0") (s3_section (repeat x00 14)) [] Hin
                  ltac:(vm_compute; reflexivity))).
Defined.

(** C9.  [read_stream] fails with [NotFound] exactly when [exists] is
    false, that is exactly when the path is not listed by [list_streams]. *)
Theorem read_stream_notfound_iff (self : ole) (path : pystr) :
  (read_stream self path = Err NotFound <-> exists_ self path = false) /\
  (exists_ self path = false <-> ~ In path (list_streams self)).
Proof.
  split.
  - unfold read_stream, exists_. destruct (dir_lookup self !! path) as [e|].
    + split; [|discriminate]. intros H. exfalso.
      destruct (is_end_sid _ || _); [discriminate|].
      exact (read_chain_not_notfound _ _ _ _ H).
    + split; reflexivity.
  - rewrite in_list_streams. unfold exists_.
    destruct (dir_lookup self !! path); split; intros H.
    + discriminate.
    + exfalso. apply H. eexists; reflexivity.
    + intros [? ?]; discriminate.
    + reflexivity.
Qed.

(** C10.  Without a ["FileHeader"] in [list_streams], [read_hwp_metadata]
    returns [{version: None, compressed: None}], reads no stream and raises
    nothing. *)
Theorem metadata_without_fileheader (self : ole) (log : list pystr) :
  ~ In (str "FileHeader") (list_streams self) ->
  read_hwp_metadata self log = (Ok {| version := None; compressed := None |}, log).
Proof.
  intros H. unfold read_hwp_metadata.
  rewrite bool_decide_eq_false_2; [reflexivity|].
  rewrite list_elem_of_In. exact H.
Qed.

Lemma metadata_without_fileheader_witness :
  ~ In (str "FileHeader") (list_streams short_store) /\
  read_hwp_metadata short_store [] = (Ok {| version := None; compressed := None |}, []).
Proof.
  assert (H : ~ In (str "FileHeader") (list_streams short_store)).
  { vm_compute. intros [H|[]]. discriminate. }
  split; [exact H|]. exact (metadata_without_fileheader short_store [] H).
Defined.

End Claims.

(* ================================================================== *)
(** ** Further properties of the code *)

Module Extras.
Import Byte Clean Ole Parser Formats Inputs CleanFacts OleFacts ParserFacts FormatFacts.

(** X1: a record header read by [read_record_header] has a 10-bit tag, a
    10-bit level and a 32-bit size, and the returned position lies 4 bytes
    after [pos] (size below 0xFFF) or 8 bytes after it (extended size),
    never past the end of the data. *)

Theorem read_record_header_bounds data pos t l s np :
  read_record_header data pos = Some (t, l, s, np) ->
  0 <= t < 1024 /\ 0 <= l < 1024 /\ 0 <= s < 4294967296
  /\ pos + 4 <= np <= zlen data /\ ((np = pos + 4 /\ s < 4095) \/ np = pos + 8).
Proof.
  unfold read_record_header. intros H.
  destruct (Z.ltb_spec (zlen data) (pos + 4)); [discriminate|].
  set (h := u32_at data pos) in H. pose proof (u32_at_range data pos) as Hh.
  assert (Hm : forall x n, 0 <= n -> 0 <= Z.land x (Z.ones n) < 2 ^ n).
  { intros x n Hn. rewrite Z.land_ones by exact Hn. apply Z.mod_pos_bound. lia. }
  pose proof (Hm h 10 ltac:(lia)) as H1. pose proof (Hm (Z.shiftr h 10) 10 ltac:(lia)) as H2.
  pose proof (Hm (Z.shiftr h 20) 12 ltac:(lia)) as H3.
  change (Z.ones 10) with 1023 in H1, H2. change (Z.ones 12) with 4095 in H3.
  change (2 ^ 10) with 1024 in H1, H2. change (2 ^ 12) with 4096 in H3.
  destruct (Z.eqb_spec (Z.land (Z.shiftr h 20) 4095) 4095) as [E|E].
  - destruct (Z.ltb_spec (zlen data) (pos + 4 + 4)); [discriminate|].
    injection H as <- <- <- <-. pose proof (u32_at_range data (pos + 4)). lia.
  - injection H as <- <- <- <-. lia.
Qed.

Lemma read_record_header_bounds_witness :
  read_record_header (s3_section (repeat x00 14)) 0 = Some (67, 0, 20, 4)
  /\ (0 <= 67 < 1024 /\ 0 <= 0 < 1024 /\ 0 <= 20 < 4294967296
      /\ 0 + 4 <= 4 <= zlen (s3_section (repeat x00 14))
      /\ ((4 = 0 + 4 /\ 20 < 4095) \/ 4 = 0 + 8)).
Proof.
  assert (H : read_record_header (s3_section (repeat x00 14)) 0 = Some (67, 0, 20, 4))
    by (vm_compute; reflexivity).
  split; [exact H | exact (read_record_header_bounds _ _ _ _ _ _ H)].
Defined.

(** X2: [read_record_header] decodes what [struct.pack('<I')] wrote: a
    packed header [tag | level << 10 | size << 20] is read back as
    [(tag, level, size)], and the extended form (size field 0xFFF followed
    by a 32-bit size [n]) as [(tag, level, n)], wherever it sits in the
    data. *)

Theorem read_record_header_pack pre rest tag level size n :
  0 <= tag < 1024 -> 0 <= level < 1024 -> 0 <= size < 4095 -> 0 <= n < 4294967296 ->
  read_record_header (pre ++ pack_u32 (tag + level * 1024 + size * 1048576) ++ rest) (zlen pre)
    = Some (tag, level, size, zlen pre + 4) /\
  read_record_header (pre ++ pack_u32 (tag + level * 1024 + 4095 * 1048576) ++ pack_u32 n ++ rest)
    (zlen pre) = Some (tag, level, n, zlen pre + 8).
Proof.
  intros Ht Hl Hs Hn. unfold read_record_header. split.
  - rewrite u32_at_pack by lia.
    destruct (header_fields tag level size Ht Hl ltac:(lia)) as (-> & -> & ->).
    rewrite (proj2 (Z.ltb_ge _ _)) by (unfold zlen; rewrite !length_app; simpl; lia).
    destruct (Z.eqb_spec size 4095); [lia|]. reflexivity.
  - rewrite u32_at_pack by lia.
    destruct (header_fields tag level 4095 Ht Hl ltac:(lia)) as (-> & -> & ->).
    rewrite (proj2 (Z.ltb_ge _ _)) by (unfold zlen; rewrite !length_app; simpl; lia).
    rewrite Z.eqb_refl.
    rewrite (proj2 (Z.ltb_ge _ _)) by (unfold zlen; rewrite !length_app; simpl; lia).
    rewrite app_assoc.
    replace (zlen pre + 4) with (zlen (pre ++ pack_u32 (tag + level * 1024 + 4095 * 1048576)))
      by (unfold zlen; rewrite length_app; simpl; lia).
    rewrite u32_at_pack by lia. f_equal. f_equal. unfold zlen; rewrite length_app; simpl; lia.
Qed.

Lemma read_record_header_pack_witness :
  read_record_header ([x00] ++ pack_u32 (67 + 1 * 1024 + 20 * 1048576) ++ []) (zlen [x00])
    = Some (67, 1, 20, zlen [x00] + 4) /\
  read_record_header ([x00] ++ pack_u32 (67 + 1 * 1024 + 4095 * 1048576) ++ pack_u32 70000 ++ [])
    (zlen [x00]) = Some (67, 1, 70000, zlen [x00] + 8).
Proof. apply (read_record_header_pack [x00] [] 67 1 20 70000); lia. Defined.

(** X3: every table [extract_content_from_section] emits from a section
    has a row count and a column count in [1..65535] and at least one
    cell. *)
Theorem extract_records_tables_ok data T :
  In T (snd (extract_records data)) -> table_ok T.
Proof.
  unfold extract_records. apply records_loop_tables_ok. intros _ [].
Qed.

Lemma extract_records_tables_ok_witness :
  let T := nth 0 (snd (extract_records (table_section 0 0 1 1 cell_para)))
             {| row_count := 0; col_count := 0; cells := [] |} in
  In T (snd (extract_records (table_section 0 0 1 1 cell_para))) /\ table_ok T.
Proof.
  intros T.
  assert (H : In T (snd (extract_records (table_section 0 0 1 1 cell_para))))
    by (vm_compute; left; reflexivity).
  split; [exact H | exact (extract_records_tables_ok _ T H)].
Defined.

(** X4: [find_control_char] returns the first control pair (a code below
    32 followed by a zero byte) at an even offset from [start] on, with the
    end offset [i + 2 * size] given by [CONTROL_CHAR_SIZES] (1 for other
    codes); when there is none, it returns [(len(data), len(data))].  Pairs
    at odd offsets are skipped. *)

Theorem find_control_char_first_even data start : 0 <= start ->
  let '(i, e) := find_control_char data start in
  (i = zlen data /\ e = zlen data
   /\ forall k, start <= k -> Z.even k = true -> ctrl_at data k = false)
  \/ (start <= i /\ Z.even i = true /\ ctrl_at data i = true
      /\ (forall k, start <= k < i -> Z.even k = true -> ctrl_at data k = false)
      /\ e = i + 2 * ctrl_size (byte_at data i)).
Proof. exact (find_control_char_correct data start). Qed.

Lemma find_control_char_first_even_witness :
  0 <= 0 /\
  let '(i, e) := find_control_char (s3_payload (repeat x00 14)) 0 in
  (i = zlen (s3_payload (repeat x00 14)) /\ e = zlen (s3_payload (repeat x00 14))
   /\ forall k, 0 <= k -> Z.even k = true -> ctrl_at (s3_payload (repeat x00 14)) k = false)
  \/ (0 <= i /\ Z.even i = true /\ ctrl_at (s3_payload (repeat x00 14)) i = true
      /\ (forall k, 0 <= k < i -> Z.even k = true -> ctrl_at (s3_payload (repeat x00 14)) k = false)
      /\ e = i + 2 * ctrl_size (byte_at (s3_payload (repeat x00 14)) i)).
Proof. split; [lia | apply (find_control_char_first_even _ 0); lia]. Defined.

(** X5: a PARA_TEXT payload that is the UTF-16LE encoding of a nonempty
    run of characters from U+0020..U+FFFF outside the surrogate range is
    returned by [parse_para_text_chunks] as one chunk holding exactly those
    characters. *)

Theorem parse_chunks_plain us : us <> [] ->
  (forall u, In u us -> 32 <= u < 65536 /\ ~ (55296 <= u <= 57343)) ->
  parse_para_text_chunks (encode_utf16le us) = [us].
Proof.
  intros Hne H. set (data := encode_utf16le us).
  assert (Hlen : zlen data = 2 * Z.of_nat (length us))
    by (unfold data, zlen; rewrite length_encode; lia).
  assert (Hpos : 0 < zlen data) by (destruct us; [congruence|]; simpl in Hlen; lia).
  pose proof (find_control_char_correct data 0 ltac:(lia)) as Hf.
  assert (Hfc : find_control_char data 0 = (zlen data, zlen data)).
  { destruct (find_control_char data 0) as [i e].
    destruct Hf as [(-> & -> & _)|(_ & Hev & Hc & _)]; [reflexivity|].
    unfold data in Hc. rewrite (encode_no_ctrl us (fun u Hu => proj1 (H u Hu)) i Hev) in Hc.
    discriminate. }
  unfold parse_para_text_chunks. fold data.
  remember (length data) as n eqn:El. destruct n as [|n]; [unfold zlen in Hpos; lia|].
  cbn [chunks_loop].
  rewrite (proj2 (Z.ltb_lt _ _) Hpos), Hfc, (proj2 (Z.ltb_lt _ _) Hpos).
  assert (Hsl : slice data 0 (zlen data) = data).
  { unfold slice. rewrite Z.min_id, Z.sub_0_r. simpl. unfold zlen. rewrite Nat2Z.id.
    apply firstn_all. }
  rewrite Hsl. unfold decode_utf16le, data.
  rewrite utf16_units_encode by (intros u Hu; pose proof (H u Hu); lia).
  rewrite decode_units_plain by (intros u Hu; apply H, Hu).
  destruct us as [|u0 us0]; [congruence|]. fold data.
  destruct n; cbn [chunks_loop]; rewrite Z.ltb_irrefl; reflexivity.
Qed.

Lemma parse_chunks_plain_witness :
  [65; 66] <> [] /\
  parse_para_text_chunks (encode_utf16le [65; 66]) = [[65; 66]].
Proof.
  assert (Hne : [65; 66] <> []) by discriminate. split; [exact Hne|].
  apply (parse_chunks_plain [65; 66] Hne).
  intros u [<-|[<-|[]]]; lia.
Defined.

(** X6: the output of [clean_hwp_text(text, is_table=True)] has no control
    character, no zero-width character and no whitespace other than the
    space; it never holds two spaces in a row, and it neither starts nor
    ends with a space. *)

Theorem clean_table_shape s :
  let t := clean_hwp_text s true in
  (forall c, In c t -> 32 <= c /\ is_zw c = false /\ (is_space c = true -> c = 32))
  /\ (forall a b, t <> a ++ [32; 32] ++ b)
  /\ (forall c r, t = c :: r -> c <> 32) /\ (forall r c, t = r ++ [c] -> c <> 32).
Proof.
  intros t. destruct (clean_table_good s) as [Hc Hrun]. fold t in Hc, Hrun.
  split; [|split; [|split]].
  - intros c Hin. specialize (Hc c Hin). unfold good_char_table in Hc.
    apply andb_true_iff in Hc as [Hc Hz]. apply andb_true_iff in Hc as [H32 Hsp].
    apply Z.leb_le in H32. apply negb_true_iff in Hz.
    split; [exact H32|]. split; [exact Hz|]. intros Hs. rewrite Hs in Hsp. simpl in Hsp.
    apply Z.eqb_eq, Hsp.
  - intros a b E. apply (okrun_no_run is_space 1 t a [32; 32] b Hrun E eq_refl).
    intros c [<-|[<-|[]]]; reflexivity.
  - intros c r E. destruct (clean_strip s true) as [x Hx]. fold t in Hx.
    rewrite Hx in E. apply strip_first in E. intros ->. discriminate.
  - intros r c E. destruct (clean_strip s true) as [x Hx]. fold t in Hx.
    rewrite Hx in E. apply strip_last in E. intros ->. discriminate.
Qed.

(** X7: the output of [clean_hwp_text(text, is_table=False)] has no
    control character other than the line feed and carriage return, and no
    zero-width character; it never holds two spaces in a row nor three line
    feeds in a row, and it neither starts nor ends with whitespace. *)

Theorem clean_body_shape s :
  let t := clean_hwp_text s false in
  (forall c, In c t -> (32 <= c \/ c = 10 \/ c = 13) /\ is_zw c = false)
  /\ (forall a b, t <> a ++ [32; 32] ++ b)
  /\ (forall a b, t <> a ++ [10; 10; 10] ++ b)
  /\ (forall c r, t = c :: r -> is_space c = false)
  /\ (forall r c, t = r ++ [c] -> is_space c = false).
Proof.
  intros t. destruct (clean_body_good s) as (Hc & Hsp & Hnl). fold t in Hc, Hsp, Hnl.
  split; [|split; [|split; [|split]]].
  - intros c Hin. specialize (Hc c Hin). unfold good_char_body in Hc.
    apply andb_true_iff in Hc as [Hc Hz]. apply negb_true_iff in Hz. split; [|exact Hz].
    apply orb_true_iff in Hc as [Hc|Hc]; [apply orb_true_iff in Hc as [Hc|Hc]|].
    + left. apply Z.leb_le, Hc.
    + right; left. apply Z.eqb_eq, Hc.
    + right; right. apply Z.eqb_eq, Hc.
  - intros a b E. apply (okrun_no_run is_sp_tab 1 t a [32; 32] b Hsp E eq_refl).
    intros c [<-|[<-|[]]]; reflexivity.
  - intros a b E. apply (okrun_no_run is_nl 2 t a [10; 10; 10] b Hnl E eq_refl).
    intros c [<-|[<-|[<-|[]]]]; reflexivity.
  - intros c r E. destruct (clean_strip s false) as [x Hx]. fold t in Hx.
    rewrite Hx in E. exact (strip_first _ _ _ E).
  - intros r c E. destruct (clean_strip s false) as [x Hx]. fold t in Hx.
    rewrite Hx in E. exact (strip_last _ _ _ E).
Qed.

(** X8: when the document has a [FileHeader] stream, [read_hwp_metadata]
    reads it once and returns the version as the four bytes at offsets
    35, 34, 33 and 32 printed as [major.minor.build.revision], and the
    compression flag as bit 0 of the byte at offset 36 (false for a stream
    shorter than 40 bytes); a stream shorter than 36 bytes raises
    [struct.error]. *)

Theorem metadata_from_fileheader st log data :
  In (str "FileHeader") (list_streams st) ->
  read_stream st (str "FileHeader") = Ok data ->
  read_hwp_metadata st log =
    (if zlen data <? 36 then Err StructError
     else Ok {| version := Some (dec_str (byte_at data 35) ++ [46] ++ dec_str (byte_at data 34)
                                 ++ [46] ++ dec_str (byte_at data 33) ++ [46]
                                 ++ dec_str (byte_at data 32));
                compressed := Some ((40 <=? zlen data) && Z.odd (byte_at data 36)) |},
     log ++ [str "FileHeader"]).
Proof.
  intros Hin Hread. unfold read_hwp_metadata.
  rewrite (bool_decide_eq_true_2 _ (proj2 (list_elem_of_In _ _) Hin)). cbn [negb].
  unfold io_bind, io_read_stream. rewrite Hread.
  destruct (Z.ltb_spec (zlen data) 36) as [Hs|Hs].
  - destruct (Z.eqb_spec (zlen (slice data 32 36)) 4) as [E|E].
    + apply zlen_slice_32_36 in E. lia.
    + reflexivity.
  - rewrite (proj2 (Z.eqb_eq _ _) (proj2 (zlen_slice_32_36 data) Hs)). cbn [negb andb].
    destruct (u32_bytes data 32) as (E0 & E1 & E2 & E3 & _).
    rewrite E0, E1, E2, E3.
    unfold io_ret. f_equal. f_equal. f_equal.
    destruct (Z.leb_spec 40 (zlen data)); cbn [andb]; [|reflexivity].
    destruct (u32_bytes data 36) as (_ & _ & _ & _ & E4). rewrite E4.
    rewrite Zmod_odd. destruct (Z.odd (byte_at data 36)); reflexivity.
Qed.

Lemma metadata_from_fileheader_witness :
  let data := match read_stream mini_store (str "FileHeader") with Ok d => d | Err _ => [] end in
  In (str "FileHeader") (list_streams mini_store) /\
  read_stream mini_store (str "FileHeader") = Ok data /\
  read_hwp_metadata mini_store [] =
    (if zlen data <? 36 then Err StructError
     else Ok {| version := Some (dec_str (byte_at data 35) ++ [46] ++ dec_str (byte_at data 34)
                                 ++ [46] ++ dec_str (byte_at data 33) ++ [46]
                                 ++ dec_str (byte_at data 32));
                compressed := Some ((40 <=? zlen data) && Z.odd (byte_at data 36)) |},
     [] ++ [str "FileHeader"]).
Proof.
  intros data.
  assert (Hin : In (str "FileHeader") (list_streams mini_store))
    by (apply in_list_streams; vm_compute; eexists; reflexivity).
  assert (Hr : read_stream mini_store (str "FileHeader") = Ok data) by (vm_compute; reflexivity).
  split; [exact Hin|]. split; [exact Hr|].
  exact (metadata_from_fileheader mini_store [] data Hin Hr).
Defined.

Import Exn OleLoad OleShapes Render RenderShapes Convert ConvertShapes Files Documents OleLoadFacts RenderFacts ConvertFacts.

(** X9: [_unpack_u32_vec] inverts little-endian packing: on the 4-byte
    encodings of 32-bit values followed by fewer than 4 more bytes, it
    returns exactly those values, the trailing bytes being dropped. *)
Theorem unpack_pack xs tail :
  Forall (fun x => 0 <= x < 4294967296) xs -> (length tail < 4)%nat ->
  _unpack_u32_vec (concat (map pack_u32 xs) ++ tail) = xs.
Proof.
  intros Hxs Ht. induction Hxs as [|x xs Hx Hxs IH].
  - destruct tail as [|a [|b [|c [|d t]]]]; try reflexivity. simpl in Ht. lia.
  - cbn [map concat]. rewrite <- app_assoc.
    assert (Hu : u32_at (pack_u32 x) 0 = x).
    { pose proof (u32_at_pack [] [] x Hx) as H. rewrite app_nil_l, app_nil_r in H. exact H. }
    unfold pack_u32, pack_u16 in *. cbn [app _unpack_u32_vec] in *. rewrite Hu, IH. reflexivity.
Qed.

Lemma unpack_pack_witness :
  _unpack_u32_vec (concat (map pack_u32 [1; 4294967295]) ++ [x07]) = [1; 4294967295].
Proof. apply unpack_pack; [repeat constructor; lia|simpl; lia]. Defined.

(** X10: after [_read_header] and [_load_difat_and_fat] succeed, the DIFAT
    holds no FREE_SECTOR entry, and the FAT has exactly [sector_size / 4]
    entries per DIFAT entry, one sector read per entry. *)
Theorem load_difat_and_fat_shape self0 self h difat fat :
  _read_header self0 = Ok h ->
  _load_difat_and_fat self h = Ok (difat, fat) ->
  ~ In FREE_SECTOR difat
  /\ length fat = (length difat * (Z.to_nat (sector_size self) / 4))%nat.
Proof.
  intros Hh. unfold _load_difat_and_fat.
  destruct (difat_loop _ _ _ _) as [d|e] eqn:Ed; simpl; [|discriminate].
  destruct (fat_loop self d) as [f|e] eqn:Ef; simpl; [|discriminate].
  intros H. injection H as <- <-. split.
  - exact (difat_loop_free _ _ _ _ _ (read_header_difat _ _ Hh) Ed).
  - exact (fat_loop_length _ _ _ Ef).
Qed.

Lemma load_difat_and_fat_shape_witness :
  ~ In FREE_SECTOR (fst (difat_fat_of doc_table))
  /\ length (snd (difat_fat_of doc_table))
     = (length (fst (difat_fat_of doc_table)) * (Z.to_nat (sector_size (init_ole doc_table)) / 4))%nat.
Proof.
  refine (load_difat_and_fat_shape (init_ole doc_table) (init_ole doc_table) (header_of doc_table)
            (fst (difat_fat_of doc_table)) (snd (difat_fat_of doc_table)) _ _);
    vm_compute; reflexivity.
Defined.

(** X11: opening a file shorter than 512 bytes raises the IoError of
    [_read_exact_at]; a longer file whose first 8 bytes are not the OLE
    signature raises ValueError. *)
Theorem ole_open_rejects depth contents :
  map bval (firstn 8 contents) <> OLE_SIGNATURE \/ (length contents < 512)%nat ->
  ole_open depth contents
    = XErr (PyErr (if (length contents <? 512)%nat then IoError else ValueError)).
Proof.
  intros H. unfold ole_open. rewrite (read_header_init_err contents H). reflexivity.
Qed.

Lemma ole_open_rejects_witness :
  ole_open 64 [] = XErr (PyErr (if (length (@nil byte) <? 512)%nat then IoError else ValueError)).
Proof. apply ole_open_rejects. right. simpl. lia. Defined.

(** X12: after a successful open, every key of [dir_lookup] is a non-empty
    path mapped to a stream entry, and the path is the entry's name or
    some non-empty parent path, "/" and the name. *)
Theorem ole_open_lookup_paths depth contents st :
  ole_open depth contents = XOk st ->
  forall k e, dir_lookup st !! k = Some e -> lookup_path_ok k e.
Proof.
  unfold ole_open.
  destruct (_read_header _) as [h|?]; cbn [lift xbind]; [|discriminate].
  destruct (_load_difat_and_fat _ h) as [df|?]; cbn [lift xbind]; [|discriminate].
  destruct (_load_directory _ h) as [es|?]; cbn [lift xbind]; [|discriminate].
  destruct (_load_minifat _ h) as [mf|?]; cbn [lift xbind]; [|discriminate].
  destruct (_load_ministream _ es) as [ms|?]; cbn [lift xbind]; [|discriminate].
  destruct (_build_paths depth es) as [lk|?] eqn:Eb; cbn [xbind]; [|discriminate].
  intros H. injection H as <-. cbn [dir_lookup]. exact (build_paths_paths _ _ _ Eb).
Qed.

Lemma ole_open_lookup_paths_witness :
  lookup_path_ok (str "BodyText/Section0")
    (match dir_lookup (opened doc_table) !! str "BodyText/Section0" with
     | Some e => e | None => entry_A end).
Proof.
  assert (H1 : ole_open 64 doc_table = XOk (opened doc_table)) by (vm_compute; reflexivity).
  apply (ole_open_lookup_paths 64 doc_table (opened doc_table) H1).
  vm_compute. reflexivity.
Defined.

(** X13: the entries [_load_directory] returns carry their position as
    [index], a type byte, sibling and child links in the signed 32-bit
    range, a 32-bit start sector and a stream size below 2^64. *)
Theorem load_directory_entries self h es :
  _load_directory self h = Ok es ->
  forall i e, nth_error es i = Some e ->
  Ole.index e = Z.of_nat i /\ 0 <= type e <= 255
  /\ -2147483648 <= left e < 2147483648 /\ -2147483648 <= right e < 2147483648
  /\ -2147483648 <= child e < 2147483648 /\ 0 <= start_sector e < 4294967296
  /\ 0 <= stream_size e < 18446744073709551616.
Proof.
  unfold _load_directory. destruct (_read_chain _ _ _ _) as [raw|?]; cbn [rbind]; [|discriminate].
  intros H. injection H as <-. intros i e Hi.
  destruct (dir_records_nth _ _ _ _ _ Hi) as [rec ->].
  destruct (parse_dir_entry_fields (0 + Z.of_nat i) rec) as (Hx & Ht & Hl & Hr & Hc & Hs & Hz).
  rewrite Hz. pose proof (u32_at_range rec 120). pose proof (u32_at_range rec 124).
  repeat split; lia.
Qed.

Lemma load_directory_entries_witness :
  let e := nth 2 (entries_of doc_table) entry_A in
  Ole.index e = Z.of_nat 2 /\ 0 <= type e <= 255
  /\ -2147483648 <= left e < 2147483648 /\ -2147483648 <= right e < 2147483648
  /\ -2147483648 <= child e < 2147483648 /\ 0 <= start_sector e < 4294967296
  /\ 0 <= stream_size e < 18446744073709551616.
Proof.
  refine (load_directory_entries (init_ole doc_table) (header_of doc_table)
            (entries_of doc_table) _ 2 _ _); vm_compute; reflexivity.
Defined.

(** X14: [_load_ministream] returns no bytes when the directory has no root
    entry, and otherwise at most the root's [stream_size] bytes. *)
Theorem load_ministream_bound self es ms :
  _load_ministream self es = Ok ms ->
  match List.find is_root es with
  | None => ms = []
  | Some r => (length ms <= Z.to_nat (stream_size r))%nat
  end.
Proof.
  unfold _load_ministream. destruct (List.find is_root es) as [r|].
  - destruct (is_end_sid _ || _).
    + intros H. injection H as <-. simpl. lia.
    + apply read_chain_length.
  - intros H. injection H as <-. reflexivity.
Qed.

Lemma load_ministream_bound_witness :
  match List.find is_root (entries_of doc_table) with
  | None => ministream_of doc_table = []
  | Some r => (length (ministream_of doc_table) <= Z.to_nat (stream_size r))%nat
  end.
Proof.
  refine (load_ministream_bound (init_ole doc_table) (entries_of doc_table)
            (ministream_of doc_table) _); vm_compute; reflexivity.
Defined.

(** X15: when the root's child links back to itself (as its own left
    sibling, child or right sibling), [_build_paths] raises RecursionError,
    whatever the recursion limit. *)
Theorem build_paths_cycle depth es r n :
  List.find is_root es = Some r -> nth_error es (Z.to_nat (Ole.index r)) = Some r ->
  0 <= child r -> nth_error es (Z.to_nat (child r)) = Some n ->
  left n = child r \/ child n = child r \/ right n = child r ->
  _build_paths depth es = XErr RecursionError.
Proof.
  intros Hf Hr Hc Hn Hloop. unfold _build_paths. rewrite Hf.
  rewrite (nth_error_nth _ _ _ Hr), (proj2 (Z.leb_le _ _) Hc).
  destruct (walk_btree depth es (child r) [] ∅) as [lk|e] eqn:E.
  - exfalso. exact (walk_btree_self_loop _ _ _ _ _ _ _ Hc Hn Hloop E).
  - rewrite (walk_btree_err _ _ _ _ _ _ E). reflexivity.
Qed.

Lemma build_paths_cycle_witness :
  _build_paths 100 [loop_root; loop_child] = XErr RecursionError.
Proof.
  refine (build_paths_cycle 100 [loop_root; loop_child] loop_root loop_child _ _ _ _ _).
  - vm_compute. reflexivity.
  - vm_compute. reflexivity.
  - simpl. lia.
  - vm_compute. reflexivity.
  - left. reflexivity.
Defined.

(** X16: for cells at non-negative positions, [Table.to_text] either
    returns a string or raises ZeroDivisionError, and it raises it exactly
    when some cell inside the column range has a column span of 0. *)
Theorem to_text_errors t :
  (forall c, In c (cells t) -> 0 <= row c /\ 0 <= col c) ->
  ((exists s, to_text t = XOk s) \/ to_text t = XErr ZeroDivisionError)
  /\ (to_text t = XErr ZeroDivisionError
      <-> exists c0, In c0 (cells t) /\ col c0 < col_count t /\ col_span c0 = 0).
Proof.
  intros Hnn.
  destruct (grid_phase_ok (row_count t) (col_count t) (cells t) Hnn) as (g & Eg & Hg).
  assert (Hdec : {exists c0, In c0 (cells t) /\ col c0 < col_count t /\ col_span c0 = 0}
                 + {~ exists c0, In c0 (cells t) /\ col c0 < col_count t /\ col_span c0 = 0}).
  { destruct (existsb (fun c0 => (col c0 <? col_count t) && (col_span c0 =? 0)) (cells t))
      eqn:Eb; [left|right].
    - apply existsb_exists in Eb as (c0 & Hin & Hb). apply andb_true_iff in Hb as [H1 H2].
      exists c0. split; [exact Hin|]. split; [apply Z.ltb_lt, H1|apply Z.eqb_eq, H2].
    - intros (c0 & Hin & H1 & H2).
      assert (Hx : existsb (fun c0 => (col c0 <? col_count t) && (col_span c0 =? 0)) (cells t)
                   = true).
      { apply existsb_exists. exists c0. split; [exact Hin|].
        apply andb_true_iff. split; [apply Z.ltb_lt, H1|apply Z.eqb_eq, H2]. }
      congruence. }
  destruct Hdec as [Hz|Hz].
  - assert (Ew : xfold (widths_cell (col_count t)) (repeat 3 (Z.to_nat (col_count t))) (cells t)
                 = XErr ZeroDivisionError).
    { apply (xfold_err (widths_ok (col_count t))); [apply widths_init| |].
      - intros ws cell Hin Hws. destruct (Hnn cell Hin) as [_ Hc].
        destruct (widths_cell_result _ ws cell Hws Hc) as [E|(ws' & E & Hok)]; [left; exact E|].
        right. exists ws'. auto.
      - destruct Hz as (c0 & Hin & Hlt & H0). exists c0. split; [exact Hin|].
        intros ws _. unfold widths_cell.
        destruct (Z.geb_spec (col c0) (col_count t)); [lia|]. rewrite H0. reflexivity. }
    assert (Et : to_text t = XErr ZeroDivisionError).
    { unfold to_text. destruct (cells t) as [|c1 cs1] eqn:Ec.
      - destruct Hz as (c0 & [] & _).
      - cbv zeta. rewrite Eg. cbn [xbind]. rewrite Ew. reflexivity. }
    split; [right; exact Et|]. split; [intros _; exact Hz|intros _; exact Et].
  - destruct (widths_phase_ok (col_count t) (cells t) (repeat 3 (Z.to_nat (col_count t))))
      as (ws & Ew & _); [apply widths_init| |].
    { intros cell Hin. destruct (Hnn cell Hin) as [_ Hc]. split; [exact Hc|].
      intros Hlt H0. apply Hz. exists cell. auto. }
    assert (Et : exists s, to_text t = XOk s).
    { unfold to_text. destruct (cells t) as [|c1 cs1] eqn:Ec; [eexists; reflexivity|].
      cbv zeta. rewrite Eg. cbn [xbind]. rewrite Ew. cbn [xbind]. eexists. reflexivity. }
    split; [left; exact Et|]. split; [|intros H; contradiction].
    intros E. destruct Et as [s Es]. congruence.
Qed.

Lemma to_text_errors_witness :
  ((exists s, to_text table_zero_span = XOk s) \/ to_text table_zero_span = XErr ZeroDivisionError)
  /\ (to_text table_zero_span = XErr ZeroDivisionError
      <-> exists c0, In c0 (cells table_zero_span) /\ col c0 < col_count table_zero_span
                     /\ col_span c0 = 0).
Proof.
  apply to_text_errors. intros c Hc. simpl in Hc.
  destruct Hc as [<-|[<-|[]]]; simpl; lia.
Defined.

(** X17: for a table with 1..65535 rows and columns, at least one cell, and
    every cell at a non-negative position with a span of at least 1,
    [Table.to_text] returns [2 * row_count + 1] lines joined by newlines.
    When every cell spans one column, all lines have the same length. *)
Theorem to_text_lines t :
  table_ok t ->
  (forall c, In c (cells t) -> 0 <= row c /\ 0 <= col c /\ 1 <= col_span c) ->
  exists ls, to_text t = XOk (join [10] ls)
    /\ length ls = Z.to_nat (2 * row_count t + 1)
    /\ ((forall c, In c (cells t) -> col_span c = 1) ->
        forall l, In l ls -> length l = length (hd [] ls)).
Proof.
  intros (Hr & Hc & Hne) Hcs.
  destruct (grid_phase_ok (row_count t) (col_count t) (cells t)) as (g & Eg & Hg).
  { intros c Hin. destruct (Hcs c Hin) as (? & ? & _). auto. }
  destruct (widths_phase_ok (col_count t) (cells t) (repeat 3 (Z.to_nat (col_count t))))
    as (ws & Ew & Hws & _ & Hb); [apply widths_init| |].
  { intros c Hin. destruct (Hcs c Hin) as (_ & ? & ?). split; [auto|lia]. }
  exists (table_lines (row_count t) (fill_none g) ws).
  split.
  { unfold to_text. destruct (cells t) as [|c1 cs1] eqn:Ec; [congruence|].
    cbv zeta. rewrite Eg. cbn [xbind]. rewrite Ew. reflexivity. }
  assert (Hrange : range 0 (row_count t) = range 0 (0 + Z.of_nat (Z.to_nat (row_count t))))
    by (f_equal; lia).
  split.
  { unfold table_lines. rewrite !length_app, Hrange, length_row_lines by lia.
    cbn [length]. lia. }
  intros Hone.
  pose proof (widths_nonneg _ _ Hws) as Hw0.
  assert (Hwne : ws <> []) by (destruct Hws as [Hl _]; intros ->; simpl in Hl; lia).
  set (K := (sum_list_with Z.to_nat ws + 3 * length ws + 1)%nat).
  assert (HK : forall l, In l (table_lines (row_count t) (fill_none g) ws) -> length l = K).
  { intros l Hl. unfold table_lines in Hl.
    apply in_app_or in Hl as [[<-|[]]|Hl]; [apply length_hline; auto|].
    apply in_app_or in Hl as [Hl|[<-|[]]]; [|apply length_hline; auto].
    apply in_concat in Hl as (part & Hpart & Hl). apply in_map_iff in Hpart as (r & <- & Hr').
    apply in_range in Hr'.
    apply in_app_or in Hl as [[<-|[]]|Hl].
    2:{ destruct (r <? row_count t - 1); [destruct Hl as [<-|[]]|destruct Hl].
        apply length_hline; auto. }
    destruct Hg as (Hgl & Hrows).
    destruct (lookup_lt_is_Some_2 g (Z.to_nat r)) as [rw Hrw]; [lia|].
    destruct (Hrows _ _ Hrw) as (Hrwl & Hslots).
    unfold fill_none. rewrite (nth_map_some _ _ _ _ _ Hrw).
    destruct Hws as [Hwl _].
    apply length_row_line; [exact Hwne|rewrite length_map; unfold pystr in *; lia|exact Hw0|].
    intros j s w Hs Hwj. apply lookup_map_some in Hs as (o & Ho & ->).
    destruct o as [s'|]; [|simpl; lia].
    destruct (Hslots j s' Ho) as [->|(cell & Hin & Hcol & <-)]; [simpl; lia|].
    assert (Hj : (j < length rw)%nat) by (apply lookup_lt_Some in Ho; exact Ho).
    destruct (Hb cell Hin (Hone cell Hin) ltac:(lia)) as (w' & Hw' & Hle).
    rewrite Hcol, Nat2Z.id, Hwj in Hw'. injection Hw' as <-. unfold zlen in Hle. lia. }
  intros l Hl. rewrite (HK l Hl). symmetry. apply HK.
  unfold table_lines. simpl. left. reflexivity.
Qed.

Lemma to_text_lines_witness :
  exists ls, to_text table_2x2 = XOk (join [10] ls)
    /\ length ls = Z.to_nat (2 * row_count table_2x2 + 1)
    /\ ((forall c, In c (cells table_2x2) -> col_span c = 1) ->
        forall l, In l ls -> length l = length (hd [] ls)).
Proof.
  apply to_text_lines.
  - split; [simpl; lia|]. split; [simpl; lia|]. simpl. discriminate.
  - intros c Hc. simpl in Hc. destruct Hc as [<-|[<-|[<-|[]]]]; simpl; lia.
Defined.

(** X18: when the metadata and the sections read without error,
    [extract_full_text_from_hwp] reads the FileHeader stream (when listed)
    and then "BodyText/Section0", "BodyText/Section1", ... in order up to
    the first index with no stream, and no other stream.  It collects the
    paragraphs and the tables of those sections in that order. *)
Theorem read_document_sections zd st m mlog k data :
  read_hwp_metadata st [] = (Ok m, mlog) ->
  (forall i, (i < k)%nat -> read_stream st (section_name i) = Ok (data i)) ->
  section_name k ∉ list_streams st ->
  read_document zd st []
  = (Ok (concat (map (fun i => fst (extract_records (section_input zd (data i)))) (seq 0 k)),
         concat (map (fun i => snd (extract_records (section_input zd (data i)))) (seq 0 k))),
     (if bool_decide (str "FileHeader" ∈ list_streams st) then [str "FileHeader"] else [])
     ++ map section_name (seq 0 k)).
Proof.
  intros Hm Hr Hn. rewrite (read_document_ok zd st m mlog k data Hm Hr Hn).
  pose proof (read_hwp_metadata_log st []) as Hl. rewrite Hm in Hl. cbn [snd app] in Hl.
  rewrite Hl. reflexivity.
Qed.

Lemma read_document_sections_witness :
  read_document (fun _ _ => None) (opened doc_table) []
  = (Ok ([[65; 66]], snd (extract_records (section_input (fun _ _ => None) (sec_data doc_table 0)))),
     [str "FileHeader"; str "BodyText/Section0"]).
Proof.
  apply (read_document_sections (fun _ _ => None) (opened doc_table)
           (match fst (read_hwp_metadata (opened doc_table) []) with Ok m => m
            | Err _ => {| version := None; compressed := None |} end)
           [str "FileHeader"] 1 (sec_data doc_table)).
  - vm_compute. reflexivity.
  - intros i Hi. destruct i; [vm_compute; reflexivity|lia].
  - rewrite list_elem_of_In, in_list_streams. vm_compute. intros [x Hx]. discriminate Hx.
Defined.

(** X19: on an OLE file whose metadata, sections and tables are read and
    rendered without error, [extract_full_text_from_hwp] returns the
    paragraphs of sections 0..k-1, then for each table its header
    "\n\n[표 i]" (i counting from 1) and its rendering, all joined by
    "\n\n". *)
Theorem extract_full_text_sections zd es depth fs path contents st m k data ss :
  fs path = Some contents ->
  ole_open depth contents = XOk st ->
  fst (read_hwp_metadata st []) = Ok m ->
  (forall i, (i < k)%nat -> read_stream st (section_name i) = Ok (data i)) ->
  section_name k ∉ list_streams st ->
  map to_text (concat (map (fun i => snd (extract_records (section_input zd (data i)))) (seq 0 k)))
    = map XOk ss ->
  extract_full_text_from_hwp zd es depth fs path
  = join [10; 10] (concat (map (fun i => fst (extract_records (section_input zd (data i)))) (seq 0 k))
                   ++ concat (zip_with (fun j s => [table_header j; s]) (seq 1 (length ss)) ss)).
Proof. exact (extract_full_text_ok zd es depth fs path contents st m k data ss). Qed.

Lemma extract_full_text_sections_witness :
  let ss := map (fun t => match to_text t with XOk s => s | XErr _ => [] end)
                (snd (extract_records (sec_data doc_table 0))) in
  extract_full_text_from_hwp (fun _ _ => None) (fun _ => []) 64 (fs_one doc_table) (str "a.hwp")
  = join [10; 10]
      (concat (map (fun i => fst (extract_records (section_input (fun _ _ => None) (sec_data doc_table i))))
                   (seq 0 1))
       ++ concat (zip_with (fun j s => [table_header j; s]) (seq 1 (length ss)) ss)).
Proof.
  intros ss.
  refine (extract_full_text_sections (fun _ _ => None) (fun _ => []) 64 (fs_one doc_table)
            (str "a.hwp") doc_table (opened doc_table)
            {| version := Some (str "5.0.2.5"); compressed := Some false |} 1
            (sec_data doc_table) ss _ _ _ _ _ _).
  - vm_compute. reflexivity.
  - vm_compute. reflexivity.
  - vm_compute. reflexivity.
  - intros i Hi. destruct i; [vm_compute; reflexivity|lia].
  - rewrite list_elem_of_In, in_list_streams. vm_compute. intros [x Hx]. discriminate Hx.
  - vm_compute. reflexivity.
Defined.

(** X20: when the first table whose rendering fails raises [e],
    [extract_full_text_from_hwp] returns "[Error] Failed: " followed by
    [str(e)], and none of the extracted text. *)
Theorem extract_full_text_table_error zd es depth fs path contents st m k data j t e :
  fs path = Some contents ->
  ole_open depth contents = XOk st ->
  fst (read_hwp_metadata st []) = Ok m ->
  (forall i, (i < k)%nat -> read_stream st (section_name i) = Ok (data i)) ->
  section_name k ∉ list_streams st ->
  let ts := concat (map (fun i => snd (extract_records (section_input zd (data i)))) (seq 0 k)) in
  ts !! j = Some t -> to_text t = XErr e ->
  (forall j' t', (j' < j)%nat -> ts !! j' = Some t' -> exists s, to_text t' = XOk s) ->
  extract_full_text_from_hwp zd es depth fs path = str "[Error] Failed: " ++ es e.
Proof.
  intros Hfs Ho Hm Hr Hn ts Hj Ht Hb. unfold extract_full_text_from_hwp. rewrite Hfs, Ho. cbn [xbind].
  destruct (read_hwp_metadata st []) as [r mlog] eqn:Em. cbn [fst] in Hm. subst r.
  rewrite (read_document_ok zd st m mlog k data Em Hr Hn). cbn [fst lift xbind snd].
  unfold render_document, sec_records. erewrite table_blocks_err; [reflexivity|exact Hj|exact Ht|exact Hb].
Qed.

Lemma extract_full_text_table_error_witness :
  extract_full_text_from_hwp (fun _ _ => None) (fun _ => []) 64 (fs_one doc_zero_span) (str "a.hwp")
  = str "[Error] Failed: " ++ [].
Proof.
  refine (extract_full_text_table_error (fun _ _ => None) (fun _ => []) 64 (fs_one doc_zero_span)
            (str "a.hwp") doc_zero_span (opened doc_zero_span)
            {| version := Some (str "5.0.2.5"); compressed := Some false |} 1
            (sec_data doc_zero_span) 0
            {| row_count := 1; col_count := 1;
               cells := [{| col := 0; row := 0; col_span := 0; row_span := 1; text := [] |}] |}
            ZeroDivisionError _ _ _ _ _ _ _ _).
  - vm_compute. reflexivity.
  - vm_compute. reflexivity.
  - vm_compute. reflexivity.
  - intros i Hi. destruct i; [vm_compute; reflexivity|lia].
  - rewrite list_elem_of_In, in_list_streams. vm_compute. intros [x Hx]. discriminate Hx.
  - vm_compute. reflexivity.
  - vm_compute. reflexivity.
  - intros j' t' Hj'. lia.
Defined.

(** X21: for an existing file that is not an OLE file (shorter than 512
    bytes, or without the signature), [extract_full_text_from_hwp] returns
    "[Error] Failed: " with the IoError or the ValueError of the reader. *)
Theorem extract_full_text_not_ole zd es depth fs path contents :
  fs path = Some contents ->
  map bval (firstn 8 contents) <> OLE_SIGNATURE \/ (length contents < 512)%nat ->
  extract_full_text_from_hwp zd es depth fs path
  = str "[Error] Failed: " ++ es (PyErr (if (length contents <? 512)%nat then IoError else ValueError)).
Proof.
  intros Hfs Hbad. unfold extract_full_text_from_hwp, ole_open. rewrite Hfs.
  rewrite (read_header_init_err contents Hbad). reflexivity.
Qed.

Lemma extract_full_text_not_ole_witness :
  extract_full_text_from_hwp (fun _ _ => None) (fun _ => []) 64 (fs_one (repeat x00 512)) (str "a.hwp")
  = str "[Error] Failed: " ++ [].
Proof.
  refine (extract_full_text_not_ole (fun _ _ => None) (fun _ => []) 64 (fs_one (repeat x00 512))
            (str "a.hwp") (repeat x00 512) _ _).
  - vm_compute. reflexivity.
  - left. vm_compute. intros H. discriminate H.
Defined.

(** X22: [convert_hwp] reports failure and writes nothing for a readable
    document whose first paragraph starts with "[Error]": its text is taken
    for an error message. *)
Theorem convert_hwp_error_prefix zd es depth save fs path out contents st m k data ss p ps :
  fs path = Some contents ->
  ole_open depth contents = XOk st ->
  fst (read_hwp_metadata st []) = Ok m ->
  (forall i, (i < k)%nat -> read_stream st (section_name i) = Ok (data i)) ->
  section_name k ∉ list_streams st ->
  map to_text (concat (map (fun i => snd (extract_records (section_input zd (data i)))) (seq 0 k)))
    = map XOk ss ->
  concat (map (fun i => fst (extract_records (section_input zd (data i)))) (seq 0 k)) = p :: ps ->
  startswith p (str "[Error]") = true ->
  convert_hwp zd es depth save fs path out = (false, None).
Proof.
  intros Hfs Ho Hm Hr Hn Ht Hp Hs. unfold convert_hwp. rewrite Hfs.
  rewrite (extract_full_text_ok zd es depth fs path contents st m k data ss Hfs Ho Hm Hr Hn Ht), Hp.
  cbn [app]. rewrite (join_startswith p _ _ Hs). reflexivity.
Qed.

Lemma convert_hwp_error_prefix_witness :
  convert_hwp (fun _ _ => None) (fun _ => []) 64 (fun _ _ => true) (fs_one doc_error)
    (str "a.hwp") (str "out.txt") = (false, None).
Proof.
  refine (convert_hwp_error_prefix (fun _ _ => None) (fun _ => []) 64 (fun _ _ => true)
            (fs_one doc_error) (str "a.hwp") (str "out.txt") doc_error (opened doc_error)
            {| version := Some (str "5.0.2.5"); compressed := Some false |} 1
            (sec_data doc_error) [] (str "[Error]") [] _ _ _ _ _ _ _ _).
  - vm_compute. reflexivity.
  - vm_compute. reflexivity.
  - vm_compute. reflexivity.
  - intros i Hi. destruct i; [vm_compute; reflexivity|lia].
  - rewrite list_elem_of_In, in_list_streams. vm_compute. intros [x Hx]. discriminate Hx.
  - vm_compute. reflexivity.
  - vm_compute. reflexivity.
  - vm_compute. reflexivity.
Defined.

(** X23: when [convert_hwp] writes its output, it writes to [output_path]
    the stripped extracted text, which is non-empty and neither starts nor
    ends with whitespace.  Its result is the result of the write. *)
Theorem convert_hwp_saved zd es depth save fs path out b out' w :
  convert_hwp zd es depth save fs path out = (b, Some (out', w)) ->
  out' = out /\ b = save out w
  /\ w = strip (extract_full_text_from_hwp zd es depth fs path)
  /\ w <> []
  /\ (forall c r, w = c :: r -> is_space c = false)
  /\ (forall r c, w = r ++ [c] -> is_space c = false).
Proof.
  unfold convert_hwp. destruct (fs path); [|discriminate].
  set (text := extract_full_text_from_hwp zd es depth fs path).
  destruct (startswith text (str "[Error]") || bool_decide (strip text = [])) eqn:E; [discriminate|].
  intros H. injection H as <- <- <-. apply orb_false_iff in E as [_ E].
  apply bool_decide_eq_false in E.
  split; [reflexivity|]. split; [reflexivity|]. split; [reflexivity|]. split; [exact E|].
  split; [apply strip_first|apply strip_last].
Qed.

Lemma convert_hwp_saved_witness :
  let w := strip (extract_full_text_from_hwp (fun _ _ => None) (fun _ => []) 64 (fs_one doc_table)
                    (str "a.hwp")) in
  str "out.txt" = str "out.txt" /\ true = true
  /\ w = strip (extract_full_text_from_hwp (fun _ _ => None) (fun _ => []) 64 (fs_one doc_table)
                  (str "a.hwp"))
  /\ w <> []
  /\ (forall c r, w = c :: r -> is_space c = false)
  /\ (forall r c, w = r ++ [c] -> is_space c = false).
Proof.
  intros w.
  refine (convert_hwp_saved (fun _ _ => None) (fun _ => []) 64 (fun _ _ => true) (fs_one doc_table)
            (str "a.hwp") (str "out.txt") true (str "out.txt") w _).
  vm_compute. reflexivity.
Defined.

End Extras.
